(** * module1-IB: login lockout, password policy and the TOTP demo

    A shallow embedding of the Go sources:
    - [auth.go]: [HashPassword], [VerifyPassword], [IsPasswordSecure];
    - the user store and the user manager ([RegisterUser],
      [AuthenticateUser], [ChangePassword]);
    - the password rules ([DefaultPasswordRules], [ValidatePassword]) and
      the password generator ([GeneratePassword], [GenerateSecurePassword]);
    - the two-factor demo ([generateTOTPCode], [verifyTOTPCode],
      [verifySecondFactor]) and its menu actions ([registerUser2FA],
      [loginUser2FA], [enable2FA], [disable2FA], [generateBackupCodes]).

    Go's [int] and [int64] are 64-bit two's complement integers (amd64,
    arm64); they are modelled as [Z] with the wrap-around written out.
    Go strings are byte sequences; they are modelled as [string], whose
    characters are bytes. *)

From Stdlib Require Import ZArith List String Ascii Bool Lia.
From stdpp Require Import base option list gmap strings.

Local Open Scope Z_scope.

(** ** Go integers *)

Module GoInt.

(** Wrap an integer into the range of a signed 64-bit integer. *)
Definition wrap64 (z : Z) : Z := (z + 2 ^ 63) mod 2 ^ 64 - 2 ^ 63.

(** Go's [/] and [%] on integers truncate toward zero. *)
Definition div (a b : Z) : Z := wrap64 (Z.quot a b).
Definition rem (a b : Z) : Z := Z.rem a b.

Definition shl (a : Z) (n : Z) : Z := wrap64 (Z.shiftl a n).
Definition incr (a : Z) : Z := wrap64 (a + 1).

Definition in_range (z : Z) : Prop := - 2 ^ 63 <= z < 2 ^ 63.

End GoInt.

(** ** Bytes of a string *)

Definition byte_of (c : ascii) : Z := Z.of_N (N_of_ascii c).

Fixpoint bytes_of (s : string) : list Z :=
  match s with
  | EmptyString => []
  | String c r => byte_of c :: bytes_of r
  end.

(** ** SHA-256 (crypto/sha256), on lists of bytes *)

Module SHA256.

Definition w32 (x : Z) : Z := x mod 2 ^ 32.
Definition add32 (x y : Z) : Z := w32 (x + y).
Definition rotr (n x : Z) : Z :=
  w32 (Z.lor (Z.shiftr x n) (Z.shiftl x (32 - n))).
Definition not32 (x : Z) : Z := 2 ^ 32 - 1 - x.

Definition Ch (x y z : Z) : Z := Z.lxor (Z.land x y) (Z.land (not32 x) z).
Definition Maj (x y z : Z) : Z :=
  Z.lxor (Z.lxor (Z.land x y) (Z.land x z)) (Z.land y z).
Definition Sigma0 (x : Z) : Z :=
  Z.lxor (Z.lxor (rotr 2 x) (rotr 13 x)) (rotr 22 x).
Definition Sigma1 (x : Z) : Z :=
  Z.lxor (Z.lxor (rotr 6 x) (rotr 11 x)) (rotr 25 x).
Definition sigma0 (x : Z) : Z :=
  Z.lxor (Z.lxor (rotr 7 x) (rotr 18 x)) (Z.shiftr x 3).
Definition sigma1 (x : Z) : Z :=
  Z.lxor (Z.lxor (rotr 17 x) (rotr 19 x)) (Z.shiftr x 10).

(** The round constants are the first 32 bits of the fractional parts of
    the cube roots of the first 64 primes, the initial hash value those of
    the square roots of the first 8 primes. *)
Definition primes : list Z :=
  [2; 3; 5; 7; 11; 13; 17; 19; 23; 29; 31; 37; 41; 43; 47; 53; 59; 61; 67;
   71; 73; 79; 83; 89; 97; 101; 103; 107; 109; 113; 127; 131; 137; 139; 149;
   151; 157; 163; 167; 173; 179; 181; 191; 193; 197; 199; 211; 223; 227; 229;
   233; 239; 241; 251; 257; 263; 269; 271; 277; 281; 283; 293; 307; 311].

(** Integer cube root by bisection: the result [r] has [r^3 <= n < (r+1)^3]
    when [lo^3 <= n < hi^3] and the fuel covers the interval. *)
Fixpoint cbrt_go (fuel : nat) (lo hi n : Z) : Z :=
  match fuel with
  | O => lo
  | S f =>
      if hi - lo <=? 1 then lo
      else
        let mid := (lo + hi) / 2 in
        if mid * mid * mid <=? n then cbrt_go f mid hi n else cbrt_go f lo mid n
  end.

Definition frac_cbrt32 (p : Z) : Z := cbrt_go 40 0 (2 ^ 36) (p * 2 ^ 96) mod 2 ^ 32.
Definition frac_sqrt32 (p : Z) : Z := Z.sqrt (p * 2 ^ 64) mod 2 ^ 32.

Definition K : list Z := Eval vm_compute in map frac_cbrt32 primes.

Definition H0 : list Z := Eval vm_compute in map frac_sqrt32 (firstn 8 primes).

(** Big-endian bytes of a word of [n] bytes. *)
Fixpoint be_bytes (n : nat) (x : Z) : list Z :=
  match n with
  | O => []
  | S m => (Z.shiftr x (8 * Z.of_nat m)) mod 256 :: be_bytes m x
  end.

(** The message followed by 0x80, zero bytes up to 56 modulo 64, and the
    length in bits as a 64-bit big-endian integer. *)
Definition pad (msg : list Z) : list Z :=
  let len := Z.of_nat (length msg) in
  let zeros := Z.to_nat ((55 - len) mod 64) in
  msg ++ [0x80] ++ repeat 0 zeros ++ be_bytes 8 ((8 * len) mod 2 ^ 64).

(** Big-endian 32-bit words of a byte list (a trailing partial word is
    dropped; padded messages have none). *)
Fixpoint words_of (bs : list Z) : list Z :=
  match bs with
  | b0 :: b1 :: b2 :: b3 :: r =>
      (((b0 * 256 + b1) * 256 + b2) * 256 + b3) :: words_of r
  | _ => []
  end.

Definition nthw (l : list Z) (i : nat) : Z := nth i l 0.

(** Message schedule: [extend n w] appends [n] words to the list [w], each
    from the words 2, 7, 15 and 16 places back. *)
Fixpoint extend (n : nat) (w : list Z) : list Z :=
  match n with
  | O => w
  | S m =>
      let t := length w in
      let x := add32 (add32 (sigma1 (nthw w (t - 2))) (nthw w (t - 7)))
                     (add32 (sigma0 (nthw w (t - 15))) (nthw w (t - 16))) in
      extend m (w ++ [x])
  end.

Record regs := Regs { ra : Z; rb : Z; rc : Z; rd : Z;
                      re : Z; rf : Z; rg : Z; rh : Z }.

Definition round (r : regs) (kw : Z * Z) : regs :=
  let t1 := add32 (add32 (add32 (rh r) (Sigma1 (re r)))
                         (add32 (Ch (re r) (rf r) (rg r)) (fst kw))) (snd kw) in
  let t2 := add32 (Sigma0 (ra r)) (Maj (ra r) (rb r) (rc r)) in
  Regs (add32 t1 t2) (ra r) (rb r) (rc r) (add32 (rd r) t1) (re r) (rf r) (rg r).

Definition regs_of (h : list Z) : regs :=
  Regs (nthw h 0) (nthw h 1) (nthw h 2) (nthw h 3)
       (nthw h 4) (nthw h 5) (nthw h 6) (nthw h 7).

Definition compress (h : list Z) (block : list Z) : list Z :=
  let w := extend 48 block in
  let r0 := regs_of h in
  let r := fold_left round (combine K w) r0 in
  [ add32 (ra r0) (ra r); add32 (rb r0) (rb r);
    add32 (rc r0) (rc r); add32 (rd r0) (rd r);
    add32 (re r0) (re r); add32 (rf r0) (rf r);
    add32 (rg r0) (rg r); add32 (rh r0) (rh r) ].

(** Process the words sixteen at a time; [fuel] bounds the number of blocks. *)
Fixpoint blocks (fuel : nat) (h : list Z) (ws : list Z) : list Z :=
  match fuel with
  | O => h
  | S f =>
      match ws with
      | [] => h
      | _ => blocks f (compress h (firstn 16 ws)) (skipn 16 ws)
      end
  end.

(** The 32 bytes of the digest. *)
Definition sum (msg : list Z) : list Z :=
  let ws := words_of (pad msg) in
  flat_map (be_bytes 4) (blocks (length ws) H0 ws).

End SHA256.

(** ** Formatting integers (fmt.Sprintf) *)

Module Fmt.

Definition digit_char (d : Z) : ascii := ascii_of_N (Z.to_N (48 + d)).

(** Decimal digits of a non-negative integer, most significant first.  A
    64-bit integer has at most twenty digits. *)
Fixpoint digits_go (fuel : nat) (n : Z) (acc : string) : string :=
  match fuel with
  | O => acc
  | S f =>
      let acc' := String (digit_char (n mod 10)) acc in
      if n / 10 =? 0 then acc' else digits_go f (n / 10) acc'
  end.

Definition utoa (n : Z) : string := digits_go 20 n EmptyString.

Fixpoint zeros (n : nat) : string :=
  match n with
  | O => EmptyString
  | S m => String "0" (zeros m)
  end.

(** [fmt.Sprintf("%d", n)] *)
Definition sprintf_d (n : Z) : string :=
  if n <? 0 then String "-" (utoa (Z.abs n)) else utoa n.

(** [fmt.Sprintf("%06d", n)]: zero padding to a width of six, the sign
    counted in the width. *)
Definition sprintf_06d (n : Z) : string :=
  let ds := utoa (Z.abs n) in
  if n <? 0
  then String "-" (zeros (5 - String.length ds) ++ ds)
  else zeros (6 - String.length ds) ++ ds.

End Fmt.

(** ** Instants (time.Time) *)

Record Time := mkTime { unix_sec : Z; nano : Z }.

(** [t.Unix()]: seconds since the epoch, an int64. *)
Definition Unix (t : Time) : Z := GoInt.wrap64 (unix_sec t).

(** [time.Time{}], January 1 of year 1. *)
Definition zeroTime : Time := mkTime (-62135596800) 0.

Definition IsZero (t : Time) : bool :=
  (unix_sec t =? -62135596800) && (nano t =? 0).

Definition Second : Z := 1000000000.

(** [t.Add(d)], [d] a duration in nanoseconds. *)
Definition Add (t : Time) (d : Z) : Time :=
  let dsec := Z.quot d Second in
  let ns := nano t + Z.rem d Second in
  if Second <=? ns then mkTime (unix_sec t + dsec + 1) (ns - Second)
  else if ns <? 0 then mkTime (unix_sec t + dsec - 1) (ns + Second)
  else mkTime (unix_sec t + dsec) ns.

(** ** The TOTP demo *)

Module TOTP.

(** The loop [for i := 0; i < 4; i++ { code = (code << 8) | int(hash[i]) }]. *)
Definition code_loop (hash : list Z) : Z :=
  fold_left (fun code i => Z.lor (GoInt.shl code 8) (nth i hash 0))
            [0; 1; 2; 3]%nat 0.

Definition generateTOTPCode (secret : string) (timestamp : Time) : string :=
  let timeCounter := GoInt.div (Unix timestamp) 30 in
  let hash := SHA256.sum (bytes_of secret ++ bytes_of (Fmt.sprintf_d timeCounter)) in
  let code := code_loop hash in
  let code := GoInt.rem code 1000000 in
  Fmt.sprintf_06d code.

(** [verifyTOTPCode]; [currentTime] is the reading of [time.Now()]. *)
Definition verifyTOTPCode (currentTime : Time) (secret inputCode : string) : bool :=
  existsb (fun offset =>
             let testTime := Add currentTime (GoInt.wrap64 (GoInt.wrap64 (offset * 30) * Second)) in
             String.eqb inputCode (generateTOTPCode secret testTime))
          [-1; 0; 1].

(** The derivation as the specification words it: the counter is the floor
    of the Unix seconds over thirty, the digest is SHA-256 of the secret
    followed by the counter in decimal, its first four bytes are read as a
    big-endian unsigned 32-bit integer, reduced modulo 1,000,000 and
    left-padded with zeros to six digits. *)
Definition be_uint32 (hash : list Z) : Z :=
  nth 0 hash 0 * 2 ^ 24 + nth 1 hash 0 * 2 ^ 16 + nth 2 hash 0 * 2 ^ 8 + nth 3 hash 0.

Definition pad_left_zeros (width : nat) (s : string) : string :=
  Fmt.zeros (width - String.length s) ++ s.

Definition derive_from_counter (secret : string) (counter : Z) : string :=
  let digest := SHA256.sum (bytes_of secret ++ bytes_of (Fmt.sprintf_d counter)) in
  pad_left_zeros 6 (Fmt.utoa (be_uint32 digest mod 1000000)).

Definition deriveCode_spec (secret : string) (t : Time) : string :=
  derive_from_counter secret (Unix t / 30).

End TOTP.

Definition hex_of (bs : list Z) : Z := fold_left (fun a b => a * 256 + b) bs 0.

Definition demo_secret : string := "00112233445566778899aabbccddeeff".

(** An instant of March 2024, at the start of a window. *)
Definition demo_now : Time := mkTime 1710919260 0.

(** ** UTF-8 decoding, as [for _, char := range s] does it *)

Module Utf8.

Definition RuneError : Z := 0xFFFD.

Definition is_cont (b : Z) : bool := (0x80 <=? b) && (b <=? 0xBF).

(** Accepted range of the second byte, by the first one. *)
Definition accept_lo (b0 : Z) : Z :=
  if b0 =? 0xE0 then 0xA0 else if b0 =? 0xF0 then 0x90 else 0x80.
Definition accept_hi (b0 : Z) : Z :=
  if b0 =? 0xED then 0x9F else if b0 =? 0xF4 then 0x8F else 0xBF.
Definition accept (b0 b1 : Z) : bool :=
  (accept_lo b0 <=? b1) && (b1 <=? accept_hi b0).

(** An ill-formed byte decodes to [RuneError] and is one byte wide. *)
Fixpoint decode (bs : list Z) : list Z :=
  match bs with
  | [] => []
  | b0 :: r0 =>
      if b0 <? 0x80 then b0 :: decode r0
      else if (b0 <? 0xC2) || (0xF4 <? b0) then RuneError :: decode r0
      else
        match r0 with
        | [] => RuneError :: decode r0
        | b1 :: r1 =>
            if negb (accept b0 b1) then RuneError :: decode r0
            else if b0 <? 0xE0
            then (Z.lor (Z.shiftl (Z.land b0 0x1F) 6) (Z.land b1 0x3F)) :: decode r1
            else
              match r1 with
              | [] => RuneError :: decode r0
              | b2 :: r2 =>
                  if negb (is_cont b2) then RuneError :: decode r0
                  else if b0 <? 0xF0
                  then (Z.lor (Z.lor (Z.shiftl (Z.land b0 0x0F) 12)
                                     (Z.shiftl (Z.land b1 0x3F) 6))
                              (Z.land b2 0x3F)) :: decode r2
                  else
                    match r2 with
                    | [] => RuneError :: decode r0
                    | b3 :: r3 =>
                        if negb (is_cont b3) then RuneError :: decode r0
                        else (Z.lor (Z.lor (Z.lor (Z.shiftl (Z.land b0 0x07) 18)
                                                  (Z.shiftl (Z.land b1 0x3F) 12))
                                           (Z.shiftl (Z.land b2 0x3F) 6))
                                    (Z.land b3 0x3F)) :: decode r3
                    end
              end
        end
  end.

Definition runes (s : string) : list Z := decode (bytes_of s).

(** [strings.ContainsRune(s, r)], for a rune [r] that [range] produced. *)
Definition ContainsRune (s : string) (r : Z) : bool :=
  existsb (Z.eqb r) (runes s).

(** [string(runes)]: the encoding of one rune; what is not a Unicode scalar
    value is written as U+FFFD. *)
Definition encode_rune (r : Z) : list Z :=
  if (0 <=? r) && (r <=? 0x7F) then [r]
  else if (0 <=? r) && (r <=? 0x7FF)
  then [Z.lor 0xC0 (Z.shiftr r 6); Z.lor 0x80 (Z.land r 0x3F)]
  else if (r <? 0) || (0x10FFFF <? r) || ((0xD800 <=? r) && (r <=? 0xDFFF))
  then [0xEF; 0xBF; 0xBD]
  else if r <=? 0xFFFF
  then [Z.lor 0xE0 (Z.shiftr r 12);
        Z.lor 0x80 (Z.land (Z.shiftr r 6) 0x3F);
        Z.lor 0x80 (Z.land r 0x3F)]
  else [Z.lor 0xF0 (Z.shiftr r 18);
        Z.lor 0x80 (Z.land (Z.shiftr r 12) 0x3F);
        Z.lor 0x80 (Z.land (Z.shiftr r 6) 0x3F);
        Z.lor 0x80 (Z.land r 0x3F)].

Definition encode (rs : list Z) : list Z := flat_map encode_rune rs.

End Utf8.

(** The runes of [rs] that [charset] contains, counted. *)
Definition countIn (charset : string) (rs : list Z) : Z :=
  Z.of_nat (length (List.filter (Utf8.ContainsRune charset) rs)).

(** ** Password rules *)

Module Policy.

Record PasswordRules := mkRules {
  Length : Z;
  RequireUppercase : bool;
  RequireLowercase : bool;
  RequireDigits : bool;
  RequireSpecial : bool;
  MinUppercase : Z;
  MinLowercase : Z;
  MinDigits : Z;
  MinSpecial : Z
}.

Definition DefaultPasswordRules : PasswordRules :=
  mkRules 12 true true true true 2 2 2 2.

Definition uppercaseLetters : string := "ABCDEFGHIJKLMNOPQRSTUVWXYZ".
Definition lowercaseLetters : string := "abcdefghijklmnopqrstuvwxyz".
Definition digits : string := "0123456789".
Definition specialChars : string := "!@#$%^&*()_+-=[]{}|;:,.<>?".

Record Counts := mkCounts {
  uppercaseCount : Z;
  lowercaseCount : Z;
  digitCount : Z;
  specialCount : Z
}.

(** The [switch] of the counting loop: the first class that contains the
    character gets it. *)
Definition count_step (c : Counts) (char : Z) : Counts :=
  if Utf8.ContainsRune uppercaseLetters char then
    mkCounts (GoInt.incr (uppercaseCount c)) (lowercaseCount c) (digitCount c) (specialCount c)
  else if Utf8.ContainsRune lowercaseLetters char then
    mkCounts (uppercaseCount c) (GoInt.incr (lowercaseCount c)) (digitCount c) (specialCount c)
  else if Utf8.ContainsRune digits char then
    mkCounts (uppercaseCount c) (lowercaseCount c) (GoInt.incr (digitCount c)) (specialCount c)
  else if Utf8.ContainsRune specialChars char then
    mkCounts (uppercaseCount c) (lowercaseCount c) (digitCount c) (GoInt.incr (specialCount c))
  else c.

Definition classCounts (password : string) : Counts :=
  fold_left count_step (Utf8.runes password) (mkCounts 0 0 0 0).

Definition msgLength (n : Z) : string :=
  "пароль должен содержать минимум " ++ Fmt.sprintf_d n ++ " символов".
Definition msgUppercase (n : Z) : string :=
  "пароль должен содержать минимум " ++ Fmt.sprintf_d n ++ " заглавных букв".
Definition msgLowercase (n : Z) : string :=
  "пароль должен содержать минимум " ++ Fmt.sprintf_d n ++ " строчных букв".
Definition msgDigits (n : Z) : string :=
  "пароль должен содержать минимум " ++ Fmt.sprintf_d n ++ " цифр".
Definition msgSpecial (n : Z) : string :=
  "пароль должен содержать минимум " ++ Fmt.sprintf_d n ++ " специальных символов".

(** [errors = append(errors, msg)] when the condition holds. *)
Definition appendIf (cond : bool) (msg : string) (errors : list string) : list string :=
  if cond then errors ++ [msg] else errors.

Definition ValidatePassword (password : string) (rules : PasswordRules)
  : bool * list string :=
  let errors := [] in
  let errors :=
    appendIf (Z.of_nat (String.length password) <? Length rules)
             (msgLength (Length rules)) errors in
  let c := classCounts password in
  let errors :=
    appendIf (RequireUppercase rules && (uppercaseCount c <? MinUppercase rules))
             (msgUppercase (MinUppercase rules)) errors in
  let errors :=
    appendIf (RequireLowercase rules && (lowercaseCount c <? MinLowercase rules))
             (msgLowercase (MinLowercase rules)) errors in
  let errors :=
    appendIf (RequireDigits rules && (digitCount c <? MinDigits rules))
             (msgDigits (MinDigits rules)) errors in
  let errors :=
    appendIf (RequireSpecial rules && (specialCount c <? MinSpecial rules))
             (msgSpecial (MinSpecial rules)) errors in
  (Nat.eqb (length errors) 0, errors).

(** The requirements a rule set states, in the order they are checked. *)
Inductive Requirement :=
  ReqLength | ReqUppercase | ReqLowercase | ReqDigits | ReqSpecial.

Definition allRequirements : list Requirement :=
  [ReqLength; ReqUppercase; ReqLowercase; ReqDigits; ReqSpecial].

(** Whether [password] violates requirement [r], in the words of the
    rules: its length in bytes, and for each class the number of its runes
    that the character list of the class contains. *)
Definition violated (password : string) (rules : PasswordRules) (r : Requirement) : bool :=
  let rs := Utf8.runes password in
  match r with
  | ReqLength => Z.of_nat (String.length password) <? Length rules
  | ReqUppercase =>
      RequireUppercase rules && (countIn uppercaseLetters rs <? MinUppercase rules)
  | ReqLowercase =>
      RequireLowercase rules && (countIn lowercaseLetters rs <? MinLowercase rules)
  | ReqDigits =>
      RequireDigits rules && (countIn digits rs <? MinDigits rules)
  | ReqSpecial =>
      RequireSpecial rules && (countIn specialChars rs <? MinSpecial rules)
  end.

Definition message (rules : PasswordRules) (r : Requirement) : string :=
  match r with
  | ReqLength => msgLength (Length rules)
  | ReqUppercase => msgUppercase (MinUppercase rules)
  | ReqLowercase => msgLowercase (MinLowercase rules)
  | ReqDigits => msgDigits (MinDigits rules)
  | ReqSpecial => msgSpecial (MinSpecial rules)
  end.

End Policy.

(** ** The environment: packages outside the repository

    [strings.TrimSpace] and the two entry points of
    [golang.org/x/crypto/bcrypt].  [GenerateFromPassword] draws a random
    salt, so it takes the drawn entropy as an argument; it fails with an
    error ([None]) on some inputs.  [CompareHashAndPassword hash password]
    is [true] when the library returns a nil error. *)

Class Env := {
  TrimSpace : string -> string;
  GenerateFromPassword : Z -> string -> Z -> option string;
  CompareHashAndPassword : string -> string -> bool
}.

(** ** auth.go *)

Section AuthGo.
Context `{Env}.

(** [None] is the wrapped bcrypt error. *)
Definition HashPassword (entropy : Z) (password : string) : option string :=
  let cost := 12 in
  GenerateFromPassword entropy password cost.

Definition VerifyPassword (password hashedPassword : string) : bool :=
  CompareHashAndPassword hashedPassword password.

Definition IsPasswordSecure (password : string) : bool * list string :=
  let rules := Policy.DefaultPasswordRules in
  Policy.ValidatePassword password rules.

End AuthGo.

(** ** The user store and the user manager *)

Module Auth.

Record User := mkUser {
  Username : string;
  HashedPassword : string;
  FailedAttempts : Z;
  IsBlocked : bool;
  CreatedAt : Time;
  LastLoginAt : Time;
  BlockedAt : Time
}.

(** The store maps names to pointers ([map[string]*User]); the objects
    they point to live in a heap.  A pointer absent from the heap is
    [nil]. *)
Definition loc := positive.

Record UserStore := mkStore { users : gmap string loc }.

Record UserManager := mkManager {
  store : UserStore;
  maxAttempts : Z
}.

Record State := mkState {
  heap : gmap loc User;
  um : UserManager
}.

Inductive AuthResult :=
  AuthSuccess | AuthInvalidCredentials | AuthUserBlocked | AuthUserNotFound.

(** The errors [RegisterUser] and [ChangePassword] return, one per
    [fmt.Errorf]. *)
Inductive Error :=
| ErrEmptyUsername
| ErrUserExists (username : string)
| ErrUserNotFound
| ErrWeakPassword (violations : list string)
| ErrHashPassword.

Definition NewUserStore : UserStore := mkStore ∅.

Definition NewUserManager : State :=
  mkState ∅ (mkManager NewUserStore 3).

Definition GetUser (s : State) (username : string) : option loc :=
  users (store (um s)) !! username.

Definition UserExists (s : State) (username : string) : bool :=
  match users (store (um s)) !! username with
  | Some _ => true
  | None => false
  end.

(** Assignment through the pointer [l]. *)
Definition write (l : loc) (u : User) (s : State) : State :=
  mkState (<[l := u]> (heap s)) (um s).

(** [s.users[user.Username] = user]; [None] is the nil dereference. *)
Definition SaveUser (l : loc) (s : State) : option State :=
  match heap s !! l with
  | None => None
  | Some u =>
      Some (mkState (heap s)
                    (mkManager (mkStore (<[Username u := l]> (users (store (um s)))))
                               (maxAttempts (um s))))
  end.

(** [&User{...}]: a new object at an unused address. *)
Definition alloc (u : User) (s : State) : loc * State :=
  let l := fresh (dom (heap s)) in
  (l, mkState (<[l := u]> (heap s)) (um s)).

Definition setFailedAttempts (n : Z) (u : User) : User :=
  mkUser (Username u) (HashedPassword u) n (IsBlocked u)
         (CreatedAt u) (LastLoginAt u) (BlockedAt u).
Definition setLastLoginAt (t : Time) (u : User) : User :=
  mkUser (Username u) (HashedPassword u) (FailedAttempts u) (IsBlocked u)
         (CreatedAt u) t (BlockedAt u).
Definition setIsBlocked (b : bool) (u : User) : User :=
  mkUser (Username u) (HashedPassword u) (FailedAttempts u) b
         (CreatedAt u) (LastLoginAt u) (BlockedAt u).
Definition setBlockedAt (t : Time) (u : User) : User :=
  mkUser (Username u) (HashedPassword u) (FailedAttempts u) (IsBlocked u)
         (CreatedAt u) (LastLoginAt u) t.
Definition setHashedPassword (h : string) (u : User) : User :=
  mkUser (Username u) h (FailedAttempts u) (IsBlocked u)
         (CreatedAt u) (LastLoginAt u) (BlockedAt u).

Section Manager.
Context `{Env}.

(** [now] is the reading of [time.Now()], [entropy] what bcrypt draws. *)
Definition RegisterUser (now : Time) (entropy : Z) (username password : string)
    (s : State) : option Error * State :=
  let username := TrimSpace username in
  if String.eqb username "" then (Some ErrEmptyUsername, s)
  else if UserExists s username then (Some (ErrUserExists username), s)
  else
    let '(isSecure, errors) := IsPasswordSecure password in
    if negb isSecure then (Some (ErrWeakPassword errors), s)
    else
      match HashPassword entropy password with
      | None => (Some ErrHashPassword, s)
      | Some hashedPassword =>
          let user := mkUser username hashedPassword 0 false now zeroTime zeroTime in
          let '(l, s1) := alloc user s in
          match SaveUser l s1 with
          | Some s2 => (None, s2)
          | None => (None, s1)
          end
      end.

(** The returned error of the source is always nil and is left out.
    [None] is a nil dereference. *)
Definition AuthenticateUser (now : Time) (username password : string)
    (s : State) : option (AuthResult * State) :=
  let username := TrimSpace username in
  match GetUser s username with
  | None => Some (AuthUserNotFound, s)
  | Some l =>
      match heap s !! l with
      | None => None
      | Some user =>
          if IsBlocked user then Some (AuthUserBlocked, s)
          else if VerifyPassword password (HashedPassword user) then
            let user := setFailedAttempts 0 user in
            let user := setLastLoginAt now user in
            match SaveUser l (write l user s) with
            | None => None
            | Some s' => Some (AuthSuccess, s')
            end
          else
            let user := setFailedAttempts (GoInt.incr (FailedAttempts user)) user in
            let user :=
              if maxAttempts (um s) <=? FailedAttempts user
              then setBlockedAt now (setIsBlocked true user)
              else user in
            match SaveUser l (write l user s) with
            | None => None
            | Some s' =>
                if IsBlocked user then Some (AuthUserBlocked, s')
                else Some (AuthInvalidCredentials, s')
            end
      end
  end.

Definition ChangePassword (entropy : Z) (username newPassword : string)
    (s : State) : option (option Error * State) :=
  let username := TrimSpace username in
  match GetUser s username with
  | None => Some (Some ErrUserNotFound, s)
  | Some l =>
      let '(isSecure, errors) := IsPasswordSecure newPassword in
      if negb isSecure then Some (Some (ErrWeakPassword errors), s)
      else
        match HashPassword entropy newPassword with
        | None => Some (Some ErrHashPassword, s)
        | Some hashedPassword =>
            match heap s !! l with
            | None => None
            | Some user =>
                let user := setHashedPassword hashedPassword user in
                let user := setFailedAttempts 0 user in
                let user := setIsBlocked false user in
                let user := setBlockedAt zeroTime user in
                match SaveUser l (write l user s) with
                | None => None
                | Some s' => Some (None, s')
                end
            end
        end
  end.

(** A run of [AuthenticateUser] calls for one name, one clock reading and
    one password per call. *)
Fixpoint authenticateAll (calls : list (Time * string)) (username : string)
    (s : State) : option (list AuthResult * State) :=
  match calls with
  | [] => Some ([], s)
  | (now, password) :: rest =>
      match AuthenticateUser now username password s with
      | None => None
      | Some (r, s1) =>
          match authenticateAll rest username s1 with
          | None => None
          | Some (rs, s2) => Some (r :: rs, s2)
          end
      end
  end.

(** States of a manager made by [NewUserManager] and driven through its
    three operations; the clock never reads the zero [Time]. *)
Inductive reachable : State -> Prop :=
| reach_new : reachable NewUserManager
| reach_register now entropy username password s :
    reachable s -> IsZero now = false ->
    reachable (snd (RegisterUser now entropy username password s))
| reach_authenticate now username password s r s' :
    reachable s -> IsZero now = false ->
    AuthenticateUser now username password s = Some (r, s') ->
    reachable s'
| reach_change entropy username newPassword s e s' :
    reachable s ->
    ChangePassword entropy username newPassword s = Some (e, s') ->
    reachable s'.

End Manager.

End Auth.

(** ** The two-factor demo *)

Module TwoFA.

Record User2FA := mkUser2FA {
  Username : string;
  PasswordHash : string;
  TotpSecret : string;
  BackupCodes : list string;
  Is2FAEnabled : bool;
  CreatedAt : Time;
  LastLogin : Time
}.

Definition loc := positive.

Record User2FAStore := mkStore { users : gmap string loc }.

Record TwoFactorAuth := mkAuth {
  store : User2FAStore;
  codeLifetime : Z;
  backupCodes : Z
}.

Record State := mkState {
  heap : gmap loc User2FA;
  auth : TwoFactorAuth
}.

Record AuthResult2FA := mkResult {
  Success : bool;
  Message : string;
  RequiresTOTP : bool;
  User : option loc
}.

Definition NewTwoFactorAuth : State :=
  mkState ∅ (mkAuth (mkStore ∅) 30 10).

Definition setTotpSecret (x : string) (u : User2FA) : User2FA :=
  mkUser2FA (Username u) (PasswordHash u) x (BackupCodes u)
            (Is2FAEnabled u) (CreatedAt u) (LastLogin u).
Definition setBackupCodes (x : list string) (u : User2FA) : User2FA :=
  mkUser2FA (Username u) (PasswordHash u) (TotpSecret u) x
            (Is2FAEnabled u) (CreatedAt u) (LastLogin u).
Definition setIs2FAEnabled (x : bool) (u : User2FA) : User2FA :=
  mkUser2FA (Username u) (PasswordHash u) (TotpSecret u) (BackupCodes u)
            x (CreatedAt u) (LastLogin u).

Definition write (l : loc) (u : User2FA) (s : State) : State :=
  mkState (<[l := u]> (heap s)) (auth s).

(** *** The random source ([crypto/rand]) and the line scanner *)

(** What the reader delivers, draw by draw. *)
Record Rand := mkRand { tape : nat -> Z; pos : nat }.

(** [rand.Int(rand.Reader, big.NewInt(n))]: a value in [0, n). *)
Definition randInt (n : Z) (r : Rand) : Z * Rand :=
  (tape r (pos r) mod n, mkRand (tape r) (S (pos r))).

(** The lines still to be read; [Scan] fails at the end of the input. *)
Definition Scanner := list string.

Definition Scan (sc : Scanner) : option (string * Scanner) :=
  match sc with
  | [] => None
  | line :: rest => Some (line, rest)
  end.

(** *** Secrets and backup codes *)

Definition charAt (charset : string) (i : Z) : ascii :=
  match String.get (Z.to_nat i) charset with
  | Some c => c
  | None => "000"%char
  end.

Definition hexdigits : string := "0123456789abcdef".

(** [fmt.Sprintf("%x", bytes)] *)
Fixpoint sprintf_x (bytes : list Z) : string :=
  match bytes with
  | [] => EmptyString
  | b :: rest =>
      String (charAt hexdigits (b / 16))
             (String (charAt hexdigits (b mod 16)) (sprintf_x rest))
  end.

Fixpoint randBytes (n : nat) (r : Rand) : list Z * Rand :=
  match n with
  | O => ([], r)
  | S m =>
      let '(x, r1) := randInt 256 r in
      let '(rest, r2) := randBytes m r1 in
      (x mod 256 :: rest, r2)
  end.

Definition generateTOTPSecret (r : Rand) : string * Rand :=
  let '(bytes, r1) := randBytes 16 r in
  (sprintf_x bytes, r1).

Definition charset : string := "ABCDEFGHIJKLMNOPQRSTUVWXYZ0123456789".

Fixpoint randChars (n : nat) (r : Rand) : string * Rand :=
  match n with
  | O => (EmptyString, r)
  | S m =>
      let '(x, r1) := randInt (Z.of_nat (String.length charset)) r in
      let '(rest, r2) := randChars m r1 in
      (String (charAt charset x) rest, r2)
  end.

Definition generateBackupCode (r : Rand) : string * Rand := randChars 8 r.

Fixpoint backupCodesLoop (count : nat) (r : Rand) : list string * Rand :=
  match count with
  | O => ([], r)
  | S m =>
      let '(code, r1) := generateBackupCode r in
      let '(rest, r2) := backupCodesLoop m r1 in
      (code :: rest, r2)
  end.

Definition generateBackupCodesList (count : Z) (r : Rand) : list string * Rand :=
  backupCodesLoop (Z.to_nat count) r.

(** *** Second factor *)

(** Index of the first backup code equal to [code], from index [i]. *)
Fixpoint findCode (code : string) (codes : list string) (i : nat) : option nat :=
  match codes with
  | [] => None
  | backupCode :: rest =>
      if String.eqb code backupCode then Some i else findCode code rest (S i)
  end.

(** The user is passed by pointer; the returned record is the object after
    the call.  [now] is the clock reading inside [verifyTOTPCode]. *)
Definition verifySecondFactor (now : Time) (user : User2FA) (code : string)
  : bool * User2FA :=
  if (Nat.eqb (String.length code) 6)
     && TOTP.verifyTOTPCode now (TotpSecret user) code
  then (true, user)
  else
    match findCode code (BackupCodes user) 0 with
    | Some i =>
        (true,
         setBackupCodes (firstn i (BackupCodes user) ++ skipn (S i) (BackupCodes user))
                        user)
    | None => (false, user)
    end.

Section Controller.
Context `{Env}.

(** [None] is a nil dereference. *)
Definition authenticateFirstFactor (s : State) (username password : string)
  : option AuthResult2FA :=
  match users (store (auth s)) !! username with
  | None => Some (mkResult false "Пользователь не найден" false None)
  | Some l =>
      match heap s !! l with
      | None => None
      | Some user =>
          if negb (CompareHashAndPassword (PasswordHash user) password)
          then Some (mkResult false "Неверный пароль" false None)
          else Some (mkResult true "Первый фактор пройден" (Is2FAEnabled user) (Some l))
      end
  end.

Definition readPasswordSimple (sc : Scanner) : string * Scanner :=
  match Scan sc with
  | None => (EmptyString, sc)
  | Some (line, rest) => (TrimSpace line, rest)
  end.

(** The helper of the menu actions (the prompts it prints are left out). *)
Definition authenticateUser (s : State) (sc : Scanner)
  : option (option loc * Scanner) :=
  match Scan sc with
  | None => Some (None, sc)
  | Some (line, sc1) =>
      let username := TrimSpace line in
      let '(password, sc2) := readPasswordSimple sc1 in
      match authenticateFirstFactor s username password with
      | None => None
      | Some result =>
          if negb (Success result) then Some (None, sc2)
          else Some (User result, sc2)
      end
  end.

(** The menu action; what it prints is left out.  [now] is the clock
    reading of the confirmation. *)
Definition enable2FA (now : Time) (s : State) (sc : Scanner) (r : Rand)
  : option (State * Scanner * Rand) :=
  match authenticateUser s sc with
  | None => None
  | Some (None, sc1) => Some (s, sc1, r)
  | Some (Some l, sc1) =>
      match heap s !! l with
      | None => None
      | Some user =>
          if Is2FAEnabled user then Some (s, sc1, r)
          else
            let '(secret, r1) := generateTOTPSecret r in
            let user := setTotpSecret secret user in
            let '(codes, r2) := generateBackupCodesList (backupCodes (auth s)) r1 in
            let user := setBackupCodes codes user in
            match Scan sc1 with
            | None => Some (write l user s, sc1, r2)
            | Some (line, sc2) =>
                let code := TrimSpace line in
                if TOTP.verifyTOTPCode now secret code
                then Some (write l (setIs2FAEnabled true user) s, sc2, r2)
                else Some (write l (setBackupCodes [] (setTotpSecret EmptyString user)) s,
                           sc2, r2)
            end
      end
  end.

(** [bcrypt.DefaultCost] *)
Definition DefaultCost : Z := 10.

Definition setLastLogin (x : Time) (u : User2FA) : User2FA :=
  mkUser2FA (Username u) (PasswordHash u) (TotpSecret u) (BackupCodes u)
            (Is2FAEnabled u) (CreatedAt u) x.

(** The line a menu action printed last. *)
Inductive RegisterOutcome :=
| RegNoInput
| RegEmptyName
| RegExists
| RegShortPassword
| RegHashError
| RegOk.

(** [registerUser2FA]; [now] is the reading of [time.Now()] and [entropy]
    the salt of the hasher. *)
Definition registerUser2FA (now : Time) (entropy : Z) (s : State) (sc : Scanner)
  : RegisterOutcome * State * Scanner :=
  match Scan sc with
  | None => (RegNoInput, s, sc)
  | Some (line, sc1) =>
      let username := TrimSpace line in
      if String.eqb username EmptyString then (RegEmptyName, s, sc1)
      else
        match users (store (auth s)) !! username with
        | Some _ => (RegExists, s, sc1)
        | None =>
            let '(password, sc2) := readPasswordSimple sc1 in
            if Z.of_nat (String.length password) <? 6 then (RegShortPassword, s, sc2)
            else
              match GenerateFromPassword entropy password DefaultCost with
              | None => (RegHashError, s, sc2)
              | Some hashedPassword =>
                  let user :=
                    mkUser2FA username hashedPassword EmptyString [] false
                              now zeroTime in
                  let l := fresh (dom (heap s)) in
                  (RegOk,
                   mkState (<[l := user]> (heap s))
                           (mkAuth (mkStore (<[username := l]> (users (store (auth s)))))
                                   (codeLifetime (auth s)) (backupCodes (auth s))),
                   sc2)
              end
        end
  end.

Inductive LoginOutcome :=
| LoginNoInput
| LoginRejected (message : string)
| LoginWelcome
| LoginBadCode.

(** [loginUser2FA]; [nowVerify] is the clock reading inside
    [verifyTOTPCode], [nowLogin] the one stored in [LastLogin]. *)
Definition loginUser2FA (nowVerify nowLogin : Time) (s : State) (sc : Scanner)
  : option (LoginOutcome * State * Scanner) :=
  match Scan sc with
  | None => Some (LoginNoInput, s, sc)
  | Some (line, sc1) =>
      let username := TrimSpace line in
      let '(password, sc2) := readPasswordSimple sc1 in
      match authenticateFirstFactor s username password with
      | None => None
      | Some result =>
          if negb (Success result) then Some (LoginRejected (Message result), s, sc2)
          else
            match User result with
            | None => None
            | Some l =>
                match heap s !! l with
                | None => None
                | Some user =>
                    if negb (RequiresTOTP result)
                    then Some (LoginWelcome, write l (setLastLogin nowLogin user) s, sc2)
                    else
                      match Scan sc2 with
                      | None => Some (LoginNoInput, s, sc2)
                      | Some (line, sc3) =>
                          let code := TrimSpace line in
                          let '(ok, user) := verifySecondFactor nowVerify user code in
                          if ok
                          then Some (LoginWelcome,
                                     write l (setLastLogin nowLogin user) s, sc3)
                          else Some (LoginBadCode, write l user s, sc3)
                      end
                end
            end
      end
  end.

(** [disable2FA]; [now] is the clock reading inside [verifyTOTPCode]. *)
Definition disable2FA (now : Time) (s : State) (sc : Scanner)
  : option (State * Scanner) :=
  match authenticateUser s sc with
  | None => None
  | Some (None, sc1) => Some (s, sc1)
  | Some (Some l, sc1) =>
      match heap s !! l with
      | None => None
      | Some user =>
          if negb (Is2FAEnabled user) then Some (s, sc1)
          else
            match Scan sc1 with
            | None => Some (s, sc1)
            | Some (line, sc2) =>
                let code := TrimSpace line in
                let '(ok, user) := verifySecondFactor now user code in
                if ok
                then
                  let user := setIs2FAEnabled false user in
                  let user := setTotpSecret EmptyString user in
                  let user := setBackupCodes [] user in
                  Some (write l user s, sc2)
                else Some (write l user s, sc2)
            end
      end
  end.

(** [generateBackupCodes], the menu action that replaces the codes. *)
Definition generateBackupCodes (s : State) (sc : Scanner) (r : Rand)
  : option (State * Scanner * Rand) :=
  match authenticateUser s sc with
  | None => None
  | Some (None, sc1) => Some (s, sc1, r)
  | Some (Some l, sc1) =>
      match heap s !! l with
      | None => None
      | Some user =>
          if negb (Is2FAEnabled user) then Some (s, sc1, r)
          else
            let '(codes, r1) := generateBackupCodesList (backupCodes (auth s)) r in
            Some (write l (setBackupCodes codes user) s, sc1, r1)
      end
  end.

End Controller.

End TwoFA.

(** ** An environment to run the model on

    Trimming of ASCII blanks, and a stand-in for bcrypt that refuses
    passwords of more than 72 bytes, as the library does. *)

Module DemoEnv.

Definition isSpace (c : ascii) : bool :=
  let n := byte_of c in
  (n =? 32) || ((9 <=? n) && (n <=? 13)).

Fixpoint trimLeft (s : string) : string :=
  match s with
  | EmptyString => EmptyString
  | String c r => if isSpace c then trimLeft r else s
  end.

Fixpoint trimRight (s : string) : string :=
  match s with
  | EmptyString => EmptyString
  | String c r =>
      match trimRight r with
      | EmptyString => if isSpace c then EmptyString else String c EmptyString
      | r' => String c r'
      end
  end.

Definition generate (entropy : Z) (password : string) (cost : Z) : option string :=
  if (72 <? String.length password)%nat then None
  else Some ("$2a$" ++ Fmt.sprintf_d cost ++ "$" ++ Fmt.sprintf_d entropy
             ++ "$" ++ password)%string.

(** The password is what follows the third separator after the prefix. *)
Fixpoint afterDollars (n : nat) (s : string) : string :=
  match n with
  | O => s
  | S m =>
      match s with
      | EmptyString => EmptyString
      | String c r => if Ascii.eqb c "$" then afterDollars m r else afterDollars n r
      end
  end.

Definition compare (hash password : string) : bool :=
  String.eqb (afterDollars 4 hash) password.

#[export] Instance env : Env := {|
  TrimSpace := fun s => trimRight (trimLeft s);
  GenerateFromPassword := generate;
  CompareHashAndPassword := compare
|}.

End DemoEnv.

(** ** Predicates and sample data of the statements below *)

(** The TOTP branch of [verifySecondFactor] is not taken. *)
Definition totpSkipped (now : Time) (user : TwoFA.User2FA) (code : string) : Prop :=
  Nat.eqb (String.length code) 6
    && TOTP.verifyTOTPCode now (TwoFA.TotpSecret user) code = false.

Definition demo_user2fa (codes : list string) : TwoFA.User2FA :=
  TwoFA.mkUser2FA "alice" "$2a$12$7$Secret-Pass#2024" demo_secret codes true
                  demo_now zeroTime.


Definition demo_tape : TwoFA.Rand := TwoFA.mkRand (fun n => Z.of_nat n * 37 + 11) 0.

(** A store with one registered user whose second factor is off. *)
Definition demo_state2fa : TwoFA.State :=
  TwoFA.mkState
    {[ 1%positive :=
         TwoFA.mkUser2FA "alice" "$2a$12$7$Secret-Pass#2024" EmptyString [] false
                         demo_now zeroTime ]}
    (TwoFA.mkAuth (TwoFA.mkStore {[ "alice"%string := 1%positive ]}) 30 10).

(** A manager with one registered user, and the same after three wrong
    passwords. *)
Definition demo_registered : Auth.State :=
  snd (@Auth.RegisterUser DemoEnv.env demo_now 7 "alice" "Secret-Pass#2024"
         Auth.NewUserManager).

Definition demo_wrong_calls : list (Time * string) :=
  [(mkTime 1710919270 0, "guess-1"); (mkTime 1710919280 0, "guess-2");
   (mkTime 1710919290 0, "guess-3")]%string.

Definition demo_locked : Auth.State :=
  match @Auth.authenticateAll DemoEnv.env demo_wrong_calls "alice" demo_registered with
  | Some (_, s) => s
  | None => demo_registered
  end.

(** The registered user after one wrong password: unblocked, with one
    failure counted. *)
Definition demo_one_wrong : Auth.State :=
  match @Auth.AuthenticateUser DemoEnv.env (mkTime 1710919265 0) "alice" "guess-0"
          demo_registered with
  | Some (_, s) => s
  | None => demo_registered
  end.

(** A policy-compliant password of 76 bytes. *)
Definition demo_long_password : string :=
  "Ab1!Ab1!Ab1!Ab1!Ab1!Ab1!Ab1!Ab1!Ab1!Ab1!Ab1!Ab1!Ab1!Ab1!Ab1!Ab1!Ab1!Ab1!Ab1!".

(** What the lockout fields of a user satisfy under the threshold [max]. *)
Definition userInv (max : Z) (u : Auth.User) : Prop :=
  0 <= Auth.FailedAttempts u <= max /\
  (Auth.IsBlocked u = false -> Auth.FailedAttempts u < max) /\
  (Auth.IsBlocked u = true ->
     max <= Auth.FailedAttempts u /\ IsZero (Auth.BlockedAt u) = false).

(** The threshold is 3, every user object satisfies [userInv], and every
    name of the store points to an object that carries this name. *)
Definition stateInv (s : Auth.State) : Prop :=
  Auth.maxAttempts (Auth.um s) = 3 /\
  (forall l u, Auth.heap s !! l = Some u -> userInv 3 u) /\
  (forall k l, Auth.users (Auth.store (Auth.um s)) !! k = Some l ->
     exists u, Auth.heap s !! l = Some u /\ Auth.Username u = k).

(** Decimal digits. *)
Definition isDigit (c : ascii) : bool := (48 <=? byte_of c) && (byte_of c <=? 57).

Fixpoint allDigits (s : string) : bool :=
  match s with
  | EmptyString => true
  | String c r => isDigit c && allDigits r
  end.


(** ** The password generator *)

Fixpoint string_of_bytes (bs : list Z) : string :=
  match bs with
  | [] => EmptyString
  | b :: r => String (ascii_of_N (Z.to_N b)) (string_of_bytes r)
  end.

Module Generator.

(** [crypto/rand.Reader], draw by draw: what is behind each call of
    [rand.Int], a number or a read error. *)
Record Reader := mkReader { draws : nat -> option Z; next : nat }.

Inductive Error :=
| ErrLength
| ErrMinRequired (minRequired length : Z)
| ErrNoCharset
| ErrRandom
| ErrShuffle.

(** A call returns a value, returns an error, or does not return: it
    panics or the runtime gives up for want of memory. *)
Inductive Outcome (A : Type) :=
| Ok (a : A)
| Err (e : Error)
| Panic.
Arguments Ok {A} a.
Arguments Err {A} e.
Arguments Panic {A}.

Definition M (A : Type) : Type := Reader -> Outcome A * Reader.

Definition ret {A} (a : A) : M A := fun rd => (Ok a, rd).
Definition fail {A} (e : Error) : M A := fun rd => (Err e, rd).
Definition panic {A} : M A := fun rd => (Panic, rd).
Definition bind {A B} (m : M A) (f : A -> M B) : M B :=
  fun rd =>
    match m rd with
    | (Ok a, rd1) => f a rd1
    | (Err e, rd1) => (Err e, rd1)
    | (Panic, rd1) => (Panic, rd1)
    end.

Notation "x <- m ;; f" := (bind m (fun x => f))
  (at level 100, m at next level, right associativity).

(** [rand.Int(rand.Reader, max)]: a number in [0, max) or the error of the
    reader; it panics when [max <= 0], and for [max = 1] it returns 0, the
    only possible result, without reading. *)
Definition randInt (max : Z) : M (option Z) :=
  fun rd =>
    if max <=? 0 then (Panic, rd)
    else if max =? 1 then (Ok (Some 0), rd)
    else
      match draws rd (next rd) with
      | Some raw => (Ok (Some (raw mod max)), mkReader (draws rd) (S (next rd)))
      | None => (Ok None, mkReader (draws rd) (S (next rd)))
      end.

Fixpoint charsLoop (charsetRunes : list Z) (count : nat) : M (list Z) :=
  match count with
  | O => ret []
  | S m =>
      randomIndex <- randInt (Z.of_nat (length charsetRunes)) ;;
      match randomIndex with
      | None => fail ErrRandom
      | Some j =>
          match charsetRunes !! Z.to_nat j with
          | None => panic
          | Some c => rest <- charsLoop charsetRunes m ;; ret (c :: rest)
          end
      end
  end.

(** The machine the program runs on: the longest slice of runes its
    memory has room for. *)
Class Runtime := { freeRunes : Z }.

(** The runtime refuses a slice of more than [maxAlloc] bytes, 2^48 on
    amd64 and arm64; a rune takes four. *)
Definition maxRunes : Z := 2 ^ 46.

Section Alloc.
Context `{Runtime}.

(** The longest slice of runes that [make] returns. *)
Definition capacity : Z := Z.min freeRunes maxRunes.

(** [make([]rune, count)] comes first: it panics on a negative count and on
    one beyond [maxRunes], and does not return either when the memory is
    too short. *)
Definition generateCharsFromSet (charset : string) (count : Z) : M (list Z) :=
  if (count <? 0) || (capacity <? count) then panic
  else charsLoop (Utf8.runes charset) (Z.to_nat count).

(** The loop of [shuffleRunes], from index [i] down to 1. *)
Fixpoint shuffleLoop (i : nat) (runes : list Z) : M (list Z) :=
  match i with
  | O => ret runes
  | S i' =>
      randomIndex <- randInt (Z.of_nat i + 1) ;;
      match randomIndex with
      | None => fail ErrShuffle
      | Some j =>
          match runes !! i, runes !! Z.to_nat j with
          | Some x, Some y =>
              shuffleLoop i' (<[Z.to_nat j := x]> (<[i := y]> runes))
          | _, _ => panic
          end
      end
  end.

(** The slice is shuffled in place; the result is its content after the
    call. *)
Definition shuffleRunes (runes : list Z) : M (list Z) :=
  shuffleLoop (length runes - 1) runes.

Definition GeneratePassword (rules : Policy.PasswordRules) : M string :=
  if Policy.Length rules <? 4 then fail ErrLength
  else
    let minRequired :=
      GoInt.wrap64
        (GoInt.wrap64
           (GoInt.wrap64 (Policy.MinUppercase rules + Policy.MinLowercase rules)
            + Policy.MinDigits rules)
         + Policy.MinSpecial rules) in
    if Policy.Length rules <? minRequired
    then fail (ErrMinRequired minRequired (Policy.Length rules))
    else
      let password : list Z := [] in
      let remainingLength := Policy.Length rules in
      st <- (if Policy.RequireUppercase rules && (0 <? Policy.MinUppercase rules)
             then
               chars <- generateCharsFromSet Policy.uppercaseLetters
                          (Policy.MinUppercase rules) ;;
               ret (password ++ chars,
                    GoInt.wrap64 (remainingLength - Policy.MinUppercase rules))
             else ret (password, remainingLength)) ;;
      let '(password, remainingLength) := st in
      st <- (if Policy.RequireLowercase rules && (0 <? Policy.MinLowercase rules)
             then
               chars <- generateCharsFromSet Policy.lowercaseLetters
                          (Policy.MinLowercase rules) ;;
               ret (password ++ chars,
                    GoInt.wrap64 (remainingLength - Policy.MinLowercase rules))
             else ret (password, remainingLength)) ;;
      let '(password, remainingLength) := st in
      st <- (if Policy.RequireDigits rules && (0 <? Policy.MinDigits rules)
             then
               chars <- generateCharsFromSet Policy.digits
                          (Policy.MinDigits rules) ;;
               ret (password ++ chars,
                    GoInt.wrap64 (remainingLength - Policy.MinDigits rules))
             else ret (password, remainingLength)) ;;
      let '(password, remainingLength) := st in
      st <- (if Policy.RequireSpecial rules && (0 <? Policy.MinSpecial rules)
             then
               chars <- generateCharsFromSet Policy.specialChars
                          (Policy.MinSpecial rules) ;;
               ret (password ++ chars,
                    GoInt.wrap64 (remainingLength - Policy.MinSpecial rules))
             else ret (password, remainingLength)) ;;
      let '(password, remainingLength) := st in
      password <-
        (if 0 <? remainingLength then
           let allChars := EmptyString in
           let allChars :=
             if Policy.RequireUppercase rules
             then (allChars ++ Policy.uppercaseLetters)%string else allChars in
           let allChars :=
             if Policy.RequireLowercase rules
             then (allChars ++ Policy.lowercaseLetters)%string else allChars in
           let allChars :=
             if Policy.RequireDigits rules
             then (allChars ++ Policy.digits)%string else allChars in
           let allChars :=
             if Policy.RequireSpecial rules
             then (allChars ++ Policy.specialChars)%string else allChars in
           if String.eqb allChars EmptyString then fail ErrNoCharset
           else
             chars <- generateCharsFromSet allChars remainingLength ;;
             ret (password ++ chars)
         else ret password) ;;
      password <- shuffleRunes password ;;
      ret (string_of_bytes (Utf8.encode password)).

Definition GenerateSecurePassword (length : Z) : M string :=
  let length := if length <? 12 then 12 else length in
  GeneratePassword (Policy.mkRules length true true true true 2 2 2 2).

End Alloc.

(** The reader delivers its next [n] draws without an error. *)
Definition readable (rd : Reader) (n : nat) : Prop :=
  forall k, (k < n)%nat -> draws rd (next rd + k) <> None.

Definition advance (rd : Reader) (n : nat) : Reader :=
  mkReader (draws rd) (next rd + n).

End Generator.

(** A machine with room for 2^30 runes. *)
Module DemoMachine.

#[export] Instance runtime : Generator.Runtime := {| Generator.freeRunes := 2 ^ 30 |}.

End DemoMachine.

(** A reader without errors, and one that fails at its sixth draw. *)
Definition demo_reader : Generator.Reader :=
  Generator.mkReader (fun n => Some (Z.of_nat n * 7919 + 13)) 0.

Definition demo_broken_reader : Generator.Reader :=
  Generator.mkReader
    (fun n => if (n =? 5)%nat then None else Some (Z.of_nat n * 7919 + 13)) 0.

Definition inNoClass (char : Z) : bool :=
  negb (Utf8.ContainsRune Policy.uppercaseLetters char
        || Utf8.ContainsRune Policy.lowercaseLetters char
        || Utf8.ContainsRune Policy.digits char
        || Utf8.ContainsRune Policy.specialChars char).

(** What a call of the generator did with the reader: a value [P] after
    [n] draws, an error [E] because one of the [n] draws failed, or no
    return, which takes [X]. *)
Definition ran {A} (P : A -> Prop) (E : Generator.Error -> Prop) (X : Prop) (n : nat)
    (rd : Generator.Reader) (r : Generator.Outcome A * Generator.Reader) : Prop :=
  match r with
  | (Generator.Ok a, rd') =>
      P a /\ rd' = Generator.advance rd n /\ Generator.readable rd n
  | (Generator.Err e, _) => E e /\ ~ Generator.readable rd n
  | (Generator.Panic, _) => X
  end.

Definition need (require : bool) (min : Z) : nat :=
  if require && (0 <? min) then Z.to_nat min else 0%nat.

Definition inRequired (rules : Policy.PasswordRules) (char : Z) : bool :=
  (Policy.RequireUppercase rules && Utf8.ContainsRune Policy.uppercaseLetters char)
  || (Policy.RequireLowercase rules && Utf8.ContainsRune Policy.lowercaseLetters char)
  || (Policy.RequireDigits rules && Utf8.ContainsRune Policy.digits char)
  || (Policy.RequireSpecial rules && Utf8.ContainsRune Policy.specialChars char).

(** What [GeneratePassword] returns for [rules]. *)
Definition generated (rules : Policy.PasswordRules) (password : string) : Prop :=
  exists rs,
    password = string_of_bytes (Utf8.encode rs) /\
    Z.of_nat (length rs) = Policy.Length rules /\
    Forall (fun c => inRequired rules c = true) rs /\
    (Policy.RequireUppercase rules = true ->
       Policy.MinUppercase rules <= countIn Policy.uppercaseLetters rs) /\
    (Policy.RequireLowercase rules = true ->
       Policy.MinLowercase rules <= countIn Policy.lowercaseLetters rs) /\
    (Policy.RequireDigits rules = true ->
       Policy.MinDigits rules <= countIn Policy.digits rs) /\
    (Policy.RequireSpecial rules = true ->
       Policy.MinSpecial rules <= countIn Policy.specialChars rs).

(** Rules the generator can serve: a length in the range of [int],
    minimums that are not negative and whose sum does not overflow. *)
Definition sane (rules : Policy.PasswordRules) : Prop :=
  Policy.Length rules < 2 ^ 63 /\
  0 <= Policy.MinUppercase rules /\ 0 <= Policy.MinLowercase rules /\
  0 <= Policy.MinDigits rules /\ 0 <= Policy.MinSpecial rules /\
  Policy.MinUppercase rules + Policy.MinLowercase rules
  + Policy.MinDigits rules + Policy.MinSpecial rules < 2 ^ 63.

(** The errors that come from the reader. *)
Definition genErr (e : Generator.Error) : Prop :=
  e = Generator.ErrRandom \/ e = Generator.ErrShuffle.

(** ** Predicates of the statements on the two-factor menu *)


Section FirstFactor.
Context `{Env}.

(** The two lines typed at the prompts log the user at [l] in. *)
Definition firstFactor (s : TwoFA.State) (nameLine pwLine : string)
    (l : TwoFA.loc) (user : TwoFA.User2FA) : Prop :=
  TwoFA.users (TwoFA.store (TwoFA.auth s)) !! TrimSpace nameLine = Some l /\
  TwoFA.heap s !! l = Some user /\
  CompareHashAndPassword (TwoFA.PasswordHash user) (TrimSpace pwLine) = true.

End FirstFactor.

(** Two users registered in the two-factor demo, the second one with the
    second factor on. *)
Definition demo_codes : list string :=
  fst (TwoFA.generateBackupCodesList 10 demo_tape).

Definition demo_state2fa_on : TwoFA.State :=
  TwoFA.mkState
    {[ 1%positive :=
         TwoFA.mkUser2FA "alice" "$2a$10$7$Secret-Pass#2024" demo_secret demo_codes
                         true demo_now zeroTime ]}
    (TwoFA.mkAuth (TwoFA.mkStore {[ "alice"%string := 1%positive ]}) 30 10).
(** * Properties *)

(** ** Test vectors *)

Example sha256_constants :
  nth 0 SHA256.K 0 = 0x428a2f98 /\ nth 63 SHA256.K 0 = 0xc67178f2 /\
  nth 0 SHA256.H0 0 = 0x6a09e667 /\ nth 7 SHA256.H0 0 = 0x5be0cd19.
Proof. repeat split. Qed.

Example sha256_abc :
  hex_of (SHA256.sum (bytes_of "abc")) =
  0xba7816bf8f01cfea414140de5dae2223b00361a396177a9cb410ff61f20015ad.
Proof. vm_compute. reflexivity. Qed.

Example sha256_two_blocks :
  hex_of (SHA256.sum (bytes_of
    "abcdbcdecdefdefgefghfghighijhijkijkljklmklmnlmnomnopnopq")) =
  0x248d6a61d20638b8e5c026930c3e6039a33ce45964ff2167f6ecedd419db06c1.
Proof. vm_compute. reflexivity. Qed.

Lemma sum_length msg : length (SHA256.sum msg) = 32%nat.
Proof.
  unfold SHA256.sum.
  assert (Hb : forall fuel h ws, length h = 8%nat ->
                length (SHA256.blocks fuel h ws) = 8%nat).
  { induction fuel as [|f IH]; intros h ws Hh; simpl; [exact Hh|].
    destruct ws; [exact Hh|]. apply IH. reflexivity. }
  specialize (Hb (length (SHA256.words_of (SHA256.pad msg))) SHA256.H0
                 (SHA256.words_of (SHA256.pad msg)) eq_refl).
  destruct (SHA256.blocks _ _ _) as [|a [|b [|c [|d [|e [|f [|g [|h [|]]]]]]]]];
    simpl in Hb; try discriminate.
  reflexivity.
Qed.

Lemma be_bytes_range n x b : In b (SHA256.be_bytes n x) -> 0 <= b < 256.
Proof.
  induction n as [|n IH]; simpl; [tauto|].
  intros [<-|H]; [apply Z.mod_pos_bound; lia | auto].
Qed.

Lemma sum_byte_range msg b : In b (SHA256.sum msg) -> 0 <= b < 256.
Proof.
  unfold SHA256.sum. rewrite in_flat_map. intros (w & _ & H).
  eapply be_bytes_range; eassumption.
Qed.

Example sprintf_d_neg : Fmt.sprintf_d (-1) = "-1"%string.
Proof. reflexivity. Qed.
Example sprintf_d_big : Fmt.sprintf_d 57030642 = "57030642"%string.
Proof. reflexivity. Qed.
Example sprintf_06d_small : Fmt.sprintf_06d 4711 = "004711"%string.
Proof. reflexivity. Qed.
Example sprintf_06d_zero : Fmt.sprintf_06d 0 = "000000"%string.
Proof. reflexivity. Qed.
Example sprintf_06d_neg : Fmt.sprintf_06d (-42) = "-00042"%string.
Proof. reflexivity. Qed.

Example totp_demo_code :
  TOTP.generateTOTPCode demo_secret (mkTime 1710919260 0) = "368709"%string.
Proof. vm_compute. reflexivity. Qed.

(** ** Go integers *)

Lemma wrap64_id z : - 2 ^ 63 <= z < 2 ^ 63 -> GoInt.wrap64 z = z.
Proof.
  intros Hz. unfold GoInt.wrap64.
  rewrite Z.mod_small by lia. lia.
Qed.

Lemma wrap64_range z : - 2 ^ 63 <= GoInt.wrap64 z < 2 ^ 63.
Proof.
  unfold GoInt.wrap64.
  pose proof (Z.mod_pos_bound (z + 2 ^ 63) (2 ^ 64) ltac:(lia)). lia.
Qed.

Lemma incr_small z : 0 <= z -> z + 1 < 2 ^ 63 -> GoInt.incr z = z + 1.
Proof. intros H0 H1. unfold GoInt.incr. apply wrap64_id. lia. Qed.

(** ** Password rules *)

Example runes_ascii : Utf8.runes "aZ9!" = [97; 90; 57; 33].
Proof. reflexivity. Qed.

Example runes_cyrillic : Utf8.runes "пя" = [0x43F; 0x44F].
Proof. reflexivity. Qed.

Example validate_weak :
  Policy.ValidatePassword "abc" Policy.DefaultPasswordRules =
  (false, [Policy.msgLength 12; Policy.msgUppercase 2;
           Policy.msgDigits 2; Policy.msgSpecial 2]).
Proof. vm_compute. reflexivity. Qed.

Example validate_good :
  Policy.ValidatePassword "Tr0ub4dor&3-XY" Policy.DefaultPasswordRules = (true, []).
Proof. vm_compute. reflexivity. Qed.

Lemma appendIf_filter (cond : bool) (msg : string) (errors : list string) :
  Policy.appendIf cond msg errors = errors ++ (if cond then [msg] else []).
Proof. destruct cond; simpl; [reflexivity | now rewrite app_nil_r]. Qed.

(** *** What the counters count *)

Lemma ContainsRune_In charset r :
  Utf8.ContainsRune charset r = true <-> In r (Utf8.runes charset).
Proof.
  unfold Utf8.ContainsRune. rewrite existsb_exists. split.
  - intros (x & Hin & Heq). apply Z.eqb_eq in Heq. subst x. exact Hin.
  - intros Hin. exists r. split; [exact Hin | apply Z.eqb_refl].
Qed.

Ltac in_cases H :=
  apply ContainsRune_In in H; vm_compute in H;
  repeat (destruct H as [H|H]; [subst; lia|]); destruct H.

Lemma uppercase_range r :
  Utf8.ContainsRune Policy.uppercaseLetters r = true -> 65 <= r <= 90.
Proof. intros Hc. in_cases Hc. Qed.

Lemma lowercase_range r :
  Utf8.ContainsRune Policy.lowercaseLetters r = true -> 97 <= r <= 122.
Proof. intros Hc. in_cases Hc. Qed.

Lemma digits_range r :
  Utf8.ContainsRune Policy.digits r = true -> 48 <= r <= 57.
Proof. intros Hc. in_cases Hc. Qed.

Lemma special_range r :
  Utf8.ContainsRune Policy.specialChars r = true ->
  33 <= r <= 47 \/ 58 <= r <= 64 \/ 91 <= r <= 96 \/ 123 <= r <= 126.
Proof. intros Hc. in_cases Hc. Qed.

(** One step of the counting loop, counter by counter: the classes being
    disjoint, the order of the [case]s plays no part. *)
Lemma count_step_fields c char :
  Policy.uppercaseCount (Policy.count_step c char)
    = (if Utf8.ContainsRune Policy.uppercaseLetters char
       then GoInt.incr (Policy.uppercaseCount c) else Policy.uppercaseCount c) /\
  Policy.lowercaseCount (Policy.count_step c char)
    = (if Utf8.ContainsRune Policy.lowercaseLetters char
       then GoInt.incr (Policy.lowercaseCount c) else Policy.lowercaseCount c) /\
  Policy.digitCount (Policy.count_step c char)
    = (if Utf8.ContainsRune Policy.digits char
       then GoInt.incr (Policy.digitCount c) else Policy.digitCount c) /\
  Policy.specialCount (Policy.count_step c char)
    = (if Utf8.ContainsRune Policy.specialChars char
       then GoInt.incr (Policy.specialCount c) else Policy.specialCount c).
Proof.
  unfold Policy.count_step.
  destruct (Utf8.ContainsRune Policy.uppercaseLetters char) eqn:Hu;
    destruct (Utf8.ContainsRune Policy.lowercaseLetters char) eqn:Hl;
    destruct (Utf8.ContainsRune Policy.digits char) eqn:Hd;
    destruct (Utf8.ContainsRune Policy.specialChars char) eqn:Hs;
    cbn [Policy.uppercaseCount Policy.lowercaseCount Policy.digitCount
         Policy.specialCount];
    try (repeat split; reflexivity);
    exfalso;
    try apply uppercase_range in Hu; try apply lowercase_range in Hl;
    try apply digits_range in Hd; try apply special_range in Hs; lia.
Qed.

Lemma countIn_cons charset r rs :
  countIn charset (r :: rs)
  = (if Utf8.ContainsRune charset r then 1 else 0) + countIn charset rs.
Proof.
  unfold countIn. cbn [List.filter].
  destruct (Utf8.ContainsRune charset r); cbn [length]; lia.
Qed.

Lemma countIn_range charset rs : 0 <= countIn charset rs <= Z.of_nat (length rs).
Proof.
  induction rs as [|r rs IH]; [unfold countIn; simpl; lia|].
  rewrite countIn_cons. cbn [length].
  destruct (Utf8.ContainsRune charset r); lia.
Qed.

Lemma fold_left_step {A B} (f : A -> B -> A) (x : B) (l : list B) (a : A) :
  fold_left f (x :: l) a = fold_left f l (f a x).
Proof. reflexivity. Qed.

Lemma fold_count_step rs : forall c,
  0 <= Policy.uppercaseCount c -> 0 <= Policy.lowercaseCount c ->
  0 <= Policy.digitCount c -> 0 <= Policy.specialCount c ->
  Policy.uppercaseCount c + Z.of_nat (length rs) < 2 ^ 63 ->
  Policy.lowercaseCount c + Z.of_nat (length rs) < 2 ^ 63 ->
  Policy.digitCount c + Z.of_nat (length rs) < 2 ^ 63 ->
  Policy.specialCount c + Z.of_nat (length rs) < 2 ^ 63 ->
  Policy.uppercaseCount (fold_left Policy.count_step rs c)
    = Policy.uppercaseCount c + countIn Policy.uppercaseLetters rs /\
  Policy.lowercaseCount (fold_left Policy.count_step rs c)
    = Policy.lowercaseCount c + countIn Policy.lowercaseLetters rs /\
  Policy.digitCount (fold_left Policy.count_step rs c)
    = Policy.digitCount c + countIn Policy.digits rs /\
  Policy.specialCount (fold_left Policy.count_step rs c)
    = Policy.specialCount c + countIn Policy.specialChars rs.
Proof.
  induction rs as [|r rs IH]; intros c Hu Hl Hd Hs Bu Bl Bd Bs.
  - unfold countIn. simpl. lia.
  - rewrite fold_left_step. cbn [length] in Bu, Bl, Bd, Bs.
    rewrite Nat2Z.inj_succ in Bu, Bl, Bd, Bs.
    destruct (count_step_fields c r) as (Eu & El & Ed & Es).
    rewrite !countIn_cons.
    assert (Su : forall (b : bool) z, 0 <= z -> z + 1 < 2 ^ 63 ->
              (if b then GoInt.incr z else z) = z + (if b then 1 else 0)).
    { intros [|] z H0 H1; [apply incr_small; assumption | lia]. }
    rewrite Su in Eu, El, Ed, Es by lia.
    specialize (IH (Policy.count_step c r)).
    set (c1 := Policy.count_step c r) in *. clearbody c1.
    assert (Rb : forall b : bool, 0 <= (if b then 1 else 0) <= 1)
      by (intros [|]; lia).
    pose proof (Rb (Utf8.ContainsRune Policy.uppercaseLetters r)).
    pose proof (Rb (Utf8.ContainsRune Policy.lowercaseLetters r)).
    pose proof (Rb (Utf8.ContainsRune Policy.digits r)).
    pose proof (Rb (Utf8.ContainsRune Policy.specialChars r)).
    destruct IH as (Iu & Il & Id & Is); lia.
Qed.

(** Ranging over a string yields at most one rune per byte. *)
Lemma decode_length_le : forall n bs,
  (length bs <= n)%nat -> (length (Utf8.decode bs) <= length bs)%nat.
Proof.
  induction n as [|n IH]; intros bs Hn.
  - destruct bs; [simpl; lia | simpl in Hn; lia].
  - destruct bs as [|b0 r0]; [simpl; lia|].
    cbn [length] in Hn.
    assert (H0 : (length (Utf8.decode r0) <= length r0)%nat) by (apply IH; lia).
    cbn [Utf8.decode].
    destruct (b0 <? 128); [cbn [length]; lia|].
    destruct ((b0 <? 194) || (244 <? b0)); [cbn [length]; lia|].
    destruct r0 as [|b1 r1]; [cbn [length] in *; lia|].
    cbn [length] in Hn, H0.
    assert (H1 : (length (Utf8.decode r1) <= length r1)%nat) by (apply IH; lia).
    destruct (negb (Utf8.accept b0 b1)); [cbn [length] in *; lia|].
    destruct (b0 <? 224); [cbn [length] in *; lia|].
    destruct r1 as [|b2 r2]; [cbn [length] in *; lia|].
    cbn [length] in Hn, H1.
    assert (H2 : (length (Utf8.decode r2) <= length r2)%nat) by (apply IH; lia).
    destruct (negb (Utf8.is_cont b2)); [cbn [length] in *; lia|].
    destruct (b0 <? 240); [cbn [length] in *; lia|].
    destruct r2 as [|b3 r3]; [cbn [length] in *; lia|].
    cbn [length] in Hn, H2.
    assert (H3 : (length (Utf8.decode r3) <= length r3)%nat) by (apply IH; lia).
    destruct (negb (Utf8.is_cont b3)); cbn [length] in *; lia.
Qed.

Lemma bytes_of_length s : length (bytes_of s) = String.length s.
Proof. induction s as [|c s IH]; [reflexivity|]. cbn. f_equal. exact IH. Qed.

Lemma runes_length_le s : (length (Utf8.runes s) <= String.length s)%nat.
Proof.
  unfold Utf8.runes. rewrite <- bytes_of_length.
  apply (decode_length_le _ _ (le_n _)).
Qed.

(** The counters of the loop are the numbers of runes in each list. *)
Lemma classCounts_countIn (password : string) :
  Z.of_nat (length (Utf8.runes password)) < 2 ^ 63 ->
  Policy.uppercaseCount (Policy.classCounts password)
    = countIn Policy.uppercaseLetters (Utf8.runes password) /\
  Policy.lowercaseCount (Policy.classCounts password)
    = countIn Policy.lowercaseLetters (Utf8.runes password) /\
  Policy.digitCount (Policy.classCounts password)
    = countIn Policy.digits (Utf8.runes password) /\
  Policy.specialCount (Policy.classCounts password)
    = countIn Policy.specialChars (Utf8.runes password).
Proof.
  intros Hlen. unfold Policy.classCounts.
  destruct (fold_count_step (Utf8.runes password) (Policy.mkCounts 0 0 0 0))
    as (Eu & El & Ed & Es);
    try (cbn [Policy.uppercaseCount Policy.lowercaseCount Policy.digitCount
              Policy.specialCount]; lia).
  cbn [Policy.uppercaseCount Policy.lowercaseCount Policy.digitCount
       Policy.specialCount] in Eu, El, Ed, Es.
  rewrite Eu, El, Ed, Es. repeat split; lia.
Qed.

(** C9.  [ValidatePassword] checks the length and the four character
    classes, all five, and returns the messages of all the violated
    requirements in the order length, uppercase, lowercase, digits, special;
    no check is skipped after an earlier one has failed.  The flag is true
    exactly when the list is empty, that is when no requirement is
    violated.  A requirement is violated when the password is shorter in
    bytes than [Length], or when a required class has fewer of its
    characters in the password than its minimum; the length of the
    password fits an [int], as that of every Go string does. *)
Theorem ValidatePassword_reports_all (password : string) (rules : Policy.PasswordRules) :
  Z.of_nat (String.length password) < 2 ^ 63 ->
  snd (Policy.ValidatePassword password rules)
    = map (Policy.message rules)
          (List.filter (Policy.violated password rules) Policy.allRequirements) /\
  (fst (Policy.ValidatePassword password rules) = true <->
     snd (Policy.ValidatePassword password rules) = []) /\
  (fst (Policy.ValidatePassword password rules) = true <->
     forall r, Policy.violated password rules r = false) /\
  (forall r, Policy.violated password rules r = true ->
     In (Policy.message rules r) (snd (Policy.ValidatePassword password rules))).
Proof.
  intros Hbytes.
  assert (Hrunes : Z.of_nat (length (Utf8.runes password)) < 2 ^ 63).
  { pose proof (runes_length_le password). lia. }
  destruct (classCounts_countIn password Hrunes) as (Eu & El & Ed & Es).
  assert (Hlist : snd (Policy.ValidatePassword password rules)
    = map (Policy.message rules)
          (List.filter (Policy.violated password rules) Policy.allRequirements)).
  { unfold Policy.ValidatePassword, Policy.allRequirements, Policy.violated.
    cbv zeta. rewrite Eu, El, Ed, Es. cbn [snd List.filter].
    rewrite !appendIf_filter. cbn [app].
    destruct (_ <? Policy.Length rules);
      destruct (Policy.RequireUppercase rules && _);
      destruct (Policy.RequireLowercase rules && _);
      destruct (Policy.RequireDigits rules && _);
      destruct (Policy.RequireSpecial rules && _); reflexivity. }
  assert (Hflag : fst (Policy.ValidatePassword password rules) = true <->
                  snd (Policy.ValidatePassword password rules) = []).
  { unfold Policy.ValidatePassword. cbn [fst snd].
    destruct (Policy.appendIf _ _ _) as [|e es]; simpl; split;
      intros Heq; try reflexivity; discriminate Heq. }
  split; [exact Hlist|]. split; [exact Hflag|]. split.
  - rewrite Hflag, Hlist. split.
    + intros Hnil r.
      destruct (Policy.violated password rules r) eqn:Hv; [|reflexivity].
      exfalso.
      assert (Hin : In r (List.filter (Policy.violated password rules)
                                      Policy.allRequirements)).
      { apply filter_In. split; [|exact Hv].
        destruct r; simpl; auto 6. }
      apply (in_map (Policy.message rules)) in Hin. rewrite Hnil in Hin. exact Hin.
    + intros Hall.
      unfold Policy.allRequirements. cbn [List.filter].
      rewrite !Hall. reflexivity.
  - intros r Hv. rewrite Hlist. apply in_map. apply filter_In.
    split; [destruct r; simpl; auto 6 | exact Hv].
Qed.

Lemma ValidatePassword_reports_all_witness :
  Policy.violated "abc" Policy.DefaultPasswordRules Policy.ReqDigits = true /\
  In (Policy.message Policy.DefaultPasswordRules Policy.ReqDigits)
     (snd (Policy.ValidatePassword "abc" Policy.DefaultPasswordRules)).
Proof.
  assert (Hv : Policy.violated "abc" Policy.DefaultPasswordRules Policy.ReqDigits = true)
    by (vm_compute; reflexivity).
  split; [exact Hv|].
  refine (proj2 (proj2 (proj2 (ValidatePassword_reports_all "abc"
                                 Policy.DefaultPasswordRules _)))
                Policy.ReqDigits Hv).
  apply Z.ltb_lt. vm_compute. reflexivity.
Defined.

(** From here on the digest is only evaluated by [vm_compute]. *)
#[local] Opaque SHA256.sum.

(** ** The clock and the counter *)

Lemma Unix_range t : - 2 ^ 63 <= Unix t < 2 ^ 63.
Proof. apply wrap64_range. Qed.

Lemma div30_no_wrap a : - 2 ^ 63 <= a < 2 ^ 63 -> GoInt.div a 30 = Z.quot a 30.
Proof.
  intros Ha. unfold GoInt.div. apply wrap64_id.
  destruct (Z.le_gt_cases 0 a) as [Hpos|Hneg].
  - pose proof (Z.quot_pos a 30 Hpos ltac:(lia)).
    pose proof (Z.quot_le_upper_bound a 30 a ltac:(lia) ltac:(lia)). lia.
  - assert (Hq : Z.quot a 30 = - Z.quot (- a) 30).
    { rewrite Z.quot_opp_l by lia. lia. }
    pose proof (Z.quot_pos (- a) 30 ltac:(lia) ltac:(lia)).
    pose proof (Z.quot_le_upper_bound (- a) 30 (- a) ltac:(lia) ltac:(lia)). lia.
Qed.

(** Shifting a small value by a byte and or-ing a byte in is positional
    notation in base 256. *)
Lemma shl_lor_byte code b :
  0 <= code < 2 ^ 32 -> 0 <= b < 256 ->
  Z.lor (GoInt.shl code 8) b = code * 256 + b.
Proof.
  intros Hc Hb. unfold GoInt.shl.
  rewrite Z.shiftl_mul_pow2 by lia.
  rewrite wrap64_id by lia.
  change (2 ^ 8) with 256.
  rewrite <- Z.lxor_lor.
  - symmetry. apply Z.add_nocarry_lxor.
    apply Z.bits_inj'. intros n Hn.
    rewrite Z.land_spec, Z.bits_0.
    destruct (Z.lt_ge_cases n 8) as [Hlt|Hge].
    + replace (code * 256) with (code * 2 ^ 8) by lia.
      rewrite Z.mul_pow2_bits_low by lia. reflexivity.
    + assert (Hbit : Z.testbit b n = false).
      { destruct (Z.eq_dec b 0) as [->|Hnz]; [apply Z.bits_0|].
        apply Z.bits_above_log2; [lia|].
        assert (Z.log2 b < 8); [|lia].
        apply Z.log2_lt_pow2; lia. }
      rewrite Hbit. apply andb_false_r.
  - apply Z.bits_inj'. intros n Hn.
    rewrite Z.land_spec, Z.bits_0.
    destruct (Z.lt_ge_cases n 8) as [Hlt|Hge].
    + replace (code * 256) with (code * 2 ^ 8) by lia.
      rewrite Z.mul_pow2_bits_low by lia. reflexivity.
    + assert (Hbit : Z.testbit b n = false).
      { destruct (Z.eq_dec b 0) as [->|Hnz]; [apply Z.bits_0|].
        apply Z.bits_above_log2; [lia|].
        assert (Z.log2 b < 8); [|lia].
        apply Z.log2_lt_pow2; lia. }
      rewrite Hbit. apply andb_false_r.
Qed.

(** ** Formatting *)

Lemma digit_char_isDigit d : 0 <= d < 10 -> isDigit (Fmt.digit_char d) = true.
Proof.
  intros Hd.
  assert (Hcases : d = 0 \/ d = 1 \/ d = 2 \/ d = 3 \/ d = 4 \/
                   d = 5 \/ d = 6 \/ d = 7 \/ d = 8 \/ d = 9) by lia.
  repeat (destruct Hcases as [->|Hcases]; [reflexivity|]).
  subst d. reflexivity.
Qed.

Lemma digits_go_length k : forall fuel n acc,
  (1 <= k <= fuel)%nat -> 0 <= n < 10 ^ Z.of_nat k ->
  (String.length acc < String.length (Fmt.digits_go fuel n acc)
     <= k + String.length acc)%nat.
Proof.
  induction k as [|k IH]; intros fuel n acc Hk Hn; [lia|].
  destruct fuel as [|fuel]; [lia|]. simpl.
  destruct (Z.eqb_spec (n / 10) 0) as [Hz|Hnz]; simpl; [lia|].
  assert (Hk1 : (1 <= k)%nat).
  { destruct k; [|lia]. exfalso. apply Hnz.
    apply Z.div_small. change (10 ^ Z.of_nat 1) with 10 in Hn. lia. }
  specialize (IH fuel (n / 10) (String (Fmt.digit_char (n mod 10)) acc)).
  simpl in IH.
  assert (Hdiv : 0 <= n / 10 < 10 ^ Z.of_nat k).
  { split; [apply Z.div_pos; lia|].
    apply Z.div_lt_upper_bound; [lia|].
    replace (Z.of_nat (S k)) with (Z.succ (Z.of_nat k)) in Hn by lia.
    rewrite Z.pow_succ_r in Hn by lia. lia. }
  specialize (IH ltac:(lia) Hdiv). lia.
Qed.

Lemma digits_go_allDigits fuel : forall n acc,
  0 <= n -> allDigits acc = true -> allDigits (Fmt.digits_go fuel n acc) = true.
Proof.
  induction fuel as [|fuel IH]; intros n acc Hn Hacc; simpl; [exact Hacc|].
  assert (Hd : allDigits (String (Fmt.digit_char (n mod 10)) acc) = true).
  { simpl. rewrite Hacc, digit_char_isDigit; [reflexivity|].
    apply Z.mod_pos_bound. lia. }
  destruct (n / 10 =? 0); [exact Hd|].
  apply IH; [apply Z.div_pos; lia | exact Hd].
Qed.

Lemma length_append_string (a b : string) :
  String.length (a ++ b) = (String.length a + String.length b)%nat.
Proof. induction a as [|c a IH]; simpl; [reflexivity | now rewrite IH]. Qed.

Lemma zeros_length n : String.length (Fmt.zeros n) = n.
Proof. induction n as [|n IH]; simpl; [reflexivity | now rewrite IH]. Qed.

Lemma allDigits_append a b :
  allDigits (a ++ b) = allDigits a && allDigits b.
Proof.
  induction a as [|c a IH]; simpl; [reflexivity|].
  rewrite IH. apply andb_assoc.
Qed.

Lemma zeros_allDigits n : allDigits (Fmt.zeros n) = true.
Proof. induction n as [|n IH]; simpl; [reflexivity | exact IH]. Qed.

Lemma sprintf_06d_nonneg n :
  0 <= n -> Fmt.sprintf_06d n = TOTP.pad_left_zeros 6 (Fmt.utoa n).
Proof.
  intros Hn. unfold Fmt.sprintf_06d, TOTP.pad_left_zeros.
  destruct (Z.ltb_spec n 0); [lia|].
  now rewrite Z.abs_eq by lia.
Qed.

Lemma pad6_shape n :
  0 <= n < 1000000 ->
  String.length (TOTP.pad_left_zeros 6 (Fmt.utoa n)) = 6%nat /\
  allDigits (TOTP.pad_left_zeros 6 (Fmt.utoa n)) = true.
Proof.
  intros Hn. unfold TOTP.pad_left_zeros, Fmt.utoa.
  pose proof (digits_go_length 6 20 n EmptyString ltac:(lia) ltac:(simpl; lia)) as Hl.
  change (String.length EmptyString) with 0%nat in Hl.
  rewrite length_append_string, zeros_length, allDigits_append, zeros_allDigits.
  split; [lia|].
  rewrite (digits_go_allDigits 20 n EmptyString); [reflexivity | lia | reflexivity].
Qed.

(** ** The TOTP derivation *)

Lemma nth_sum_range msg i : 0 <= nth i (SHA256.sum msg) 0 < 256.
Proof.
  destruct (Nat.lt_ge_cases i (length (SHA256.sum msg))) as [Hlt|Hge].
  - apply (sum_byte_range msg). apply nth_In. exact Hlt.
  - rewrite nth_overflow by exact Hge. lia.
Qed.

Lemma code_loop_be_uint32 msg :
  TOTP.code_loop (SHA256.sum msg) = TOTP.be_uint32 (SHA256.sum msg).
Proof.
  unfold TOTP.code_loop, TOTP.be_uint32. simpl fold_left.
  pose proof (nth_sum_range msg 0) as H0.
  pose proof (nth_sum_range msg 1) as H1.
  pose proof (nth_sum_range msg 2) as H2.
  pose proof (nth_sum_range msg 3) as H3.
  set (b0 := nth 0 (SHA256.sum msg) 0) in *.
  set (b1 := nth 1 (SHA256.sum msg) 0) in *.
  set (b2 := nth 2 (SHA256.sum msg) 0) in *.
  set (b3 := nth 3 (SHA256.sum msg) 0) in *.
  rewrite (shl_lor_byte 0 b0) by lia.
  rewrite (shl_lor_byte (0 * 256 + b0) b1) by lia.
  rewrite (shl_lor_byte ((0 * 256 + b0) * 256 + b1) b2) by lia.
  rewrite (shl_lor_byte (((0 * 256 + b0) * 256 + b1) * 256 + b2) b3) by lia.
  lia.
Qed.

Lemma be_uint32_range msg : 0 <= TOTP.be_uint32 (SHA256.sum msg) < 2 ^ 32.
Proof.
  unfold TOTP.be_uint32.
  pose proof (nth_sum_range msg 0). pose proof (nth_sum_range msg 1).
  pose proof (nth_sum_range msg 2). pose proof (nth_sum_range msg 3).
  lia.
Qed.

Lemma generateTOTPCode_counter secret t :
  TOTP.generateTOTPCode secret t =
  TOTP.derive_from_counter secret (Z.quot (Unix t) 30).
Proof.
  unfold TOTP.generateTOTPCode, TOTP.derive_from_counter.
  rewrite div30_no_wrap by apply Unix_range.
  set (msg := (bytes_of secret ++ bytes_of (Fmt.sprintf_d (Unix t ÷ 30)))%list).
  rewrite code_loop_be_uint32.
  pose proof (be_uint32_range msg) as Hr.
  unfold GoInt.rem. rewrite Z.rem_mod_nonneg by lia.
  apply sprintf_06d_nonneg.
  apply Z.mod_pos_bound. lia.
Qed.

Lemma derive_from_counter_shape secret c :
  String.length (TOTP.derive_from_counter secret c) = 6%nat /\
  allDigits (TOTP.derive_from_counter secret c) = true.
Proof.
  unfold TOTP.derive_from_counter. apply pad6_shape.
  apply Z.mod_pos_bound. lia.
Qed.

(** C2, as the code has it.  For every secret and every instant,
    [generateTOTPCode] is the reference derivation (SHA-256 of the secret
    followed by the counter in decimal, first four digest bytes as a
    big-endian unsigned 32-bit integer, modulo 1,000,000, left-padded with
    zeros to six digits) with the counter [unixSeconds / 30] truncated toward
    zero; at and after the Unix epoch that counter is the floor, and the
    function equals the reference of the specification.  The result has
    exactly six decimal digits, and two instants with the same counter give
    the same code for the same secret. *)
Theorem generateTOTPCode_reference (secret : string) (t : Time) :
  TOTP.generateTOTPCode secret t
    = TOTP.derive_from_counter secret (Z.quot (Unix t) 30) /\
  (0 <= Unix t -> TOTP.generateTOTPCode secret t = TOTP.deriveCode_spec secret t) /\
  String.length (TOTP.generateTOTPCode secret t) = 6%nat /\
  allDigits (TOTP.generateTOTPCode secret t) = true /\
  (forall t', Z.quot (Unix t') 30 = Z.quot (Unix t) 30 ->
              TOTP.generateTOTPCode secret t' = TOTP.generateTOTPCode secret t).
Proof.
  pose proof (generateTOTPCode_counter secret t) as Hc.
  pose proof (derive_from_counter_shape secret (Z.quot (Unix t) 30)) as [Hl Hd].
  split; [|split; [|split; [|split]]].
  - exact Hc.
  - intros Hpos. rewrite Hc. unfold TOTP.deriveCode_spec.
    rewrite Z.quot_div_nonneg by lia. reflexivity.
  - rewrite Hc. exact Hl.
  - rewrite Hc. exact Hd.
  - intros t' Ht'. rewrite Hc, generateTOTPCode_counter, Ht'. reflexivity.
Qed.

Lemma generateTOTPCode_reference_witness :
  0 <= Unix (mkTime 1710919260 0) /\
  TOTP.generateTOTPCode demo_secret (mkTime 1710919260 0)
    = TOTP.deriveCode_spec demo_secret (mkTime 1710919260 0).
Proof.
  assert (Hepoch : 0 <= Unix (mkTime 1710919260 0)).
  { apply Z.leb_le. vm_compute. reflexivity. }
  split; [exact Hepoch|].
  exact (proj1 (proj2 (generateTOTPCode_reference demo_secret (mkTime 1710919260 0)))
               Hepoch).
Defined.

(** One second before the epoch the code divides -1 by 30 to 0, the floor
    is -1, and the two derivations give different codes. *)
Lemma generateTOTPCode_floor_counterexample :
  TOTP.generateTOTPCode demo_secret (mkTime (-1) 0) = "387181"%string /\
  TOTP.deriveCode_spec demo_secret (mkTime (-1) 0) = "196219"%string /\
  TOTP.generateTOTPCode demo_secret (mkTime (-1) 0)
    <> TOTP.deriveCode_spec demo_secret (mkTime (-1) 0).
Proof.
  split; [vm_compute; reflexivity|].
  split; [vm_compute; reflexivity|].
  vm_compute. discriminate.
Qed.

(** ** Verification window *)

Lemma verifyTOTPCode_unfold now secret input :
  TOTP.verifyTOTPCode now secret input =
  String.eqb input (TOTP.generateTOTPCode secret (Add now (-30 * Second)))
  || (String.eqb input (TOTP.generateTOTPCode secret (Add now (0 * Second)))
      || (String.eqb input (TOTP.generateTOTPCode secret (Add now (30 * Second)))
          || false)).
Proof. reflexivity. Qed.

Lemma Add_zero t : 0 <= nano t < Second -> Add t (0 * Second) = t.
Proof.
  intros Hn. unfold Add. change (Z.quot (0 * Second) Second) with 0.
  change (Z.rem (0 * Second) Second) with 0.
  rewrite Z.add_0_r.
  destruct (Z.leb_spec Second (nano t)); [lia|].
  destruct (Z.ltb_spec (nano t) 0); [lia|].
  destruct t as [s n]. simpl. f_equal. lia.
Qed.

Lemma Add_seconds t k :
  0 <= nano t < Second -> Add t (k * Second) = mkTime (unix_sec t + k) (nano t).
Proof.
  intros Hn. unfold Add.
  assert (Hs : Second <> 0) by (unfold Second; lia).
  rewrite Z.quot_mul by exact Hs.
  rewrite Z.rem_mul by exact Hs.
  rewrite Z.add_0_r.
  destruct (Z.leb_spec Second (nano t)); [lia|].
  destruct (Z.ltb_spec (nano t) 0); [lia|].
  reflexivity.
Qed.

(** C3, as the code has it.  [verifyTOTPCode] accepts a submission exactly
    when it equals the code of the current instant, of the instant thirty
    seconds earlier, or of the instant thirty seconds later; so the codes
    generated at t-30s, t and t+30s are accepted at t.  For a clock after
    the first thirty seconds of the epoch these three instants have the
    counters c-1, c and c+1.  A code generated at t-60s or t+60s is rejected
    exactly when it differs from all three codes of the window: codes of
    different windows can coincide. *)
Theorem verifyTOTPCode_window (now : Time) (secret input : string) :
  let code d := TOTP.generateTOTPCode secret (Add now (d * Second)) in
  (TOTP.verifyTOTPCode now secret input = true <->
     input = code (-30) \/ input = code 0 \/ input = code 30) /\
  TOTP.verifyTOTPCode now secret (code (-30)) = true /\
  TOTP.verifyTOTPCode now secret (code 0) = true /\
  TOTP.verifyTOTPCode now secret (code 30) = true /\
  (forall d, TOTP.verifyTOTPCode now secret (code d) = false <->
             code d <> code (-30) /\ code d <> code 0 /\ code d <> code 30) /\
  (0 <= nano now < Second -> code 0 = TOTP.generateTOTPCode secret now) /\
  (0 <= nano now < Second -> 30 <= unix_sec now < 2 ^ 62 ->
     let c := Z.quot (Unix now) 30 in
     code (-30) = TOTP.derive_from_counter secret (c - 1) /\
     code 0 = TOTP.derive_from_counter secret c /\
     code 30 = TOTP.derive_from_counter secret (c + 1)).
Proof.
  intros code.
  assert (Hiff : forall x, TOTP.verifyTOTPCode now secret x = true <->
                           x = code (-30) \/ x = code 0 \/ x = code 30).
  { intros x. rewrite verifyTOTPCode_unfold.
    rewrite !orb_true_iff, !String.eqb_eq. unfold code.
    split.
    - intros [Hx|[Hx|[Hx|Hx]]];
        [left | right; left | right; right | discriminate]; exact Hx.
    - intros [Hx|[Hx|Hx]];
        [left | right; left | right; right; left]; exact Hx. }
  split; [apply Hiff|].
  split; [apply Hiff; left; reflexivity|].
  split; [apply Hiff; right; left; reflexivity|].
  split; [apply Hiff; right; right; reflexivity|].
  split.
  { intros d. rewrite <- not_true_iff_false, Hiff.
    generalize (code d) (code (-30)) (code 0) (code 30).
    intros x a b c. clear. split.
    - intros Hno. split; [|split]; intros Heq; apply Hno;
        [left | right; left | right; right]; exact Heq.
    - intros (Ha & Hb & Hc) [Heq|[Heq|Heq]];
        [apply Ha | apply Hb | apply Hc]; exact Heq. }
  split.
  { intros Hn. unfold code. rewrite Add_zero by exact Hn. reflexivity. }
  intros Hn Hu c. unfold code.
  rewrite !Add_seconds by exact Hn.
  rewrite !generateTOTPCode_counter. unfold c, Unix. simpl unix_sec.
  rewrite !wrap64_id by lia.
  assert (Hq : forall k, -1 <= k <= 1 ->
            Z.quot (unix_sec now + k * 30) 30 = Z.quot (unix_sec now) 30 + k).
  { intros k Hk. rewrite !Z.quot_div_nonneg by lia. apply Z.div_add. lia. }
  replace (unix_sec now + -30) with (unix_sec now + (-1) * 30) by lia.
  replace (unix_sec now + 0) with (unix_sec now + 0 * 30) by lia.
  replace (unix_sec now + 30) with (unix_sec now + 1 * 30) by lia.
  rewrite !Hq by lia.
  replace (Z.quot (unix_sec now) 30 + -1) with (Z.quot (unix_sec now) 30 - 1) by lia.
  rewrite Z.add_0_r.
  split; [reflexivity|]. split; reflexivity.
Qed.

Lemma verifyTOTPCode_window_witness :
  0 <= nano demo_now < Second /\
  30 <= unix_sec demo_now < 2 ^ 62 /\
  TOTP.generateTOTPCode demo_secret (Add demo_now (30 * Second))
    = TOTP.derive_from_counter demo_secret (Z.quot (Unix demo_now) 30 + 1).
Proof.
  assert (Hn : 0 <= nano demo_now < Second).
  { split; [apply Z.leb_le | apply Z.ltb_lt]; vm_compute; reflexivity. }
  assert (Hu : 30 <= unix_sec demo_now < 2 ^ 62).
  { split; [apply Z.leb_le | apply Z.ltb_lt]; vm_compute; reflexivity. }
  split; [exact Hn|]. split; [exact Hu|].
  pose proof (verifyTOTPCode_window demo_now demo_secret EmptyString) as Hw.
  cbv zeta in Hw.
  destruct Hw as (_ & _ & _ & _ & _ & _ & Hc).
  destruct (Hc Hn Hu) as (_ & _ & H30). exact H30.
Defined.

(** The code of the window two steps ahead can equal the current one: for
    this secret the counters 57030642 and 57030644 both give 368709, so the
    code generated sixty seconds in the future is accepted. *)
Lemma verifyTOTPCode_sixty_seconds_counterexample :
  Z.quot (Unix demo_now) 30 = 57030642 /\
  Z.quot (Unix (Add demo_now (60 * Second))) 30 = 57030644 /\
  TOTP.generateTOTPCode demo_secret (Add demo_now (60 * Second)) = "368709"%string /\
  TOTP.generateTOTPCode demo_secret demo_now = "368709"%string /\
  TOTP.verifyTOTPCode demo_now demo_secret
    (TOTP.generateTOTPCode demo_secret (Add demo_now (60 * Second))) = true.
Proof.
  split; [vm_compute; reflexivity|].
  split; [vm_compute; reflexivity|].
  split; [vm_compute; reflexivity|].
  split; [vm_compute; reflexivity|].
  vm_compute; reflexivity.
Qed.

(** ** Backup codes *)

Lemma findCode_none code codes : forall i,
  TwoFA.findCode code codes i = None <-> ~ In code codes.
Proof.
  induction codes as [|c codes IH]; intros i; simpl.
  - split; [intros _ []|reflexivity].
  - destruct (String.eqb_spec code c) as [->|Hne].
    + split; [discriminate|]. intros Hno. exfalso. apply Hno. left. reflexivity.
    + rewrite IH. split.
      * intros Hno [Heq|Hin]; [apply Hne; symmetry; exact Heq | apply Hno; exact Hin].
      * intros Hno Hin. apply Hno. right. exact Hin.
Qed.

Lemma findCode_first code codes : forall i,
  In code codes ->
  exists pre post,
    codes = pre ++ code :: post /\ ~ In code pre /\
    TwoFA.findCode code codes i = Some (i + length pre)%nat.
Proof.
  induction codes as [|c codes IH]; intros i Hin; [destruct Hin|].
  simpl. destruct (String.eqb_spec code c) as [->|Hne].
  - exists [], codes. split; [reflexivity|]. split; [intros []|].
    simpl. f_equal. lia.
  - destruct Hin as [Heq|Hin]; [exfalso; apply Hne; symmetry; exact Heq|].
    destruct (IH (S i) Hin) as (pre & post & Hcodes & Hpre & Hfind).
    exists (c :: pre), post. split; [simpl; f_equal; exact Hcodes|]. split.
    + intros [Heq|Hin']; [apply Hne; symmetry; exact Heq | apply Hpre; exact Hin'].
    + rewrite Hfind. simpl. f_equal. lia.
Qed.

Lemma remove_at_split {A} (pre post : list A) (x : A) :
  firstn (length pre) (pre ++ x :: post)
    ++ skipn (S (length pre)) (pre ++ x :: post) = pre ++ post.
Proof.
  induction pre as [|a pre IH]; simpl; [reflexivity|].
  f_equal. exact IH.
Qed.

(** C4, as the code has it.  When the TOTP check does not accept the
    submission, [verifySecondFactor] scans the backup codes for an exact
    match.  Without a match it fails and leaves the user unchanged.  With
    one it succeeds and removes the first matching element only: the codes
    before and after it keep their order and the length drops by one.  If
    the code occurred once, it is absent afterwards and a second submission
    fails; a code stored twice stays once and is accepted again. *)
Theorem verifySecondFactor_backup_codes
    (now : Time) (user : TwoFA.User2FA) (code : string)
    (Hskip : totpSkipped now user code) :
  (~ In code (TwoFA.BackupCodes user) ->
     TwoFA.verifySecondFactor now user code = (false, user)) /\
  (In code (TwoFA.BackupCodes user) ->
     exists pre post,
       TwoFA.BackupCodes user = pre ++ code :: post /\
       ~ In code pre /\
       TwoFA.verifySecondFactor now user code
         = (true, TwoFA.setBackupCodes (pre ++ post) user) /\
       S (length (pre ++ post)) = length (TwoFA.BackupCodes user) /\
       (count_occ string_dec (TwoFA.BackupCodes user) code = 1%nat ->
          ~ In code (pre ++ post) /\
          forall now',
            totpSkipped now' (TwoFA.setBackupCodes (pre ++ post) user) code ->
            TwoFA.verifySecondFactor now' (TwoFA.setBackupCodes (pre ++ post) user) code
              = (false, TwoFA.setBackupCodes (pre ++ post) user))).
Proof.
  unfold totpSkipped in Hskip. split.
  - intros Hno. unfold TwoFA.verifySecondFactor. rewrite Hskip.
    apply (findCode_none code _ 0%nat) in Hno. rewrite Hno. reflexivity.
  - intros Hin.
    destruct (findCode_first code _ 0%nat Hin) as (pre & post & Hcodes & Hpre & Hfind).
    exists pre, post. split; [exact Hcodes|]. split; [exact Hpre|].
    assert (Hrun : TwoFA.verifySecondFactor now user code
                   = (true, TwoFA.setBackupCodes (pre ++ post) user)).
    { unfold TwoFA.verifySecondFactor. rewrite Hskip, Hfind. simpl Nat.add.
      rewrite Hcodes, remove_at_split. reflexivity. }
    split; [exact Hrun|]. split.
    { rewrite Hcodes, !length_app. simpl. lia. }
    intros Hone.
    assert (Hgone : ~ In code (pre ++ post)).
    { rewrite Hcodes, count_occ_app in Hone. simpl in Hone.
      destruct (string_dec code code) as [_|Hne]; [|exfalso; apply Hne; reflexivity].
      intros Hin'. apply in_app_or in Hin'. destruct Hin' as [Hin'|Hin'].
      - apply Hpre. exact Hin'.
      - apply (count_occ_In string_dec) in Hin'. lia. }
    split; [exact Hgone|].
    intros now' Hskip'. unfold totpSkipped in Hskip'.
    unfold TwoFA.verifySecondFactor. rewrite Hskip'.
    apply (findCode_none code _ 0%nat) in Hgone.
    simpl TwoFA.BackupCodes. rewrite Hgone. reflexivity.
Qed.

Lemma verifySecondFactor_backup_codes_witness :
  let user := demo_user2fa ["AAAAAAAA"; "BBBBBBBB"; "CCCCCCCC"] in
  totpSkipped demo_now user "BBBBBBBB" /\
  In "BBBBBBBB"%string (TwoFA.BackupCodes user) /\
  exists pre post,
    TwoFA.BackupCodes user = pre ++ "BBBBBBBB"%string :: post /\
    ~ In "BBBBBBBB"%string pre /\
    TwoFA.verifySecondFactor demo_now user "BBBBBBBB"
      = (true, TwoFA.setBackupCodes (pre ++ post) user) /\
    S (length (pre ++ post)) = length (TwoFA.BackupCodes user).
Proof.
  intros user.
  assert (Hskip : totpSkipped demo_now user "BBBBBBBB") by (vm_compute; reflexivity).
  assert (Hin : In "BBBBBBBB"%string (TwoFA.BackupCodes user)).
  { right. left. reflexivity. }
  split; [exact Hskip|]. split; [exact Hin|].
  destruct (proj2 (verifySecondFactor_backup_codes demo_now user "BBBBBBBB" Hskip) Hin)
    as (pre & post & Hcodes & Hpre & Hrun & Hlen & _).
  exists pre, post. split; [exact Hcodes|]. split; [exact Hpre|].
  split; [exact Hrun | exact Hlen].
Defined.

(** A code that is stored twice is consumed once, is still in the list and
    is accepted on a second submission. *)
Lemma verifySecondFactor_duplicate_counterexample :
  let user := demo_user2fa ["AAAAAAAA"; "AAAAAAAA"] in
  let '(ok1, user1) := TwoFA.verifySecondFactor demo_now user "AAAAAAAA" in
  let '(ok2, user2) := TwoFA.verifySecondFactor demo_now user1 "AAAAAAAA" in
  ok1 = true /\ TwoFA.BackupCodes user1 = ["AAAAAAAA"] /\
  In "AAAAAAAA"%string (TwoFA.BackupCodes user1) /\
  ok2 = true /\ TwoFA.BackupCodes user2 = [].
Proof.
  vm_compute. split; [reflexivity|]. split; [reflexivity|].
  split; [left; reflexivity|]. split; reflexivity.
Qed.

(** ** Secrets and code lists *)

Lemma randBytes_length n : forall r, length (fst (TwoFA.randBytes n r)) = n.
Proof.
  induction n as [|n IH]; intros r; simpl; [reflexivity|].
  specialize (IH (TwoFA.mkRand (TwoFA.tape r) (S (TwoFA.pos r)))).
  destruct (TwoFA.randBytes n _) as [rest r2]. simpl in *. f_equal. exact IH.
Qed.

Lemma sprintf_x_length bytes :
  String.length (TwoFA.sprintf_x bytes) = (2 * length bytes)%nat.
Proof.
  induction bytes as [|b bytes IH]; simpl; [reflexivity|].
  rewrite IH. lia.
Qed.

Lemma generateTOTPSecret_length r :
  String.length (fst (TwoFA.generateTOTPSecret r)) = 32%nat.
Proof.
  unfold TwoFA.generateTOTPSecret.
  pose proof (randBytes_length 16 r) as Hl.
  destruct (TwoFA.randBytes 16 r) as [bytes r1]. simpl in *.
  rewrite sprintf_x_length, Hl. reflexivity.
Qed.

Lemma backupCodesLoop_length n : forall r,
  length (fst (TwoFA.backupCodesLoop n r)) = n.
Proof.
  induction n as [|n IH]; intros r; [reflexivity|].
  cbn [TwoFA.backupCodesLoop].
  destruct (TwoFA.generateBackupCode r) as [code r1].
  specialize (IH r1).
  destruct (TwoFA.backupCodesLoop n r1) as [rest r2].
  cbn [fst length] in *. f_equal. exact IH.
Qed.

(** ** Enabling the second factor *)

Section Enable2FA.
Context `{Env}.

Lemma authenticateUser_ok (s : TwoFA.State) (l : TwoFA.loc) (user : TwoFA.User2FA)
    (nameLine pwLine : string) (rest : TwoFA.Scanner) :
  TwoFA.users (TwoFA.store (TwoFA.auth s)) !! TrimSpace nameLine = Some l ->
  TwoFA.heap s !! l = Some user ->
  CompareHashAndPassword (TwoFA.PasswordHash user) (TrimSpace pwLine) = true ->
  TwoFA.authenticateUser s (nameLine :: pwLine :: rest) = Some (Some l, rest).
Proof.
  intros Hname Hheap Hpw.
  unfold TwoFA.authenticateUser, TwoFA.readPasswordSimple. simpl.
  unfold TwoFA.authenticateFirstFactor. rewrite Hname, Hheap, Hpw. reflexivity.
Qed.

(** C7, at the input that ends before the confirmation.  The user logs in,
    the second factor is off, and the scanner has no further line.
    [enable2FA] returns with the new secret and the ten new backup codes
    stored in the user record while [Is2FAEnabled] is still false: neither
    the committed nor the discarded state. *)
Theorem enable2FA_input_ends (now : Time) (s : TwoFA.State) (l : TwoFA.loc)
    (user : TwoFA.User2FA) (nameLine pwLine : string) (r : TwoFA.Rand) :
  TwoFA.users (TwoFA.store (TwoFA.auth s)) !! TrimSpace nameLine = Some l ->
  TwoFA.heap s !! l = Some user ->
  CompareHashAndPassword (TwoFA.PasswordHash user) (TrimSpace pwLine) = true ->
  TwoFA.Is2FAEnabled user = false ->
  TwoFA.backupCodes (TwoFA.auth s) = 10 ->
  exists s' r' user',
    TwoFA.enable2FA now s [nameLine; pwLine] r = Some (s', [], r') /\
    TwoFA.heap s' !! l = Some user' /\
    TwoFA.Is2FAEnabled user' = false /\
    TwoFA.TotpSecret user' = fst (TwoFA.generateTOTPSecret r) /\
    String.length (TwoFA.TotpSecret user') = 32%nat /\
    length (TwoFA.BackupCodes user') = 10%nat.
Proof.
  intros Hname Hheap Hpw Hoff Hcount.
  unfold TwoFA.enable2FA.
  rewrite (authenticateUser_ok s l user nameLine pwLine [] Hname Hheap Hpw).
  rewrite Hheap, Hoff, Hcount.
  pose proof (generateTOTPSecret_length r) as Hlen.
  destruct (TwoFA.generateTOTPSecret r) as [secret r1]. simpl in Hlen.
  unfold TwoFA.generateBackupCodesList.
  pose proof (backupCodesLoop_length (Z.to_nat 10) r1) as Hcodes.
  destruct (TwoFA.backupCodesLoop (Z.to_nat 10) r1) as [codes r2]. simpl in Hcodes.
  simpl TwoFA.Scan. cbv iota.
  eexists _, _, _. split; [reflexivity|].
  split; [apply lookup_insert_eq|].
  split; [exact Hoff|].
  split; [reflexivity|].
  split; [exact Hlen | exact Hcodes].
Qed.

End Enable2FA.

Lemma enable2FA_input_ends_witness :
  exists s' r' user',
    @TwoFA.enable2FA DemoEnv.env demo_now demo_state2fa
        ["alice"; "Secret-Pass#2024"]%string demo_tape
      = Some (s', [], r') /\
    TwoFA.heap s' !! 1%positive = Some user' /\
    TwoFA.Is2FAEnabled user' = false /\
    TwoFA.TotpSecret user' = fst (TwoFA.generateTOTPSecret demo_tape) /\
    String.length (TwoFA.TotpSecret user') = 32%nat /\
    length (TwoFA.BackupCodes user') = 10%nat.
Proof.
  eapply (@enable2FA_input_ends DemoEnv.env demo_now demo_state2fa 1%positive).
  - vm_compute. reflexivity.
  - vm_compute. reflexivity.
  - vm_compute. reflexivity.
  - reflexivity.
  - reflexivity.
Defined.

(** ** The user manager *)

Example demo_registered_alice :
  exists l u, Auth.GetUser demo_registered "alice" = Some l /\
              Auth.heap demo_registered !! l = Some u /\
              Auth.FailedAttempts u = 0 /\ Auth.IsBlocked u = false.
Proof. eexists _, _. vm_compute. repeat split; reflexivity. Qed.

Section ManagerFacts.
Context `{Env}.

Lemma SaveUser_write l u s :
  Auth.SaveUser l (Auth.write l u s) =
  Some (Auth.mkState (<[l := u]> (Auth.heap s))
          (Auth.mkManager
             (Auth.mkStore (<[Auth.Username u := l]> (Auth.users (Auth.store (Auth.um s)))))
             (Auth.maxAttempts (Auth.um s)))).
Proof.
  unfold Auth.SaveUser, Auth.write. simpl. rewrite lookup_insert_eq. reflexivity.
Qed.

(** The user a wrong password leaves behind. *)
Lemma AuthenticateUser_wrong now username password s l u :
  Auth.GetUser s (TrimSpace username) = Some l ->
  Auth.heap s !! l = Some u ->
  Auth.IsBlocked u = false ->
  VerifyPassword password (Auth.HashedPassword u) = false ->
  let n := GoInt.incr (Auth.FailedAttempts u) in
  let blocked := Auth.maxAttempts (Auth.um s) <=? n in
  let u' := Auth.mkUser (Auth.Username u) (Auth.HashedPassword u) n blocked
              (Auth.CreatedAt u) (Auth.LastLoginAt u)
              (if blocked then now else Auth.BlockedAt u) in
  Auth.AuthenticateUser now username password s =
  Some (if blocked then Auth.AuthUserBlocked else Auth.AuthInvalidCredentials,
        Auth.mkState (<[l := u']> (Auth.heap s))
          (Auth.mkManager
             (Auth.mkStore (<[Auth.Username u := l]> (Auth.users (Auth.store (Auth.um s)))))
             (Auth.maxAttempts (Auth.um s)))).
Proof.
  intros Hget Hheap Hnb Hpw n blocked u'.
  unfold Auth.AuthenticateUser. rewrite Hget, Hheap, Hnb, Hpw.
  cbn [Auth.setFailedAttempts Auth.FailedAttempts].
  fold n. fold blocked.
  destruct blocked eqn:Hb; rewrite SaveUser_write; subst u';
    unfold Auth.setBlockedAt, Auth.setIsBlocked, Auth.setFailedAttempts;
    cbn [Auth.Username Auth.HashedPassword Auth.FailedAttempts Auth.IsBlocked
         Auth.CreatedAt Auth.LastLoginAt Auth.BlockedAt];
    rewrite ?Hnb; reflexivity.
Qed.

Lemma AuthenticateUser_success now username password s l u :
  Auth.GetUser s (TrimSpace username) = Some l ->
  Auth.heap s !! l = Some u ->
  Auth.IsBlocked u = false ->
  VerifyPassword password (Auth.HashedPassword u) = true ->
  Auth.AuthenticateUser now username password s =
  Some (Auth.AuthSuccess,
        Auth.mkState
          (<[l := Auth.mkUser (Auth.Username u) (Auth.HashedPassword u) 0 false
                    (Auth.CreatedAt u) now (Auth.BlockedAt u)]> (Auth.heap s))
          (Auth.mkManager
             (Auth.mkStore (<[Auth.Username u := l]> (Auth.users (Auth.store (Auth.um s)))))
             (Auth.maxAttempts (Auth.um s)))).
Proof.
  intros Hget Hheap Hnb Hpw.
  unfold Auth.AuthenticateUser. rewrite Hget, Hheap, Hnb, Hpw.
  rewrite SaveUser_write.
  unfold Auth.setLastLoginAt, Auth.setFailedAttempts.
  cbn [Auth.Username Auth.HashedPassword Auth.FailedAttempts Auth.IsBlocked
       Auth.CreatedAt Auth.LastLoginAt Auth.BlockedAt].
  rewrite Hnb. reflexivity.
Qed.

(** The early return of [AuthenticateUser] for a blocked user, as a
    rewriting step for the proofs below. *)
Lemma AuthenticateUser_blocked_step (now : Time) (username password : string)
    (s : Auth.State) (l : Auth.loc) (u : Auth.User) :
  Auth.GetUser s (TrimSpace username) = Some l ->
  Auth.heap s !! l = Some u ->
  Auth.IsBlocked u = true ->
  Auth.AuthenticateUser now username password s = Some (Auth.AuthUserBlocked, s).
Proof.
  intros Hget Hheap Hb. unfold Auth.AuthenticateUser.
  rewrite Hget, Hheap, Hb. reflexivity.
Qed.

(** C5.  When the name, once trimmed, leads to a blocked user,
    [AuthenticateUser] returns [AuthUserBlocked] whatever the password is,
    before any comparison, and the whole state, the failure counter
    included, is as before. *)
Theorem AuthenticateUser_blocked (now : Time) (username password : string)
    (s : Auth.State) (l : Auth.loc) (u : Auth.User) :
  Auth.GetUser s (TrimSpace username) = Some l ->
  Auth.heap s !! l = Some u ->
  Auth.IsBlocked u = true ->
  Auth.AuthenticateUser now username password s = Some (Auth.AuthUserBlocked, s).
Proof.
  intros Hget Hheap Hb. unfold Auth.AuthenticateUser.
  rewrite Hget, Hheap, Hb. reflexivity.
Qed.

Lemma lookup_insert_same (m : gmap string Auth.loc) (k k' : string) (l : Auth.loc) :
  m !! k = Some l -> <[k' := l]> m !! k = Some l.
Proof.
  intros Hk. destruct (decide (k' = k)) as [->|Hne].
  - apply lookup_insert_eq.
  - rewrite lookup_insert_ne by exact Hne. exact Hk.
Qed.

Lemma authenticateAll_app a b username s :
  Auth.authenticateAll (a ++ b) username s =
  match Auth.authenticateAll a username s with
  | None => None
  | Some (ra, s1) =>
      match Auth.authenticateAll b username s1 with
      | None => None
      | Some (rb, s2) => Some (ra ++ rb, s2)
      end
  end.
Proof.
  revert s. induction a as [|[now pw] a IH]; intros s; simpl.
  - destruct (Auth.authenticateAll b username s) as [[rb s2]|]; reflexivity.
  - destruct (Auth.AuthenticateUser now username pw s) as [[r s1]|]; [|reflexivity].
    rewrite IH.
    destruct (Auth.authenticateAll a username s1) as [[ra s2]|]; [|reflexivity].
    destruct (Auth.authenticateAll b username s2) as [[rb s3]|]; reflexivity.
Qed.

(** Wrong passwords below the threshold: every call answers
    [AuthInvalidCredentials] and adds one to the counter. *)
Lemma authenticateAll_below_threshold username l : forall calls s u,
  Auth.GetUser s (TrimSpace username) = Some l ->
  Auth.heap s !! l = Some u ->
  Auth.IsBlocked u = false ->
  0 <= Auth.FailedAttempts u ->
  Auth.FailedAttempts u + Z.of_nat (length calls) < Auth.maxAttempts (Auth.um s) ->
  Auth.maxAttempts (Auth.um s) < 2 ^ 63 ->
  Forall (fun c => VerifyPassword (snd c) (Auth.HashedPassword u) = false) calls ->
  exists s' u',
    Auth.authenticateAll calls username s
      = Some (repeat Auth.AuthInvalidCredentials (length calls), s') /\
    Auth.GetUser s' (TrimSpace username) = Some l /\
    Auth.heap s' !! l = Some u' /\
    Auth.IsBlocked u' = false /\
    Auth.FailedAttempts u' = Auth.FailedAttempts u + Z.of_nat (length calls) /\
    Auth.HashedPassword u' = Auth.HashedPassword u /\
    Auth.maxAttempts (Auth.um s') = Auth.maxAttempts (Auth.um s).
Proof.
  induction calls as [|[now pw] calls IH]; intros s u Hget Hheap Hnb Hpos Hlt Hmax Hwrong.
  - exists s, u. simpl. rewrite Z.add_0_r. auto 10.
  - inversion Hwrong as [|c cs Hpw Hrest]; subst c cs. simpl in Hpw.
    cbn [length] in Hlt. rewrite Nat2Z.inj_succ in Hlt.
    pose proof (AuthenticateUser_wrong now username pw s l u Hget Hheap Hnb Hpw) as Hstep.
    cbv zeta in Hstep.
    assert (Hincr : GoInt.incr (Auth.FailedAttempts u) = Auth.FailedAttempts u + 1).
    { unfold GoInt.incr. apply wrap64_id. lia. }
    rewrite Hincr in Hstep.
    destruct (Z.leb_spec (Auth.maxAttempts (Auth.um s)) (Auth.FailedAttempts u + 1))
      as [Hge|Hlt']; [lia|].
    cbn [Auth.authenticateAll]. rewrite Hstep.
    match type of Hstep with _ = Some (_, ?s1) => set (s1' := s1) in * end.
    destruct (IH s1'
                (Auth.mkUser (Auth.Username u) (Auth.HashedPassword u)
                   (Auth.FailedAttempts u + 1) false (Auth.CreatedAt u)
                   (Auth.LastLoginAt u) (Auth.BlockedAt u)))
      as (s' & u' & Hrun & Hget' & Hheap' & Hnb' & Hcnt & Hhash & Hmax').
    + unfold Auth.GetUser, s1'. simpl. apply lookup_insert_same. exact Hget.
    + unfold s1'. simpl. apply lookup_insert_eq.
    + reflexivity.
    + simpl. lia.
    + unfold s1'. simpl. lia.
    + unfold s1'. simpl. exact Hmax.
    + simpl. exact Hrest.
    + exists s', u'. rewrite Hrun. simpl in Hcnt, Hhash.
      split; [reflexivity|]. split; [exact Hget'|]. split; [exact Hheap'|].
      split; [exact Hnb'|].
      split; [cbn [length]; rewrite Nat2Z.inj_succ; lia|].
      split; [exact Hhash|].
      rewrite Hmax'. reflexivity.
Qed.

(** C1.  The run of wrong passwords starts at a reset counter, as it is
    after registration, a successful login or a password change.  With a
    threshold [maxAttempts] of at least one, [maxAttempts - 1] wrong
    passwords all answer [AuthInvalidCredentials] and leave the user
    unblocked; [maxAttempts] wrong passwords answer [AuthInvalidCredentials]
    [maxAttempts - 1] times and then [AuthUserBlocked], and leave the user
    blocked with the counter at the threshold and [BlockedAt] at the clock
    reading of the last call (for the threshold 3: invalid, invalid,
    blocked).  For any unblocked user, whatever the counter: the wrong
    password whose increment reaches the threshold answers [AuthUserBlocked]
    itself and sets [IsBlocked] and [BlockedAt]; one that stays below it
    answers [AuthInvalidCredentials] and leaves the user unblocked. *)
Theorem AuthenticateUser_lockout :
  (forall (s : Auth.State) (username : string) (l : Auth.loc) (u : Auth.User)
          (calls : list (Time * string)),
     Auth.GetUser s (TrimSpace username) = Some l ->
     Auth.heap s !! l = Some u ->
     Auth.IsBlocked u = false ->
     Auth.FailedAttempts u = 0 ->
     1 <= Auth.maxAttempts (Auth.um s) < 2 ^ 63 ->
     Forall (fun c => VerifyPassword (snd c) (Auth.HashedPassword u) = false) calls ->
     (Z.of_nat (length calls) = Auth.maxAttempts (Auth.um s) - 1 ->
        exists s' u',
          Auth.authenticateAll calls username s
            = Some (repeat Auth.AuthInvalidCredentials (length calls), s') /\
          Auth.heap s' !! l = Some u' /\ Auth.IsBlocked u' = false) /\
     (Z.of_nat (length calls) = Auth.maxAttempts (Auth.um s) ->
        exists s' u',
          Auth.authenticateAll calls username s
            = Some (repeat Auth.AuthInvalidCredentials (length calls - 1)
                      ++ [Auth.AuthUserBlocked], s') /\
          Auth.heap s' !! l = Some u' /\ Auth.IsBlocked u' = true /\
          Auth.FailedAttempts u' = Auth.maxAttempts (Auth.um s) /\
          last (map fst calls) = Some (Auth.BlockedAt u'))) /\
  (forall (s : Auth.State) (username password : string) (now : Time)
          (l : Auth.loc) (u : Auth.User),
     Auth.GetUser s (TrimSpace username) = Some l ->
     Auth.heap s !! l = Some u ->
     Auth.IsBlocked u = false ->
     VerifyPassword password (Auth.HashedPassword u) = false ->
     exists s' u',
       Auth.heap s' !! l = Some u' /\
       Auth.FailedAttempts u' = GoInt.incr (Auth.FailedAttempts u) /\
       (Auth.maxAttempts (Auth.um s) <= Auth.FailedAttempts u' ->
          Auth.AuthenticateUser now username password s
            = Some (Auth.AuthUserBlocked, s') /\
          Auth.IsBlocked u' = true /\ Auth.BlockedAt u' = now) /\
       (Auth.FailedAttempts u' < Auth.maxAttempts (Auth.um s) ->
          Auth.AuthenticateUser now username password s
            = Some (Auth.AuthInvalidCredentials, s') /\
          Auth.IsBlocked u' = false /\ Auth.BlockedAt u' = Auth.BlockedAt u)).
Proof.
  split.
  - intros s username l u calls Hget Hheap Hnb Hzero Hmax Hwrong. split.
    + intros Hlen.
      destruct (authenticateAll_below_threshold username l calls s u)
        as (s' & u' & Hrun & _ & Hheap' & Hnb' & _); try assumption; try lia.
      exists s', u'. auto.
    + intros Hlen.
      assert (Hne : calls <> []).
      { intros ->. simpl in Hlen. lia. }
      destruct (exists_last Hne) as (init & [now pw] & ->).
      rewrite length_app in Hlen. cbn [length] in Hlen.
      apply Forall_app in Hwrong. destruct Hwrong as [Hinit Hlast].
      inversion Hlast as [|c cs Hpw _]; subst c cs. simpl in Hpw.
      destruct (authenticateAll_below_threshold username l init s u)
        as (s1 & u1 & Hrun & Hget1 & Hheap1 & Hnb1 & Hcnt1 & Hhash1 & Hmax1);
        try assumption; try lia.
      rewrite <- Hhash1 in Hpw.
      pose proof (AuthenticateUser_wrong now username pw s1 l u1
                    Hget1 Hheap1 Hnb1 Hpw) as Hstep.
      cbv zeta in Hstep.
      assert (Hincr : GoInt.incr (Auth.FailedAttempts u1) = Auth.maxAttempts (Auth.um s)).
      { unfold GoInt.incr. rewrite wrap64_id by lia. lia. }
      rewrite Hincr, Hmax1, Z.leb_refl in Hstep.
      rewrite authenticateAll_app, Hrun. cbn [Auth.authenticateAll]. rewrite Hstep.
      eexists _, _. split.
      { rewrite length_app. cbn [length].
        replace (length init + 1 - 1)%nat with (length init) by lia. reflexivity. }
      split; [cbn [Auth.heap]; apply lookup_insert_eq|].
      split; [reflexivity|]. split; [reflexivity|].
      rewrite map_app. cbn [map]. apply last_snoc.
  - intros s username password now l u Hget Hheap Hnb Hpw.
    pose proof (AuthenticateUser_wrong now username password s l u
                  Hget Hheap Hnb Hpw) as Hstep.
    cbv zeta in Hstep.
    match type of Hstep with _ = Some (_, ?s1) => exists s1 end.
    eexists. split; [cbn [Auth.heap]; apply lookup_insert_eq|].
    split; [reflexivity|]. cbn [Auth.FailedAttempts Auth.IsBlocked Auth.BlockedAt].
    split.
    + intros Hge. apply Z.leb_le in Hge. rewrite Hstep, Hge.
      split; [reflexivity|]. split; reflexivity.
    + intros Hlt. apply Z.leb_gt in Hlt. rewrite Hstep, Hlt.
      split; [reflexivity|]. split; reflexivity.
Qed.

End ManagerFacts.

(** ** Invariants of the reachable states *)

Section ManagerInvariant.
Context `{Env}.

Lemma stateInv_new : stateInv Auth.NewUserManager.
Proof.
  split; [reflexivity|]. split.
  - intros l u Hl. simpl in Hl. rewrite lookup_empty in Hl. discriminate.
  - intros k l Hk. simpl in Hk. rewrite lookup_empty in Hk. discriminate.
Qed.

(** Assignment through a pointer of the store followed by [SaveUser]. *)
Lemma stateInv_update s l u u' :
  stateInv s ->
  Auth.heap s !! l = Some u ->
  Auth.Username u' = Auth.Username u ->
  userInv 3 u' ->
  stateInv (Auth.mkState (<[l := u']> (Auth.heap s))
              (Auth.mkManager
                 (Auth.mkStore (<[Auth.Username u := l]>
                                  (Auth.users (Auth.store (Auth.um s)))))
                 (Auth.maxAttempts (Auth.um s)))).
Proof.
  intros (Hmax & Hheap & Hwf) Hl Hname Hu'. split; [exact Hmax|]. split.
  - intros l0 u0 Hl0. cbn [Auth.heap] in Hl0.
    apply lookup_insert_Some in Hl0. destruct Hl0 as [[_ <-]|[_ Hl0]].
    + exact Hu'.
    + exact (Hheap l0 u0 Hl0).
  - intros k l0 Hk. cbn [Auth.users Auth.store Auth.um Auth.heap] in *.
    apply lookup_insert_Some in Hk. destruct Hk as [[<- <-]|[Hne Hk]].
    + exists u'. split; [apply lookup_insert_eq | exact Hname].
    + destruct (Hwf k l0 Hk) as (u0 & Hl0 & Hk0).
      destruct (decide (l = l0)) as [<-|Hll].
      * exfalso. apply Hne. congruence.
      * exists u0. split; [|exact Hk0].
        rewrite lookup_insert_ne by exact Hll. exact Hl0.
Qed.

Lemma RegisterUser_cases now entropy username password s :
  (exists e, Auth.RegisterUser now entropy username password s = (Some e, s)) \/
  (exists hashedPassword,
     Auth.UserExists s (TrimSpace username) = false /\
     TrimSpace username <> EmptyString /\
     fst (IsPasswordSecure password) = true /\
     HashPassword entropy password = Some hashedPassword /\
     let l := fresh (dom (Auth.heap s)) in
     Auth.RegisterUser now entropy username password s =
     (None,
      Auth.mkState
        (<[l := Auth.mkUser (TrimSpace username) hashedPassword 0 false
                  now zeroTime zeroTime]> (Auth.heap s))
        (Auth.mkManager
           (Auth.mkStore (<[TrimSpace username := l]>
                            (Auth.users (Auth.store (Auth.um s)))))
           (Auth.maxAttempts (Auth.um s))))).
Proof.
  unfold Auth.RegisterUser.
  destruct (String.eqb_spec (TrimSpace username) "") as [Hempty|Hne]; [eauto|].
  destruct (Auth.UserExists s (TrimSpace username)) eqn:Hex; [eauto|].
  destruct (IsPasswordSecure password) as [isSecure errors] eqn:Hsec.
  destruct isSecure; simpl negb; cbv iota; [|eauto].
  destruct (HashPassword entropy password) as [hashedPassword|] eqn:Hhash; [|eauto].
  right. exists hashedPassword.
  split; [reflexivity|]. split; [exact Hne|]. split; [reflexivity|].
  split; [reflexivity|].
  unfold Auth.alloc, Auth.SaveUser. cbn [Auth.heap].
  rewrite lookup_insert_eq. reflexivity.
Qed.

Lemma stateInv_register now entropy username password s :
  stateInv s -> stateInv (snd (Auth.RegisterUser now entropy username password s)).
Proof.
  intros Hinv.
  destruct (RegisterUser_cases now entropy username password s)
    as [[e ->]|(h & Hex & Hne & _ & _ & Hrun)]; [exact Hinv|].
  cbv zeta in Hrun. rewrite Hrun. cbn [snd].
  destruct Hinv as (Hmax & Hheap & Hwf).
  assert (Hfresh : Auth.heap s !! fresh (dom (Auth.heap s)) = None).
  { apply not_elem_of_dom. apply is_fresh. }
  split; [exact Hmax|]. split.
  - intros l0 u0 Hl0. cbn [Auth.heap] in Hl0.
    apply lookup_insert_Some in Hl0. destruct Hl0 as [[_ <-]|[_ Hl0]].
    + unfold userInv. simpl. split; [lia|]. split; [lia|]. discriminate.
    + exact (Hheap l0 u0 Hl0).
  - intros k l0 Hk. cbn [Auth.users Auth.store Auth.um Auth.heap] in *.
    apply lookup_insert_Some in Hk. destruct Hk as [[<- <-]|[Hnk Hk]].
    + eexists. split; [apply lookup_insert_eq | reflexivity].
    + destruct (Hwf k l0 Hk) as (u0 & Hl0 & Hk0).
      exists u0. split; [|exact Hk0].
      rewrite lookup_insert_ne; [exact Hl0|]. intros Heq. congruence.
Qed.

Lemma stateInv_authenticate now username password s r s' :
  stateInv s -> IsZero now = false ->
  Auth.AuthenticateUser now username password s = Some (r, s') ->
  stateInv s'.
Proof.
  intros Hinv Hnow Hrun.
  destruct (Auth.GetUser s (TrimSpace username)) as [l|] eqn:Hget.
  2:{ unfold Auth.AuthenticateUser in Hrun. rewrite Hget in Hrun.
      inversion Hrun; subst. exact Hinv. }
  destruct (Auth.heap s !! l) as [u|] eqn:Hheap.
  2:{ unfold Auth.AuthenticateUser in Hrun. rewrite Hget, Hheap in Hrun.
      discriminate. }
  pose proof (proj1 (proj2 Hinv) l u Hheap) as (Hrange & Hbelow & _).
  pose proof (proj1 Hinv) as Hmax.
  destruct (Auth.IsBlocked u) eqn:Hb.
  { rewrite (AuthenticateUser_blocked_step now username password s l u Hget Hheap Hb) in Hrun.
    inversion Hrun; subst. exact Hinv. }
  specialize (Hbelow eq_refl).
  destruct (VerifyPassword password (Auth.HashedPassword u)) eqn:Hpw.
  - rewrite (AuthenticateUser_success now username password s l u Hget Hheap Hb Hpw)
      in Hrun.
    inversion Hrun; subst. apply (stateInv_update s l u); auto.
    unfold userInv. simpl. split; [lia|]. split; [lia|]. discriminate.
  - pose proof (AuthenticateUser_wrong now username password s l u Hget Hheap Hb Hpw)
      as Hstep.
    cbv zeta in Hstep. rewrite Hstep in Hrun. inversion Hrun; subst.
    apply (stateInv_update s l u); auto.
    assert (Hincr : GoInt.incr (Auth.FailedAttempts u) = Auth.FailedAttempts u + 1).
    { unfold GoInt.incr. apply wrap64_id. lia. }
    rewrite Hincr, Hmax. unfold userInv. simpl.
    destruct (Z.leb_spec 3 (Auth.FailedAttempts u + 1)).
    + split; [lia|]. split; [discriminate|]. intros _. split; [lia | exact Hnow].
    + split; [lia|]. split; [lia|]. discriminate.
Qed.

Lemma ChangePassword_success entropy username newPassword s l u hashedPassword :
  Auth.GetUser s (TrimSpace username) = Some l ->
  Auth.heap s !! l = Some u ->
  fst (IsPasswordSecure newPassword) = true ->
  HashPassword entropy newPassword = Some hashedPassword ->
  Auth.ChangePassword entropy username newPassword s =
  Some (None,
        Auth.mkState
          (<[l := Auth.mkUser (Auth.Username u) hashedPassword 0 false
                    (Auth.CreatedAt u) (Auth.LastLoginAt u) zeroTime]> (Auth.heap s))
          (Auth.mkManager
             (Auth.mkStore (<[Auth.Username u := l]>
                              (Auth.users (Auth.store (Auth.um s)))))
             (Auth.maxAttempts (Auth.um s)))).
Proof.
  intros Hget Hheap Hsec Hhash. unfold Auth.ChangePassword.
  rewrite Hget. destruct (IsPasswordSecure newPassword) as [isSecure errors].
  simpl in Hsec. subst isSecure. simpl negb. cbv iota.
  rewrite Hhash, Hheap, SaveUser_write. reflexivity.
Qed.

Lemma ChangePassword_cases entropy username newPassword s e s' :
  Auth.ChangePassword entropy username newPassword s = Some (e, s') ->
  (s' = s /\ e <> None) \/
  (exists l u hashedPassword,
     Auth.GetUser s (TrimSpace username) = Some l /\
     Auth.heap s !! l = Some u /\
     fst (IsPasswordSecure newPassword) = true /\
     HashPassword entropy newPassword = Some hashedPassword /\
     e = None).
Proof.
  intros Hrun. unfold Auth.ChangePassword in Hrun.
  destruct (Auth.GetUser s (TrimSpace username)) as [l|] eqn:Hget.
  2:{ inversion Hrun; subst. left. split; [reflexivity | discriminate]. }
  destruct (IsPasswordSecure newPassword) as [isSecure errors] eqn:Hsec.
  destruct isSecure; simpl negb in Hrun; cbv iota in Hrun.
  2:{ inversion Hrun; subst. left. split; [reflexivity | discriminate]. }
  destruct (HashPassword entropy newPassword) as [h|] eqn:Hhash.
  2:{ inversion Hrun; subst. left. split; [reflexivity | discriminate]. }
  destruct (Auth.heap s !! l) as [u|] eqn:Hheap; [|discriminate].
  rewrite SaveUser_write in Hrun. inversion Hrun; subst.
  right. exists l, u, h. auto.
Qed.

Lemma stateInv_change entropy username newPassword s e s' :
  stateInv s ->
  Auth.ChangePassword entropy username newPassword s = Some (e, s') ->
  stateInv s'.
Proof.
  intros Hinv Hrun.
  destruct (ChangePassword_cases _ _ _ _ _ _ Hrun)
    as [[-> _]|(l & u & h & Hget & Hheap & Hsec & Hhash & ->)]; [exact Hinv|].
  rewrite (ChangePassword_success entropy username newPassword s l u h
             Hget Hheap Hsec Hhash) in Hrun.
  inversion Hrun; subst. apply (stateInv_update s l u); auto.
  unfold userInv. simpl. split; [lia|]. split; [lia|]. discriminate.
Qed.

Lemma reachable_stateInv s : Auth.reachable s -> stateInv s.
Proof.
  induction 1 as [|now entropy username password s _ IH Hnow
                  |now username password s r s' _ IH Hnow Hrun
                  |entropy username newPassword s e s' _ IH Hrun].
  - exact stateInv_new.
  - apply stateInv_register. exact IH.
  - exact (stateInv_authenticate now username password s r s' IH Hnow Hrun).
  - exact (stateInv_change entropy username newPassword s e s' IH Hrun).
Qed.

(** C8.  In every state reached from [NewUserManager] through
    [RegisterUser], [AuthenticateUser] and [ChangePassword], every name of
    the store leads to a user record, and a blocked record has its failure
    counter at or above [maxAttempts] and a [BlockedAt] that is not the zero
    time. *)
Theorem reachable_blocked_invariant (s : Auth.State) (username : string) (l : Auth.loc) :
  Auth.reachable s ->
  Auth.GetUser s username = Some l ->
  exists u,
    Auth.heap s !! l = Some u /\
    (Auth.IsBlocked u = true ->
       Auth.maxAttempts (Auth.um s) <= Auth.FailedAttempts u /\
       IsZero (Auth.BlockedAt u) = false).
Proof.
  intros Hreach Hget.
  destruct (reachable_stateInv s Hreach) as (Hmax & Hheap & Hwf).
  destruct (Hwf username l Hget) as (u & Hl & _).
  exists u. split; [exact Hl|].
  rewrite Hmax. exact (proj2 (proj2 (Hheap l u Hl))).
Qed.

(** C10.  In every state reached from [NewUserManager] through
    [RegisterUser], [AuthenticateUser] and [ChangePassword] the threshold is
    3 and the failure counter of every user lies between 0 and the
    threshold; an unblocked user is strictly below it. *)
Theorem reachable_counter_bound (s : Auth.State) (username : string) (l : Auth.loc) :
  Auth.reachable s ->
  Auth.GetUser s username = Some l ->
  exists u,
    Auth.heap s !! l = Some u /\
    Auth.maxAttempts (Auth.um s) = 3 /\
    0 <= Auth.FailedAttempts u <= Auth.maxAttempts (Auth.um s) /\
    (Auth.IsBlocked u = false ->
       Auth.FailedAttempts u < Auth.maxAttempts (Auth.um s)).
Proof.
  intros Hreach Hget.
  destruct (reachable_stateInv s Hreach) as (Hmax & Hheap & Hwf).
  destruct (Hwf username l Hget) as (u & Hl & _).
  exists u. split; [exact Hl|]. split; [exact Hmax|].
  rewrite Hmax. destruct (Hheap l u Hl) as (Hrange & Hbelow & _).
  split; [exact Hrange | exact Hbelow].
Qed.

End ManagerInvariant.

(** ** Changing the password *)

Section ChangePasswordFacts.
Context `{Env}.

Lemma RegisterUser_keeps_objects now entropy username password s l0 u0 :
  Auth.heap s !! l0 = Some u0 ->
  Auth.heap (snd (Auth.RegisterUser now entropy username password s)) !! l0 = Some u0.
Proof.
  intros Hl0.
  destruct (RegisterUser_cases now entropy username password s)
    as [[e ->]|(h & _ & _ & _ & _ & Hrun)]; [exact Hl0|].
  cbv zeta in Hrun. rewrite Hrun. cbn [snd Auth.heap].
  rewrite lookup_insert_ne; [exact Hl0|].
  intros Heq. pose proof (is_fresh (dom (Auth.heap s))) as Hfresh.
  apply Hfresh. rewrite Heq. apply elem_of_dom. eauto.
Qed.

Lemma AuthenticateUser_keeps_blocked now username password s r s' l0 u0 :
  Auth.AuthenticateUser now username password s = Some (r, s') ->
  Auth.heap s !! l0 = Some u0 ->
  Auth.IsBlocked u0 = true ->
  Auth.heap s' !! l0 = Some u0.
Proof.
  intros Hrun Hl0 Hb0.
  destruct (Auth.GetUser s (TrimSpace username)) as [l|] eqn:Hget.
  2:{ unfold Auth.AuthenticateUser in Hrun. rewrite Hget in Hrun.
      inversion Hrun; subst. exact Hl0. }
  destruct (Auth.heap s !! l) as [u|] eqn:Hheap.
  2:{ unfold Auth.AuthenticateUser in Hrun. rewrite Hget, Hheap in Hrun.
      discriminate. }
  destruct (Auth.IsBlocked u) eqn:Hb.
  { rewrite (AuthenticateUser_blocked_step now username password s l u Hget Hheap Hb) in Hrun.
    inversion Hrun; subst. exact Hl0. }
  assert (Hne : l <> l0).
  { intros ->. rewrite Hheap in Hl0. inversion Hl0; subst. congruence. }
  destruct (VerifyPassword password (Auth.HashedPassword u)) eqn:Hpw.
  - rewrite (AuthenticateUser_success now username password s l u Hget Hheap Hb Hpw)
      in Hrun.
    inversion Hrun; subst. cbn [Auth.heap].
    rewrite lookup_insert_ne by exact Hne. exact Hl0.
  - pose proof (AuthenticateUser_wrong now username password s l u Hget Hheap Hb Hpw)
      as Hstep.
    cbv zeta in Hstep. rewrite Hstep in Hrun. inversion Hrun; subst. cbn [Auth.heap].
    rewrite lookup_insert_ne by exact Hne. exact Hl0.
Qed.

(** C6, as the code has it.  For an existing user and a new password that
    passes the policy and that the hasher accepts, [ChangePassword] returns
    no error, stores the new hash and sets [FailedAttempts] to 0, [IsBlocked]
    to false and [BlockedAt] to the zero time, whatever they were.  When the
    hasher fails it returns the hashing error and the state stays as it
    was.  [RegisterUser] and [AuthenticateUser] leave every blocked user
    record exactly as it is, so no other operation clears the flag. *)
Theorem ChangePassword_resets_lockout :
  (forall entropy username newPassword s l u hashedPassword,
     Auth.GetUser s (TrimSpace username) = Some l ->
     Auth.heap s !! l = Some u ->
     fst (IsPasswordSecure newPassword) = true ->
     HashPassword entropy newPassword = Some hashedPassword ->
     exists s' u',
       Auth.ChangePassword entropy username newPassword s = Some (None, s') /\
       Auth.heap s' !! l = Some u' /\
       Auth.FailedAttempts u' = 0 /\
       Auth.IsBlocked u' = false /\
       Auth.BlockedAt u' = zeroTime /\
       Auth.HashedPassword u' = hashedPassword) /\
  (forall entropy username newPassword s l,
     Auth.GetUser s (TrimSpace username) = Some l ->
     fst (IsPasswordSecure newPassword) = true ->
     HashPassword entropy newPassword = None ->
     Auth.ChangePassword entropy username newPassword s
       = Some (Some Auth.ErrHashPassword, s)) /\
  (forall now entropy username password s l0 u0,
     Auth.heap s !! l0 = Some u0 ->
     Auth.IsBlocked u0 = true ->
     Auth.heap (snd (Auth.RegisterUser now entropy username password s)) !! l0
       = Some u0) /\
  (forall now username password s r s' l0 u0,
     Auth.AuthenticateUser now username password s = Some (r, s') ->
     Auth.heap s !! l0 = Some u0 ->
     Auth.IsBlocked u0 = true ->
     Auth.heap s' !! l0 = Some u0).
Proof.
  split; [|split; [|split]].
  - intros entropy username newPassword s l u h Hget Hheap Hsec Hhash.
    rewrite (ChangePassword_success entropy username newPassword s l u h
               Hget Hheap Hsec Hhash).
    eexists _, _. split; [reflexivity|].
    split; [cbn [Auth.heap]; apply lookup_insert_eq|].
    repeat split.
  - intros entropy username newPassword s l Hget Hsec Hhash.
    unfold Auth.ChangePassword. rewrite Hget.
    destruct (IsPasswordSecure newPassword) as [isSecure errors].
    simpl in Hsec. subst isSecure. simpl negb. cbv iota.
    rewrite Hhash. reflexivity.
  - intros now entropy username password s l0 u0 Hl0 _.
    apply RegisterUser_keeps_objects. exact Hl0.
  - exact AuthenticateUser_keeps_blocked.
Qed.

Lemma reachable_authenticateAll username : forall calls s rs s',
  Auth.reachable s ->
  Forall (fun c => IsZero (fst c) = false) calls ->
  Auth.authenticateAll calls username s = Some (rs, s') ->
  Auth.reachable s'.
Proof.
  induction calls as [|[now pw] calls IH]; intros s rs s' Hreach Hclock Hrun.
  - simpl in Hrun. inversion Hrun; subst. exact Hreach.
  - inversion Hclock as [|c cs Hnow Hrest]; subst c cs. simpl in Hnow.
    cbn [Auth.authenticateAll] in Hrun.
    destruct (Auth.AuthenticateUser now username pw s) as [[r s1]|] eqn:Hstep;
      [|discriminate].
    destruct (Auth.authenticateAll calls username s1) as [[rs1 s2]|] eqn:Hrest';
      [|discriminate].
    inversion Hrun; subst.
    apply (IH s1 rs1 s' (Auth.reach_authenticate now username pw s r s1
                           Hreach Hnow Hstep) Hrest Hrest').
Qed.

End ChangePasswordFacts.

(** ** The statements at the sample manager *)

Lemma demo_locked_run :
  @Auth.authenticateAll DemoEnv.env demo_wrong_calls "alice" demo_registered
  = Some ([Auth.AuthInvalidCredentials; Auth.AuthInvalidCredentials;
           Auth.AuthUserBlocked], demo_locked).
Proof. vm_compute. reflexivity. Qed.

Lemma demo_locked_reachable : @Auth.reachable DemoEnv.env demo_locked.
Proof.
  apply (@reachable_authenticateAll DemoEnv.env "alice" demo_wrong_calls
           demo_registered
           [Auth.AuthInvalidCredentials; Auth.AuthInvalidCredentials;
            Auth.AuthUserBlocked]
           demo_locked).
  - apply Auth.reach_register; [apply Auth.reach_new | reflexivity].
  - repeat constructor.
  - exact demo_locked_run.
Qed.

Lemma AuthenticateUser_lockout_witness :
  exists s' u',
    @Auth.authenticateAll DemoEnv.env demo_wrong_calls "alice" demo_registered
      = Some (repeat Auth.AuthInvalidCredentials (length demo_wrong_calls - 1)
                ++ [Auth.AuthUserBlocked], s') /\
    Auth.heap s' !! 1%positive = Some u' /\ Auth.IsBlocked u' = true /\
    Auth.FailedAttempts u' = Auth.maxAttempts (Auth.um demo_registered) /\
    last (map fst demo_wrong_calls) = Some (Auth.BlockedAt u').
Proof.
  set (u := Auth.mkUser "alice" "$2a$12$7$Secret-Pass#2024" 0 false
              demo_now zeroTime zeroTime).
  assert (Hget : Auth.GetUser demo_registered (@TrimSpace DemoEnv.env "alice")
                 = Some 1%positive) by (vm_compute; reflexivity).
  assert (Hheap : Auth.heap demo_registered !! 1%positive = Some u)
    by (vm_compute; reflexivity).
  assert (Hmax : 1 <= Auth.maxAttempts (Auth.um demo_registered) < 2 ^ 63).
  { split; [apply Z.leb_le | apply Z.ltb_lt]; vm_compute; reflexivity. }
  assert (Hwrong : Forall (fun c => @VerifyPassword DemoEnv.env (snd c)
                                      (Auth.HashedPassword u) = false)
                          demo_wrong_calls).
  { repeat constructor. }
  assert (Hlen : Z.of_nat (length demo_wrong_calls)
                 = Auth.maxAttempts (Auth.um demo_registered))
    by (vm_compute; reflexivity).
  exact (proj2 (proj1 (@AuthenticateUser_lockout DemoEnv.env)
                  demo_registered "alice" 1%positive u demo_wrong_calls
                  Hget Hheap eq_refl eq_refl Hmax Hwrong) Hlen).
Defined.

(** A registered, unblocked account that carries one earlier failure: the
    second of three consecutive wrong passwords already blocks it, so the
    answers are invalid, blocked, blocked, and the account is blocked after
    [maxAttempts - 1] wrong attempts. *)
Lemma AuthenticateUser_lockout_counterexample :
  @Auth.reachable DemoEnv.env demo_one_wrong /\
  Auth.GetUser demo_one_wrong (@TrimSpace DemoEnv.env "alice") = Some 1%positive /\
  Auth.heap demo_one_wrong !! 1%positive
    = Some (Auth.mkUser "alice" "$2a$12$7$Secret-Pass#2024" 1 false
              demo_now zeroTime zeroTime) /\
  Auth.maxAttempts (Auth.um demo_one_wrong) = 3 /\
  Forall (fun c => @VerifyPassword DemoEnv.env (snd c) "$2a$12$7$Secret-Pass#2024"
                   = false) demo_wrong_calls /\
  length demo_wrong_calls = 3%nat /\
  (exists s',
     @Auth.authenticateAll DemoEnv.env demo_wrong_calls "alice" demo_one_wrong
     = Some ([Auth.AuthInvalidCredentials; Auth.AuthUserBlocked;
              Auth.AuthUserBlocked], s')) /\
  (exists s' u',
     @Auth.authenticateAll DemoEnv.env (firstn 2 demo_wrong_calls) "alice"
        demo_one_wrong
     = Some ([Auth.AuthInvalidCredentials; Auth.AuthUserBlocked], s') /\
     Auth.heap s' !! 1%positive = Some u' /\ Auth.IsBlocked u' = true).
Proof.
  split.
  { apply (@reachable_authenticateAll DemoEnv.env "alice"
             [(mkTime 1710919265 0, "guess-0"%string)] demo_registered
             [Auth.AuthInvalidCredentials] demo_one_wrong).
    - apply Auth.reach_register; [apply Auth.reach_new | reflexivity].
    - repeat constructor.
    - vm_compute. reflexivity. }
  split; [vm_compute; reflexivity|].
  split; [vm_compute; reflexivity|].
  split; [vm_compute; reflexivity|].
  split; [repeat constructor|].
  split; [reflexivity|].
  split.
  - eexists. vm_compute. reflexivity.
  - eexists _, _. split; [vm_compute; reflexivity|].
    split; [vm_compute; reflexivity | reflexivity].
Qed.

Lemma AuthenticateUser_blocked_witness :
  @Auth.AuthenticateUser DemoEnv.env demo_now "alice" "Secret-Pass#2024" demo_locked
  = Some (Auth.AuthUserBlocked, demo_locked).
Proof.
  apply (@AuthenticateUser_blocked DemoEnv.env demo_now "alice" "Secret-Pass#2024"
           demo_locked 1%positive
           (Auth.mkUser "alice" "$2a$12$7$Secret-Pass#2024" 3 true
              demo_now zeroTime (mkTime 1710919290 0))).
  - vm_compute. reflexivity.
  - vm_compute. reflexivity.
  - reflexivity.
Defined.

Lemma ChangePassword_resets_lockout_witness :
  exists s' u',
    @Auth.ChangePassword DemoEnv.env 9 "alice" "New-Secret#4711" demo_locked
      = Some (None, s') /\
    Auth.heap s' !! 1%positive = Some u' /\
    Auth.FailedAttempts u' = 0 /\
    Auth.IsBlocked u' = false /\
    Auth.BlockedAt u' = zeroTime /\
    Auth.HashedPassword u' = "$2a$12$9$New-Secret#4711"%string.
Proof.
  apply (proj1 (@ChangePassword_resets_lockout DemoEnv.env) 9 "alice"
           "New-Secret#4711"%string demo_locked 1%positive
           (Auth.mkUser "alice" "$2a$12$7$Secret-Pass#2024" 3 true
              demo_now zeroTime (mkTime 1710919290 0))).
  - vm_compute. reflexivity.
  - vm_compute. reflexivity.
  - vm_compute. reflexivity.
  - vm_compute. reflexivity.
Defined.

(** A policy-compliant password of 76 bytes, which bcrypt refuses: the
    blocked user stays blocked and [ChangePassword] returns an error. *)
Lemma ChangePassword_hash_failure_counterexample :
  fst (@IsPasswordSecure demo_long_password) = true /\
  String.length demo_long_password = 76%nat /\
  (exists u, Auth.heap demo_locked !! 1%positive = Some u /\
             Auth.IsBlocked u = true) /\
  @Auth.ChangePassword DemoEnv.env 9 "alice" demo_long_password demo_locked
    = Some (Some Auth.ErrHashPassword, demo_locked).
Proof.
  split; [vm_compute; reflexivity|].
  split; [vm_compute; reflexivity|].
  split; [eexists; split; vm_compute; reflexivity|].
  vm_compute. reflexivity.
Qed.

Lemma reachable_blocked_invariant_witness :
  exists u,
    Auth.heap demo_locked !! 1%positive = Some u /\
    (Auth.IsBlocked u = true ->
       Auth.maxAttempts (Auth.um demo_locked) <= Auth.FailedAttempts u /\
       IsZero (Auth.BlockedAt u) = false).
Proof.
  apply (@reachable_blocked_invariant DemoEnv.env demo_locked "alice" 1%positive).
  - exact demo_locked_reachable.
  - vm_compute. reflexivity.
Defined.

Lemma reachable_counter_bound_witness :
  exists u,
    Auth.heap demo_locked !! 1%positive = Some u /\
    Auth.maxAttempts (Auth.um demo_locked) = 3 /\
    0 <= Auth.FailedAttempts u <= Auth.maxAttempts (Auth.um demo_locked) /\
    (Auth.IsBlocked u = false ->
       Auth.FailedAttempts u < Auth.maxAttempts (Auth.um demo_locked)).
Proof.
  apply (@reachable_counter_bound DemoEnv.env demo_locked "alice" 1%positive).
  - exact demo_locked_reachable.
  - vm_compute. reflexivity.
Defined.

(** ** More on the store and the manager *)

Section ManagerMore.
Context `{Env}.

(** [SaveUser] files the object under its own name and touches no other
    name; [UserExists] and [GetUser] agree. *)
Theorem SaveUser_GetUser (s s' : Auth.State) (l : Auth.loc) (u : Auth.User) :
  Auth.heap s !! l = Some u ->
  Auth.SaveUser l s = Some s' ->
  Auth.GetUser s' (Auth.Username u) = Some l /\
  Auth.UserExists s' (Auth.Username u) = true /\
  Auth.heap s' = Auth.heap s /\
  (forall k, k <> Auth.Username u ->
     Auth.GetUser s' k = Auth.GetUser s k /\
     Auth.UserExists s' k = Auth.UserExists s k).
Proof.
  intros Hl Hsave. unfold Auth.SaveUser in Hsave. rewrite Hl in Hsave.
  inversion Hsave; subst s'; clear Hsave.
  unfold Auth.GetUser, Auth.UserExists. cbn [Auth.users Auth.store Auth.um Auth.heap].
  rewrite lookup_insert_eq.
  split; [reflexivity|]. split; [reflexivity|]. split; [reflexivity|].
  intros k Hk. rewrite lookup_insert_ne by (intros Heq; apply Hk; symmetry; exact Heq).
  split; reflexivity.
Qed.

(** The successful path of [RegisterUser], step by step. *)
Lemma RegisterUser_success_step now entropy username password s hashedPassword :
  TrimSpace username <> EmptyString ->
  Auth.GetUser s (TrimSpace username) = None ->
  fst (IsPasswordSecure password) = true ->
  HashPassword entropy password = Some hashedPassword ->
  exists l s',
    Auth.RegisterUser now entropy username password s = (None, s') /\
    Auth.heap s !! l = None /\
    Auth.GetUser s' (TrimSpace username) = Some l /\
    Auth.heap s' !! l
      = Some (Auth.mkUser (TrimSpace username) hashedPassword 0 false
                now zeroTime zeroTime) /\
    (forall k, k <> TrimSpace username -> Auth.GetUser s' k = Auth.GetUser s k) /\
    (forall l0 u0, Auth.heap s !! l0 = Some u0 -> Auth.heap s' !! l0 = Some u0) /\
    Auth.maxAttempts (Auth.um s') = Auth.maxAttempts (Auth.um s).
Proof.
  intros Hne Hfree Hsec Hhash.
  destruct (RegisterUser_cases now entropy username password s)
    as [[e Herr]|(h & _ & _ & _ & Hh & Hrun)].
  - exfalso. unfold Auth.RegisterUser in Herr.
    destruct (String.eqb_spec (TrimSpace username) "") as [Heq|_]; [exact (Hne Heq)|].
    unfold Auth.UserExists in Herr. unfold Auth.GetUser in Hfree. rewrite Hfree in Herr.
    destruct (IsPasswordSecure password) as [isSecure errors].
    simpl in Hsec. subst isSecure. simpl negb in Herr. cbv iota in Herr.
    rewrite Hhash in Herr. unfold Auth.alloc, Auth.SaveUser in Herr.
    cbn [Auth.heap] in Herr. rewrite lookup_insert_eq in Herr. discriminate.
  - rewrite Hhash in Hh. inversion Hh; subst h. cbv zeta in Hrun.
    assert (Hfresh : Auth.heap s !! fresh (dom (Auth.heap s)) = None).
    { apply not_elem_of_dom. apply is_fresh. }
    eexists _, _. split; [exact Hrun|].
    split; [exact Hfresh|].
    unfold Auth.GetUser. cbn [Auth.users Auth.store Auth.um Auth.heap Auth.maxAttempts].
    split; [apply lookup_insert_eq|]. split; [apply lookup_insert_eq|].
    split.
    { intros k Hk. apply lookup_insert_ne. intros Heq. apply Hk. symmetry. exact Heq. }
    split; [|reflexivity].
    intros l0 u0 Hl0. rewrite lookup_insert_ne; [exact Hl0|].
    intros Heq. rewrite Heq in Hfresh. congruence.
Qed.

(** A successful registration: the new user is filed under the trimmed
    name with zeroed lockout fields, and nothing else changes. *)
Theorem RegisterUser_creates_user now entropy username password s hashedPassword :
  TrimSpace username <> EmptyString ->
  Auth.GetUser s (TrimSpace username) = None ->
  fst (IsPasswordSecure password) = true ->
  HashPassword entropy password = Some hashedPassword ->
  exists l s',
    Auth.RegisterUser now entropy username password s = (None, s') /\
    Auth.heap s !! l = None /\
    Auth.GetUser s' (TrimSpace username) = Some l /\
    Auth.heap s' !! l
      = Some (Auth.mkUser (TrimSpace username) hashedPassword 0 false
                now zeroTime zeroTime) /\
    (forall k, k <> TrimSpace username -> Auth.GetUser s' k = Auth.GetUser s k) /\
    (forall l0 u0, Auth.heap s !! l0 = Some u0 -> Auth.heap s' !! l0 = Some u0) /\
    Auth.maxAttempts (Auth.um s') = Auth.maxAttempts (Auth.um s).
Proof. apply RegisterUser_success_step. Qed.

(** The refusals of [RegisterUser], in the order of the checks: an empty
    name, a taken name, a weak password (with the full list of violations),
    a failing hasher.  Whenever an error is returned the state is as
    before. *)
Theorem RegisterUser_errors now entropy username password s :
  (TrimSpace username = EmptyString ->
     Auth.RegisterUser now entropy username password s
       = (Some Auth.ErrEmptyUsername, s)) /\
  (TrimSpace username <> EmptyString ->
     Auth.UserExists s (TrimSpace username) = true ->
     Auth.RegisterUser now entropy username password s
       = (Some (Auth.ErrUserExists (TrimSpace username)), s)) /\
  (TrimSpace username <> EmptyString ->
     Auth.UserExists s (TrimSpace username) = false ->
     fst (IsPasswordSecure password) = false ->
     Auth.RegisterUser now entropy username password s
       = (Some (Auth.ErrWeakPassword
                  (snd (Policy.ValidatePassword password Policy.DefaultPasswordRules))),
          s)) /\
  (TrimSpace username <> EmptyString ->
     Auth.UserExists s (TrimSpace username) = false ->
     fst (IsPasswordSecure password) = true ->
     HashPassword entropy password = None ->
     Auth.RegisterUser now entropy username password s
       = (Some Auth.ErrHashPassword, s)) /\
  (fst (Auth.RegisterUser now entropy username password s) <> None ->
     snd (Auth.RegisterUser now entropy username password s) = s).
Proof.
  split; [|split; [|split; [|split]]].
  - intros Hempty. unfold Auth.RegisterUser. rewrite Hempty. reflexivity.
  - intros Hne Hex. unfold Auth.RegisterUser.
    destruct (String.eqb_spec (TrimSpace username) "") as [Heq|_]; [destruct (Hne Heq)|].
    rewrite Hex. reflexivity.
  - intros Hne Hex Hweak. unfold Auth.RegisterUser.
    destruct (String.eqb_spec (TrimSpace username) "") as [Heq|_]; [destruct (Hne Heq)|].
    rewrite Hex. unfold IsPasswordSecure in *.
    destruct (Policy.ValidatePassword password Policy.DefaultPasswordRules)
      as [isSecure errors].
    simpl in Hweak. subst isSecure. reflexivity.
  - intros Hne Hex Hsec Hhash. unfold Auth.RegisterUser.
    destruct (String.eqb_spec (TrimSpace username) "") as [Heq|_]; [destruct (Hne Heq)|].
    rewrite Hex.
    destruct (IsPasswordSecure password) as [isSecure errors].
    simpl in Hsec. subst isSecure. simpl negb. cbv iota. rewrite Hhash. reflexivity.
  - intros Herr.
    destruct (RegisterUser_cases now entropy username password s)
      as [[e ->]|(h & _ & _ & _ & _ & Hrun)]; [reflexivity|].
    cbv zeta in Hrun. rewrite Hrun in Herr. exfalso. apply Herr. reflexivity.
Qed.

End ManagerMore.

Lemma RegisterUser_creates_user_witness :
  exists l s',
    @Auth.RegisterUser DemoEnv.env demo_now 7 "  alice " "Secret-Pass#2024"
       Auth.NewUserManager = (None, s') /\
    Auth.heap Auth.NewUserManager !! l = None /\
    Auth.GetUser s' (@TrimSpace DemoEnv.env "  alice ") = Some l /\
    Auth.heap s' !! l
      = Some (Auth.mkUser (@TrimSpace DemoEnv.env "  alice ")
                "$2a$12$7$Secret-Pass#2024" 0 false demo_now zeroTime zeroTime) /\
    (forall k, k <> @TrimSpace DemoEnv.env "  alice " ->
               Auth.GetUser s' k = Auth.GetUser Auth.NewUserManager k) /\
    (forall l0 u0, Auth.heap Auth.NewUserManager !! l0 = Some u0 ->
                   Auth.heap s' !! l0 = Some u0) /\
    Auth.maxAttempts (Auth.um s') = Auth.maxAttempts (Auth.um Auth.NewUserManager).
Proof.
  apply (@RegisterUser_creates_user DemoEnv.env demo_now 7 "  alice "
           "Secret-Pass#2024" Auth.NewUserManager "$2a$12$7$Secret-Pass#2024").
  - vm_compute. discriminate.
  - reflexivity.
  - vm_compute. reflexivity.
  - vm_compute. reflexivity.
Defined.

Lemma RegisterUser_errors_witness :
  Auth.UserExists demo_registered (@TrimSpace DemoEnv.env " alice") = true /\
  @Auth.RegisterUser DemoEnv.env demo_now 8 " alice" "Other-Pass#2025" demo_registered
    = (Some (Auth.ErrUserExists (@TrimSpace DemoEnv.env " alice")), demo_registered).
Proof.
  assert (Hex : Auth.UserExists demo_registered (@TrimSpace DemoEnv.env " alice") = true)
    by (vm_compute; reflexivity).
  split; [exact Hex|].
  refine (proj1 (proj2 (@RegisterUser_errors DemoEnv.env demo_now 8 " alice"
                          "Other-Pass#2025" demo_registered)) _ Hex).
  vm_compute. discriminate.
Defined.

Lemma SaveUser_GetUser_witness :
  let u := Auth.mkUser "bob" "$2a$12$1$pw" 0 false demo_now zeroTime zeroTime in
  let s := Auth.write 5%positive u demo_registered in
  exists s', Auth.SaveUser 5%positive s = Some s' /\
             Auth.GetUser s' "bob" = Some 5%positive.
Proof.
  intros u s. eexists. split; [vm_compute; reflexivity|].
  refine (proj1 (@SaveUser_GetUser s _ 5%positive u _ _)).
  - vm_compute. reflexivity.
  - vm_compute. reflexivity.
Defined.

Section ManagerFlows.
Context `{Env}.

(** An unknown name is answered with [AuthUserNotFound] and no change. *)
Lemma AuthenticateUser_not_found now username password s :
  Auth.GetUser s (TrimSpace username) = None ->
  Auth.AuthenticateUser now username password s = Some (Auth.AuthUserNotFound, s).
Proof. intros Hget. unfold Auth.AuthenticateUser. rewrite Hget. reflexivity. Qed.

(** Registration followed by a login with the registered password, for a
    hasher whose hash the comparison accepts: the login succeeds, also when
    the name is typed with surrounding blanks again. *)
Theorem RegisterUser_then_AuthenticateUser
    now now' entropy username password s hashedPassword :
  TrimSpace username <> EmptyString ->
  Auth.GetUser s (TrimSpace username) = None ->
  fst (IsPasswordSecure password) = true ->
  HashPassword entropy password = Some hashedPassword ->
  VerifyPassword password hashedPassword = true ->
  exists l s1 s2,
    Auth.RegisterUser now entropy username password s = (None, s1) /\
    Auth.AuthenticateUser now' username password s1 = Some (Auth.AuthSuccess, s2) /\
    Auth.heap s2 !! l
      = Some (Auth.mkUser (TrimSpace username) hashedPassword 0 false
                now now' zeroTime).
Proof.
  intros Hne Hfree Hsec Hhash Hverify.
  destruct (RegisterUser_success_step now entropy username password s hashedPassword
              Hne Hfree Hsec Hhash)
    as (l & s1 & Hreg & _ & Hget & Hheap & _).
  exists l, s1. eexists. split; [exact Hreg|].
  rewrite (AuthenticateUser_success now' username password s1 l _ Hget Hheap eq_refl
             Hverify).
  split; [reflexivity|]. cbn [Auth.heap]. apply lookup_insert_eq.
Qed.

(** In a reachable state no call dereferences a nil pointer: the two
    operations that follow a pointer of the store always return. *)
Theorem reachable_no_nil_dereference s :
  Auth.reachable s ->
  (forall now username password,
     exists r s', Auth.AuthenticateUser now username password s = Some (r, s')) /\
  (forall entropy username newPassword,
     exists e s', Auth.ChangePassword entropy username newPassword s = Some (e, s')).
Proof.
  intros Hreach. destruct (reachable_stateInv s Hreach) as (_ & _ & Hwf). split.
  - intros now username password. unfold Auth.AuthenticateUser.
    destruct (Auth.GetUser s (TrimSpace username)) as [l|] eqn:Hget; [|eauto].
    destruct (Hwf _ _ Hget) as (u & Hl & _). rewrite Hl.
    destruct (Auth.IsBlocked u); [eauto|].
    destruct (VerifyPassword password (Auth.HashedPassword u));
      rewrite SaveUser_write; [eauto|].
    match goal with |- context [if ?b then _ else _] => destruct b end; eauto.
  - intros entropy username newPassword. unfold Auth.ChangePassword.
    destruct (Auth.GetUser s (TrimSpace username)) as [l|] eqn:Hget; [|eauto].
    destruct (Hwf _ _ Hget) as (u & Hl & _).
    destruct (IsPasswordSecure newPassword) as [[|] errors]; simpl negb; cbv iota;
      [|eauto].
    destruct (HashPassword entropy newPassword); [|eauto].
    rewrite Hl, SaveUser_write. eauto.
Qed.

(** In a reachable state every name of the store is the [Username] of the
    record it leads to, and [AuthenticateUser] and [ChangePassword] leave
    the names of the store and what they point to as they are. *)
Theorem reachable_names_stable s :
  Auth.reachable s ->
  (forall k l, Auth.GetUser s k = Some l ->
     exists u, Auth.heap s !! l = Some u /\ Auth.Username u = k) /\
  (forall now username password r s',
     Auth.AuthenticateUser now username password s = Some (r, s') ->
     Auth.um s' = Auth.um s) /\
  (forall entropy username newPassword e s',
     Auth.ChangePassword entropy username newPassword s = Some (e, s') ->
     Auth.um s' = Auth.um s).
Proof.
  intros Hreach. destruct (reachable_stateInv s Hreach) as (_ & _ & Hwf).
  assert (Hsame : forall l u, Auth.GetUser s (Auth.Username u) = Some l ->
            Auth.mkManager
              (Auth.mkStore (<[Auth.Username u := l]>
                               (Auth.users (Auth.store (Auth.um s)))))
              (Auth.maxAttempts (Auth.um s)) = Auth.um s).
  { intros l u Hk. rewrite insert_id by exact Hk.
    destruct (Auth.um s) as [[users] max]. reflexivity. }
  split; [exact Hwf|]. split.
  - intros now username password r s' Hrun.
    destruct (Auth.GetUser s (TrimSpace username)) as [l|] eqn:Hget.
    2:{ rewrite (AuthenticateUser_not_found _ _ _ _ Hget) in Hrun.
        inversion Hrun; subst. reflexivity. }
    destruct (Hwf _ _ Hget) as (u & Hl & Hname).
    destruct (Auth.IsBlocked u) eqn:Hb.
    { rewrite (AuthenticateUser_blocked_step now username password s l u Hget Hl Hb) in Hrun.
      inversion Hrun; subst. reflexivity. }
    rewrite <- Hname in Hget.
    destruct (VerifyPassword password (Auth.HashedPassword u)) eqn:Hpw.
    + rewrite Hname in Hget.
      rewrite (AuthenticateUser_success now username password s l u Hget Hl Hb Hpw)
        in Hrun.
      inversion Hrun; subst. cbn [Auth.um]. apply Hsame. rewrite Hname. exact Hget.
    + rewrite Hname in Hget.
      pose proof (AuthenticateUser_wrong now username password s l u Hget Hl Hb Hpw)
        as Hstep.
      cbv zeta in Hstep. rewrite Hstep in Hrun.
      inversion Hrun; subst. cbn [Auth.um]. apply Hsame. rewrite Hname. exact Hget.
  - intros entropy username newPassword e s' Hrun.
    destruct (ChangePassword_cases _ _ _ _ _ _ Hrun)
      as [[-> _]|(l & u & h & Hget & Hl & Hsec & Hhash & ->)]; [reflexivity|].
    rewrite (ChangePassword_success entropy username newPassword s l u h
               Hget Hl Hsec Hhash) in Hrun.
    inversion Hrun; subst. cbn [Auth.um]. apply Hsame.
    destruct (Hwf _ _ Hget) as (u0 & Hl0 & Hname).
    rewrite Hl in Hl0. inversion Hl0; subst u0. rewrite Hname. exact Hget.
Qed.

(** The correct password of an unblocked user, whatever the counter:
    [AuthSuccess], the counter back at 0, [LastLoginAt] at the clock
    reading, every other field as before. *)
Theorem AuthenticateUser_success_resets now username password s l u :
  Auth.GetUser s (TrimSpace username) = Some l ->
  Auth.heap s !! l = Some u ->
  Auth.IsBlocked u = false ->
  VerifyPassword password (Auth.HashedPassword u) = true ->
  exists s' u',
    Auth.AuthenticateUser now username password s = Some (Auth.AuthSuccess, s') /\
    Auth.heap s' !! l = Some u' /\
    Auth.GetUser s' (TrimSpace username) = Some l /\
    Auth.FailedAttempts u' = 0 /\ Auth.LastLoginAt u' = now /\
    Auth.IsBlocked u' = false /\ Auth.BlockedAt u' = Auth.BlockedAt u /\
    Auth.HashedPassword u' = Auth.HashedPassword u /\
    Auth.Username u' = Auth.Username u /\ Auth.CreatedAt u' = Auth.CreatedAt u /\
    (forall l0, l0 <> l -> Auth.heap s' !! l0 = Auth.heap s !! l0).
Proof.
  intros Hget Hl Hb Hpw.
  rewrite (AuthenticateUser_success now username password s l u Hget Hl Hb Hpw).
  eexists _, _. split; [reflexivity|]. cbn [Auth.heap].
  split; [apply lookup_insert_eq|].
  split; [unfold Auth.GetUser; cbn; apply lookup_insert_same; exact Hget|].
  cbn. repeat split.
  intros l0 Hne. apply lookup_insert_ne. intros Heq. apply Hne. symmetry. exact Heq.
Qed.

(** A blocked user answers [AuthUserBlocked] to every call of a run, with
    right or wrong passwords, and the state never changes. *)
Lemma authenticateAll_blocked_run username l u : forall calls s,
  Auth.GetUser s (TrimSpace username) = Some l ->
  Auth.heap s !! l = Some u ->
  Auth.IsBlocked u = true ->
  Auth.authenticateAll calls username s
    = Some (repeat Auth.AuthUserBlocked (length calls), s).
Proof.
  induction calls as [|[now pw] calls IH]; intros s Hget Hl Hb; [reflexivity|].
  cbn [Auth.authenticateAll].
  rewrite (AuthenticateUser_blocked_step now username pw s l u Hget Hl Hb).
  rewrite (IH s Hget Hl Hb). reflexivity.
Qed.

(** The lockout from any counter below the threshold: with [k] failures
    already counted, the next wrong passwords answer
    [AuthInvalidCredentials] [maxAttempts - k - 1] times, and every call
    from then on answers [AuthUserBlocked]. *)
Theorem authenticateAll_from_counter username l s u (few more : list (Time * string)) :
  Auth.GetUser s (TrimSpace username) = Some l ->
  Auth.heap s !! l = Some u ->
  Auth.IsBlocked u = false ->
  0 <= Auth.FailedAttempts u ->
  Auth.maxAttempts (Auth.um s) < 2 ^ 63 ->
  Auth.FailedAttempts u + Z.of_nat (length few) + 1 = Auth.maxAttempts (Auth.um s) ->
  more <> [] ->
  Forall (fun c => VerifyPassword (snd c) (Auth.HashedPassword u) = false)
         (few ++ firstn 1 more) ->
  exists s' u',
    Auth.authenticateAll (few ++ more) username s
      = Some (repeat Auth.AuthInvalidCredentials (length few)
                ++ repeat Auth.AuthUserBlocked (length more), s') /\
    Auth.heap s' !! l = Some u' /\ Auth.IsBlocked u' = true /\
    Auth.FailedAttempts u' = Auth.maxAttempts (Auth.um s).
Proof.
  intros Hget Hl Hb Hpos Hmax Hk Hmore Hwrong.
  destruct more as [|[now pw] more]; [destruct (Hmore eq_refl)|]. clear Hmore.
  cbn [firstn] in Hwrong. apply Forall_app in Hwrong. destruct Hwrong as [Hfew Hlast].
  inversion Hlast as [|c cs Hpw _]; subst c cs. simpl in Hpw.
  destruct (authenticateAll_below_threshold username l few s u)
    as (s1 & u1 & Hrun & Hget1 & Hl1 & Hb1 & Hcnt1 & Hhash1 & Hmax1);
    try assumption; try lia.
  rewrite <- Hhash1 in Hpw.
  pose proof (AuthenticateUser_wrong now username pw s1 l u1 Hget1 Hl1 Hb1 Hpw) as Hstep.
  cbv zeta in Hstep.
  assert (Hincr : GoInt.incr (Auth.FailedAttempts u1) = Auth.maxAttempts (Auth.um s)).
  { unfold GoInt.incr. rewrite wrap64_id by lia. lia. }
  rewrite Hincr, Hmax1, Z.leb_refl in Hstep.
  match type of Hstep with _ = Some (_, ?s2) => set (s2' := s2) in * end.
  assert (Hrest : Auth.authenticateAll more username s2'
                  = Some (repeat Auth.AuthUserBlocked (length more), s2')).
  { eapply (authenticateAll_blocked_run username l).
    - unfold Auth.GetUser, s2'. cbn. apply lookup_insert_same. exact Hget1.
    - unfold s2'. cbn [Auth.heap]. apply lookup_insert_eq.
    - reflexivity. }
  rewrite authenticateAll_app, Hrun. cbn [Auth.authenticateAll].
  rewrite Hstep, Hrest.
  exists s2'. eexists. split; [reflexivity|].
  split; [unfold s2'; cbn [Auth.heap]; apply lookup_insert_eq|].
  split; reflexivity.
Qed.

(** The way out of the lockout: a blocked user changes the password, and
    the login with the new password succeeds (for a hasher whose hash the
    comparison accepts). *)
Theorem ChangePassword_then_AuthenticateUser
    now entropy username newPassword s l u hashedPassword :
  Auth.GetUser s (TrimSpace username) = Some l ->
  Auth.heap s !! l = Some u ->
  fst (IsPasswordSecure newPassword) = true ->
  HashPassword entropy newPassword = Some hashedPassword ->
  VerifyPassword newPassword hashedPassword = true ->
  exists s1 s2,
    Auth.ChangePassword entropy username newPassword s = Some (None, s1) /\
    Auth.AuthenticateUser now username newPassword s1 = Some (Auth.AuthSuccess, s2) /\
    Auth.heap s2 !! l
      = Some (Auth.mkUser (Auth.Username u) hashedPassword 0 false
                (Auth.CreatedAt u) now zeroTime).
Proof.
  intros Hget Hl Hsec Hhash Hverify.
  rewrite (ChangePassword_success entropy username newPassword s l u hashedPassword
             Hget Hl Hsec Hhash).
  eexists _, _. split; [reflexivity|].
  match goal with |- Auth.AuthenticateUser _ _ _ ?s1 = _ /\ _ => set (s1' := s1) end.
  assert (Hget1 : Auth.GetUser s1' (TrimSpace username) = Some l).
  { unfold Auth.GetUser, s1'. cbn. apply lookup_insert_same. exact Hget. }
  assert (Hl1 : Auth.heap s1' !! l
                = Some (Auth.mkUser (Auth.Username u) hashedPassword 0 false
                          (Auth.CreatedAt u) (Auth.LastLoginAt u) zeroTime)).
  { unfold s1'. cbn [Auth.heap]. apply lookup_insert_eq. }
  rewrite (AuthenticateUser_success now username newPassword s1' l _ Hget1 Hl1 eq_refl
             Hverify).
  split; [reflexivity|]. cbn [Auth.heap]. apply lookup_insert_eq.
Qed.

(** The refusals of [ChangePassword]: an unknown name, a weak password
    (with the list of violations); whenever an error is returned the state
    is as before, the blocked flag included. *)
Theorem ChangePassword_errors entropy username newPassword s :
  (Auth.GetUser s (TrimSpace username) = None ->
     Auth.ChangePassword entropy username newPassword s
       = Some (Some Auth.ErrUserNotFound, s)) /\
  (forall l, Auth.GetUser s (TrimSpace username) = Some l ->
     fst (IsPasswordSecure newPassword) = false ->
     Auth.ChangePassword entropy username newPassword s
       = Some (Some (Auth.ErrWeakPassword
                       (snd (Policy.ValidatePassword newPassword
                               Policy.DefaultPasswordRules))), s)) /\
  (forall e s', Auth.ChangePassword entropy username newPassword s = Some (Some e, s') ->
     s' = s).
Proof.
  split; [|split].
  - intros Hget. unfold Auth.ChangePassword. rewrite Hget. reflexivity.
  - intros l Hget Hweak. unfold Auth.ChangePassword. rewrite Hget.
    unfold IsPasswordSecure in *.
    destruct (Policy.ValidatePassword newPassword Policy.DefaultPasswordRules)
      as [isSecure errors].
    simpl in Hweak. subst isSecure. reflexivity.
  - intros e s' Hrun.
    destruct (ChangePassword_cases _ _ _ _ _ _ Hrun)
      as [[-> _]|(l & u & h & _ & _ & _ & _ & Hnone)]; [reflexivity|discriminate].
Qed.

End ManagerFlows.

Lemma RegisterUser_then_AuthenticateUser_witness :
  exists l s1 s2,
    @Auth.RegisterUser DemoEnv.env demo_now 7 " alice " "Secret-Pass#2024"
       Auth.NewUserManager = (None, s1) /\
    @Auth.AuthenticateUser DemoEnv.env (mkTime 1710919300 0) " alice "
       "Secret-Pass#2024" s1 = Some (Auth.AuthSuccess, s2) /\
    Auth.heap s2 !! l
      = Some (Auth.mkUser (@TrimSpace DemoEnv.env " alice ")
                "$2a$12$7$Secret-Pass#2024" 0 false
                demo_now (mkTime 1710919300 0) zeroTime).
Proof.
  apply (@RegisterUser_then_AuthenticateUser DemoEnv.env demo_now
           (mkTime 1710919300 0) 7 " alice " "Secret-Pass#2024"
           Auth.NewUserManager "$2a$12$7$Secret-Pass#2024").
  - vm_compute. discriminate.
  - reflexivity.
  - vm_compute. reflexivity.
  - vm_compute. reflexivity.
  - vm_compute. reflexivity.
Defined.

Lemma reachable_no_nil_dereference_witness :
  (forall now username password,
     exists r s', @Auth.AuthenticateUser DemoEnv.env now username password demo_locked
                  = Some (r, s')) /\
  (forall entropy username newPassword,
     exists e s', @Auth.ChangePassword DemoEnv.env entropy username newPassword
                    demo_locked = Some (e, s')).
Proof.
  exact (@reachable_no_nil_dereference DemoEnv.env demo_locked demo_locked_reachable).
Defined.

Lemma reachable_names_stable_witness :
  exists s',
    @Auth.AuthenticateUser DemoEnv.env demo_now "alice" "guess" demo_registered
      = Some (Auth.AuthInvalidCredentials, s') /\
    Auth.um s' = Auth.um demo_registered.
Proof.
  eexists. split; [vm_compute; reflexivity|].
  apply (proj1 (proj2 (@reachable_names_stable DemoEnv.env demo_registered
                         (Auth.reach_register demo_now 7 "alice" "Secret-Pass#2024"
                            Auth.NewUserManager Auth.reach_new eq_refl)))
           demo_now "alice" "guess" Auth.AuthInvalidCredentials).
  vm_compute. reflexivity.
Defined.

Lemma AuthenticateUser_success_resets_witness :
  let u := Auth.mkUser "alice" "$2a$12$7$Secret-Pass#2024" 2 false
             demo_now zeroTime zeroTime in
  let s := Auth.write 1%positive u demo_registered in
  exists s' u',
    @Auth.AuthenticateUser DemoEnv.env (mkTime 1710919300 0) "alice"
       "Secret-Pass#2024" s = Some (Auth.AuthSuccess, s') /\
    Auth.heap s' !! 1%positive = Some u' /\
    Auth.FailedAttempts u' = 0 /\ Auth.LastLoginAt u' = mkTime 1710919300 0.
Proof.
  intros u s.
  destruct (@AuthenticateUser_success_resets DemoEnv.env (mkTime 1710919300 0)
              "alice" "Secret-Pass#2024" s 1%positive u)
    as (s' & u' & Hrun & Hl & _ & Hcnt & Hlast & _).
  - vm_compute. reflexivity.
  - vm_compute. reflexivity.
  - reflexivity.
  - vm_compute. reflexivity.
  - exists s', u'. split; [exact Hrun|]. split; [exact Hl|]. split; assumption.
Defined.

Lemma authenticateAll_from_counter_witness :
  exists s' u',
    @Auth.authenticateAll DemoEnv.env
       ([(mkTime 1710919270 0, "guess-1"%string);
         (mkTime 1710919280 0, "guess-2"%string)]
        ++ [(mkTime 1710919290 0, "guess-3"%string);
            (mkTime 1710919295 0, "Secret-Pass#2024"%string)])%list
       "alice" demo_registered
      = Some ([Auth.AuthInvalidCredentials; Auth.AuthInvalidCredentials]
                ++ [Auth.AuthUserBlocked; Auth.AuthUserBlocked], s') /\
    Auth.heap s' !! 1%positive = Some u' /\ Auth.IsBlocked u' = true /\
    Auth.FailedAttempts u' = Auth.maxAttempts (Auth.um demo_registered).
Proof.
  apply (@authenticateAll_from_counter DemoEnv.env "alice" 1%positive demo_registered
           (Auth.mkUser "alice" "$2a$12$7$Secret-Pass#2024" 0 false
              demo_now zeroTime zeroTime)
           [(mkTime 1710919270 0, "guess-1"); (mkTime 1710919280 0, "guess-2")]%string
           [(mkTime 1710919290 0, "guess-3");
            (mkTime 1710919295 0, "Secret-Pass#2024")]%string).
  - vm_compute. reflexivity.
  - vm_compute. reflexivity.
  - reflexivity.
  - apply Z.leb_le. vm_compute. reflexivity.
  - apply Z.ltb_lt. vm_compute. reflexivity.
  - vm_compute. reflexivity.
  - discriminate.
  - repeat constructor.
Defined.

Lemma ChangePassword_then_AuthenticateUser_witness :
  exists s1 s2,
    @Auth.ChangePassword DemoEnv.env 9 "alice" "New-Secret#4711" demo_locked
      = Some (None, s1) /\
    @Auth.AuthenticateUser DemoEnv.env (mkTime 1710919400 0) "alice"
       "New-Secret#4711" s1 = Some (Auth.AuthSuccess, s2) /\
    Auth.heap s2 !! 1%positive
      = Some (Auth.mkUser "alice" "$2a$12$9$New-Secret#4711" 0 false
                demo_now (mkTime 1710919400 0) zeroTime).
Proof.
  apply (@ChangePassword_then_AuthenticateUser DemoEnv.env (mkTime 1710919400 0) 9
           "alice" "New-Secret#4711" demo_locked 1%positive
           (Auth.mkUser "alice" "$2a$12$7$Secret-Pass#2024" 3 true
              demo_now zeroTime (mkTime 1710919290 0))
           "$2a$12$9$New-Secret#4711").
  - vm_compute. reflexivity.
  - vm_compute. reflexivity.
  - vm_compute. reflexivity.
  - vm_compute. reflexivity.
  - vm_compute. reflexivity.
Defined.

Lemma ChangePassword_errors_witness :
  @Auth.ChangePassword DemoEnv.env 9 "bob" "New-Secret#4711" demo_locked
    = Some (Some Auth.ErrUserNotFound, demo_locked) /\
  @Auth.ChangePassword DemoEnv.env 9 "alice" "short" demo_locked
    = Some (Some (Auth.ErrWeakPassword
                    (snd (Policy.ValidatePassword "short"
                            Policy.DefaultPasswordRules))), demo_locked).
Proof.
  split.
  - apply (proj1 (@ChangePassword_errors DemoEnv.env 9 "bob" "New-Secret#4711"
                    demo_locked)).
    vm_compute. reflexivity.
  - apply (proj1 (proj2 (@ChangePassword_errors DemoEnv.env 9 "alice" "short"
                           demo_locked)) 1%positive).
    + vm_compute. reflexivity.
    + vm_compute. reflexivity.
Defined.

(** ** More on the password rules: what the counters count *)

(** What the counters of [ValidatePassword] count: each rune of the
    password is counted in the one list that contains it, and the runes
    that are in none of the four lists are counted nowhere. *)
Theorem classCounts_members (password : string) :
  Z.of_nat (length (Utf8.runes password)) < 2 ^ 63 ->
  Policy.uppercaseCount (Policy.classCounts password)
    = countIn Policy.uppercaseLetters (Utf8.runes password) /\
  Policy.lowercaseCount (Policy.classCounts password)
    = countIn Policy.lowercaseLetters (Utf8.runes password) /\
  Policy.digitCount (Policy.classCounts password)
    = countIn Policy.digits (Utf8.runes password) /\
  Policy.specialCount (Policy.classCounts password)
    = countIn Policy.specialChars (Utf8.runes password) /\
  countIn Policy.uppercaseLetters (Utf8.runes password)
  + countIn Policy.lowercaseLetters (Utf8.runes password)
  + countIn Policy.digits (Utf8.runes password)
  + countIn Policy.specialChars (Utf8.runes password)
  + Z.of_nat (length (List.filter inNoClass (Utf8.runes password)))
    = Z.of_nat (length (Utf8.runes password)).
Proof.
  intros Hlen. unfold Policy.classCounts.
  destruct (fold_count_step (Utf8.runes password) (Policy.mkCounts 0 0 0 0))
    as (Eu & El & Ed & Es);
    try (cbn [Policy.uppercaseCount Policy.lowercaseCount Policy.digitCount
              Policy.specialCount]; lia).
  cbn [Policy.uppercaseCount Policy.lowercaseCount Policy.digitCount
       Policy.specialCount] in Eu, El, Ed, Es.
  rewrite Eu, El, Ed, Es.
  split; [lia|]. split; [lia|]. split; [lia|]. split; [lia|].
  clear. induction (Utf8.runes password) as [|r rs IH]; [reflexivity|].
  rewrite !countIn_cons.
  assert (Hr : (if Utf8.ContainsRune Policy.uppercaseLetters r then 1 else 0)
             + (if Utf8.ContainsRune Policy.lowercaseLetters r then 1 else 0)
             + (if Utf8.ContainsRune Policy.digits r then 1 else 0)
             + (if Utf8.ContainsRune Policy.specialChars r then 1 else 0)
             + (if inNoClass r then 1 else 0) = 1).
  { unfold inNoClass.
    destruct (Utf8.ContainsRune Policy.uppercaseLetters r) eqn:Hu;
      destruct (Utf8.ContainsRune Policy.lowercaseLetters r) eqn:Hl;
      destruct (Utf8.ContainsRune Policy.digits r) eqn:Hd;
      destruct (Utf8.ContainsRune Policy.specialChars r) eqn:Hs;
      try reflexivity; exfalso;
      try apply uppercase_range in Hu; try apply lowercase_range in Hl;
      try apply digits_range in Hd; try apply special_range in Hs; lia. }
  assert (Hf : Z.of_nat (length (List.filter inNoClass (r :: rs)))
               = (if inNoClass r then 1 else 0)
                 + Z.of_nat (length (List.filter inNoClass rs))).
  { cbn [List.filter]. destruct (inNoClass r); cbn [length]; lia. }
  rewrite Hf. cbn [length]. rewrite Nat2Z.inj_succ. lia.
Qed.

Lemma classCounts_members_witness :
  Policy.uppercaseCount (Policy.classCounts "Пароль Ab1!") = 1 /\
  Z.of_nat (length (List.filter inNoClass (Utf8.runes "Пароль Ab1!"))) = 7.
Proof.
  destruct (classCounts_members "Пароль Ab1!") as (Eu & _ & _ & _ & _).
  - apply Z.ltb_lt. vm_compute. reflexivity.
  - split; [rewrite Eu|]; vm_compute; reflexivity.
Defined.

(** ** The password generator *)

Lemma byte_of_ascii_of_N b : 0 <= b < 256 -> byte_of (ascii_of_N (Z.to_N b)) = b.
Proof.
  intros Hb. unfold byte_of. rewrite N_ascii_embedding by lia. lia.
Qed.

Lemma bytes_of_string_of_bytes bs :
  Forall (fun b => 0 <= b < 256) bs -> bytes_of (string_of_bytes bs) = bs.
Proof.
  induction 1 as [|b bs Hb _ IH]; [reflexivity|].
  cbn [string_of_bytes bytes_of]. rewrite byte_of_ascii_of_N by exact Hb.
  f_equal. exact IH.
Qed.

Lemma string_of_bytes_length bs : String.length (string_of_bytes bs) = length bs.
Proof. induction bs as [|b bs IH]; [reflexivity|]. cbn. f_equal. exact IH. Qed.

Lemma decode_cons_ascii b bs : 0 <= b < 128 -> Utf8.decode (b :: bs) = b :: Utf8.decode bs.
Proof.
  intros Hb. cbn [Utf8.decode].
  destruct (Z.ltb_spec b 128) as [_|Hge]; [reflexivity | lia].
Qed.

Lemma decode_ascii bs : Forall (fun b => 0 <= b < 128) bs -> Utf8.decode bs = bs.
Proof.
  induction 1 as [|b bs Hb _ IH]; [reflexivity|].
  rewrite decode_cons_ascii by exact Hb. f_equal. exact IH.
Qed.

Lemma encode_ascii rs : Forall (fun r => 0 <= r < 128) rs -> Utf8.encode rs = rs.
Proof.
  induction 1 as [|r rs Hr _ IH]; [reflexivity|].
  unfold Utf8.encode in *. cbn [flat_map]. rewrite IH.
  unfold Utf8.encode_rune.
  destruct (Z.leb_spec 0 r) as [_|Hlt]; [|lia].
  destruct (Z.leb_spec r 127) as [_|Hgt]; [reflexivity | lia].
Qed.

(** A string built from ASCII runes: ranging over it gives the runes back,
    one byte each. *)
Lemma runes_string_of_ascii rs :
  Forall (fun r => 0 <= r < 128) rs ->
  Utf8.runes (string_of_bytes (Utf8.encode rs)) = rs /\
  String.length (string_of_bytes (Utf8.encode rs)) = length rs.
Proof.
  intros Hrs. rewrite encode_ascii by exact Hrs.
  rewrite string_of_bytes_length. split; [|reflexivity].
  unfold Utf8.runes. rewrite bytes_of_string_of_bytes.
  - apply decode_ascii. exact Hrs.
  - eapply Forall_impl; [exact Hrs|]. simpl. intros; lia.
Qed.

Lemma insert_Permutation_cons {A} (l : list A) : forall i x y,
  l !! i = Some x -> Permutation (y :: l) (x :: <[i:=y]> l).
Proof.
  induction l as [|a l IH]; intros [|i] x y Hi; try discriminate.
  - cbn in Hi. inversion Hi; subst. cbn. apply perm_swap.
  - cbn in Hi. cbn [insert list_insert].
    change (Permutation (y :: a :: l) (x :: a :: <[i:=y]> l)).
    etransitivity; [apply perm_swap|].
    etransitivity; [|apply perm_swap].
    apply perm_skip. apply IH. exact Hi.
Qed.

(** The exchange [runes[i], runes[j] = runes[j], runes[i]]. *)
Lemma swap_Permutation {A} (l : list A) i j x y :
  l !! i = Some x -> l !! j = Some y ->
  Permutation l (<[j:=x]> (<[i:=y]> l)).
Proof.
  intros Hi Hj.
  assert (Hj' : <[i:=y]> l !! j = Some y).
  { apply list_lookup_insert_Some.
    destruct (Nat.eq_dec i j) as [->|Hne].
    - left. split; [reflexivity|]. split; [reflexivity|].
      apply lookup_lt_is_Some. eauto.
    - right. split; assumption. }
  apply (Permutation_cons_inv (a := y)).
  etransitivity; [apply (insert_Permutation_cons l i x y Hi)|].
  etransitivity; [apply (insert_Permutation_cons _ j y x Hj')|].
  reflexivity.
Qed.

Lemma readable_S rd n :
  Generator.readable rd (S n) <->
  Generator.draws rd (Generator.next rd) <> None /\
  Generator.readable
    (Generator.mkReader (Generator.draws rd) (S (Generator.next rd))) n.
Proof.
  unfold Generator.readable. cbn [Generator.draws Generator.next]. split.
  - intros Hr. split.
    + specialize (Hr 0%nat). rewrite Nat.add_0_r in Hr. apply Hr. lia.
    + intros k Hk. specialize (Hr (S k)). rewrite Nat.add_succ_r in Hr.
      apply Hr. lia.
  - intros [H0 Hr] [|k] Hk.
    + rewrite Nat.add_0_r. exact H0.
    + rewrite Nat.add_succ_r. apply (Hr k). lia.
Qed.

Lemma advance_S rd n :
  Generator.advance
    (Generator.mkReader (Generator.draws rd) (S (Generator.next rd))) n
  = Generator.advance rd (S n).
Proof.
  unfold Generator.advance. cbn [Generator.draws Generator.next].
  f_equal. lia.
Qed.

Lemma advance_0 rd : Generator.advance rd 0 = rd.
Proof.
  destruct rd as [d n]. unfold Generator.advance. cbn. f_equal. lia.
Qed.

Lemma advance_add rd n m :
  Generator.advance (Generator.advance rd n) m = Generator.advance rd (n + m).
Proof.
  unfold Generator.advance. cbn [Generator.draws Generator.next]. f_equal. lia.
Qed.

Lemma readable_add rd n m :
  Generator.readable rd (n + m) <->
  Generator.readable rd n /\ Generator.readable (Generator.advance rd n) m.
Proof.
  unfold Generator.readable, Generator.advance.
  cbn [Generator.draws Generator.next]. split.
  - intros Hr. split.
    + intros k Hk. apply Hr. lia.
    + intros k Hk. rewrite <- Nat.add_assoc. apply Hr. lia.
  - intros [Hn Hm] k Hk. destruct (Nat.lt_ge_cases k n) as [Hlt|Hge].
    + apply Hn. exact Hlt.
    + replace k with (n + (k - n))%nat by lia. rewrite Nat.add_assoc.
      apply Hm. lia.
Qed.

Lemma bind_unfold {A B} (m : Generator.M A) (f : A -> Generator.M B) rd :
  Generator.bind m f rd
  = match m rd with
    | (Generator.Ok a, rd1) => f a rd1
    | (Generator.Err e, rd1) => (Generator.Err e, rd1)
    | (Generator.Panic, rd1) => (Generator.Panic, rd1)
    end.
Proof. reflexivity. Qed.

Lemma randInt_ran max rd :
  1 < max ->
  Generator.randInt max rd
  = match Generator.draws rd (Generator.next rd) with
    | Some raw =>
        (Generator.Ok (Some (raw mod max)),
         Generator.mkReader (Generator.draws rd) (S (Generator.next rd)))
    | None =>
        (Generator.Ok None,
         Generator.mkReader (Generator.draws rd) (S (Generator.next rd)))
    end.
Proof.
  intros Hmax. unfold Generator.randInt.
  destruct (Z.leb_spec max 0) as [Hle|_]; [lia|].
  destruct (Z.eqb_spec max 1) as [Heq|_]; [lia | reflexivity].
Qed.

(** A set of one rune: no random number is read. *)
Lemma charsLoop_single c : forall count rd,
  Generator.charsLoop [c] count rd = (Generator.Ok (repeat c count), rd).
Proof.
  induction count as [|m IH]; intros rd; [reflexivity|].
  cbn [Generator.charsLoop repeat]. rewrite bind_unfold.
  change (Generator.randInt (Z.of_nat (length [c])) rd)
    with (Generator.Ok (Some 0), rd).
  cbv beta iota. change ([c] !! Z.to_nat 0) with (Some c). cbv beta iota.
  rewrite bind_unfold, IH. reflexivity.
Qed.

Lemma charsLoop_ran cs : (2 <= length cs)%nat -> forall count rd,
  ran (fun chars => length chars = count /\ Forall (fun c => In c cs) chars)
      (eq Generator.ErrRandom) False count rd (Generator.charsLoop cs count rd).
Proof.
  intros Hcs. assert (Hlen : 1 < Z.of_nat (length cs)) by lia.
  induction count as [|m IH]; intros rd.
  - cbn. rewrite advance_0. repeat split; try constructor.
    intros k Hk. lia.
  - cbn [Generator.charsLoop]. unfold Generator.bind at 1.
    rewrite randInt_ran by exact Hlen.
    destruct (Generator.draws rd (Generator.next rd)) as [raw|] eqn:Hdraw.
    2:{ cbn. split; [reflexivity|]. rewrite readable_S. intros [Hd _].
        apply Hd. exact Hdraw. }
    assert (Hj : (Z.to_nat (raw mod Z.of_nat (length cs)) < length cs)%nat).
    { pose proof (Z.mod_pos_bound raw (Z.of_nat (length cs)) ltac:(lia)). lia. }
    apply lookup_lt_is_Some in Hj. destruct Hj as [c Hc]. rewrite Hc.
    unfold Generator.bind.
    specialize (IH (Generator.mkReader (Generator.draws rd)
                      (S (Generator.next rd)))).
    destruct (Generator.charsLoop cs m _) as [[chars|e|] rd1]; cbn in IH |- *.
    + destruct IH as ((Hl & Hall) & Hrd & Hread).
      rewrite advance_S in Hrd. split.
      * split; [cbn [length]; f_equal; exact Hl|].
        constructor; [|exact Hall].
        apply list_elem_of_In. eapply list_elem_of_lookup_2. exact Hc.
      * split; [exact Hrd|]. apply readable_S. split; [congruence | exact Hread].
    + destruct IH as [He Hn]. split; [exact He|].
      rewrite readable_S. intros [_ Hr]. apply Hn. exact Hr.
    + exact IH.
Qed.

Lemma shuffleLoop_ran i : forall runes rd,
  (i = 0 \/ i < length runes)%nat ->
  ran (fun runes' => Permutation runes runes')
      (eq Generator.ErrShuffle) False i rd (Generator.shuffleLoop i runes rd).
Proof.
  induction i as [|i IH]; intros runes rd Hi.
  - cbn. rewrite advance_0. repeat split; try reflexivity. intros k Hk. lia.
  - destruct Hi as [Hi|Hi]; [discriminate|].
    cbn [Generator.shuffleLoop]. unfold Generator.bind.
    rewrite randInt_ran by lia.
    destruct (Generator.draws rd (Generator.next rd)) as [raw|] eqn:Hdraw.
    2:{ cbn. split; [reflexivity|]. rewrite readable_S. intros [Hd _].
        apply Hd. exact Hdraw. }
    assert (Hj : (Z.to_nat (raw mod (Z.of_nat (S i) + 1)) < length runes)%nat).
    { pose proof (Z.mod_pos_bound raw (Z.of_nat (S i) + 1)). lia. }
    apply lookup_lt_is_Some in Hj. destruct Hj as [y Hy].
    pose proof Hi as Hx. apply lookup_lt_is_Some in Hx. destruct Hx as [x Hx].
    rewrite Hx, Hy.
    specialize (IH (<[Z.to_nat (raw mod (Z.of_nat (S i) + 1)) := x]>
                      (<[S i := y]> runes))
                   (Generator.mkReader (Generator.draws rd)
                      (S (Generator.next rd)))).
    rewrite !length_insert in IH. specialize (IH ltac:(lia)).
    pose proof (swap_Permutation runes _ _ x y Hx Hy) as Hswap.
    destruct (Generator.shuffleLoop i _ _) as [[runes'|e|] rd1]; cbn in IH |- *.
    + destruct IH as (Hperm & Hrd & Hread). rewrite advance_S in Hrd.
      split; [etransitivity; eassumption|].
      split; [exact Hrd|]. apply readable_S. split; [congruence | exact Hread].
    + destruct IH as [He Hn]. split; [exact He|].
      rewrite readable_S. intros [_ Hr]. apply Hn. exact Hr.
    + exact IH.
Qed.

Lemma readable_le rd n m :
  Generator.readable rd n -> (m <= n)%nat -> Generator.readable rd m.
Proof. intros Hr Hle k Hk. apply Hr. lia. Qed.

Lemma ran_bind {A B} (P : A -> Prop) (Q : B -> Prop) E X n k
    (m : Generator.M A) (f : A -> Generator.M B) rd :
  ran P E X n rd (m rd) ->
  (forall a, P a -> Generator.readable rd n ->
     ran Q E X k (Generator.advance rd n) (f a (Generator.advance rd n))) ->
  ran Q E X (n + k) rd (Generator.bind m f rd).
Proof.
  intros Hm Hf. rewrite bind_unfold.
  destruct (m rd) as [[a|e|] rd1]; cbn [ran] in Hm.
  - destruct Hm as (HP & -> & Hr). specialize (Hf a HP Hr).
    destruct (f a (Generator.advance rd n)) as [[b|e|] rd2]; cbn [ran] in Hf |- *.
    + destruct Hf as (HQ & -> & Hr2). split; [exact HQ|].
      split; [apply advance_add|]. apply readable_add. split; assumption.
    + destruct Hf as [He Hn]. split; [exact He|].
      rewrite readable_add. intros [_ Hr2]. apply Hn. exact Hr2.
    + exact Hf.
  - destruct Hm as [He Hn]. cbn [ran]. split; [exact He|].
    rewrite readable_add. intros [Hr _]. apply Hn. exact Hr.
  - exact Hm.
Qed.

Lemma ran_ret {A} (P : A -> Prop) E X (a : A) rd :
  P a -> ran P E X 0 rd (Generator.ret a rd).
Proof.
  intros HP. cbn. rewrite advance_0. split; [exact HP|]. split; [reflexivity|].
  intros k Hk. lia.
Qed.

Lemma ran_weaken {A} (P Q : A -> Prop) (E F : Generator.Error -> Prop)
    (X Y : Prop) n m rd r :
  ran P E X n rd r -> (forall a, P a -> Q a) -> (forall e, E e -> F e) ->
  (X -> Y) -> n = m ->
  ran Q F Y m rd r.
Proof.
  intros Hr HPQ HEF HXY <-. destruct r as [[a|e|] rd1]; cbn [ran] in *.
  - destruct Hr as (HP & Hrd & Hread). split; [apply HPQ; exact HP|].
    split; assumption.
  - destruct Hr as [He Hn]. split; [apply HEF; exact He | exact Hn].
  - apply HXY. exact Hr.
Qed.

Section GeneratorFacts.
Context `{Generator.Runtime}.

Lemma generateCharsFromSet_ran charset count rd :
  (2 <= length (Utf8.runes charset))%nat -> 0 <= count ->
  ran (fun chars => length chars = Z.to_nat count /\
                    Forall (fun c => In c (Utf8.runes charset)) chars)
      (eq Generator.ErrRandom) (Generator.capacity < count) (Z.to_nat count) rd
      (Generator.generateCharsFromSet charset count rd).
Proof.
  intros Hcs Hcount. unfold Generator.generateCharsFromSet.
  destruct (Z.ltb_spec count 0) as [Hneg|_]; [lia|].
  destruct (Z.ltb_spec Generator.capacity count) as [Hbig|Hfit]; cbn [orb].
  - exact Hbig.
  - eapply ran_weaken;
      [ apply charsLoop_ran; exact Hcs | intros a Ha; exact Ha
      | intros e He; exact He | intros [] | reflexivity ].
Qed.

(** One of the four blocks that add the required characters of a class. *)
Lemma block_ran (bound : Z) (require : bool) (min : Z) (charset : string)
    (password : list Z) (remainingLength : Z) rd :
  (2 <= length (Utf8.runes charset))%nat -> 0 <= min -> min <= bound ->
  - 2 ^ 63 <= remainingLength - min -> remainingLength < 2 ^ 63 ->
  ran (fun st => exists chars,
         st = (password ++ chars, remainingLength - Z.of_nat (length chars)) /\
         length chars = need require min /\
         Forall (fun c => Utf8.ContainsRune charset c = true) chars)
      (eq Generator.ErrRandom) (Generator.capacity < bound) (need require min) rd
      ((if require && (0 <? min)
        then Generator.bind (Generator.generateCharsFromSet charset min)
               (fun chars =>
                  Generator.ret (password ++ chars,
                                 GoInt.wrap64 (remainingLength - min)))
        else Generator.ret (password, remainingLength)) rd).
Proof.
  intros Hcs Hmin Hbound Hlo Hhi. unfold need.
  destruct (require && (0 <? min)) eqn:Hb.
  - eapply ran_weaken with (P := fun st => exists chars,
         st = (password ++ chars, remainingLength - Z.of_nat (length chars)) /\
         length chars = Z.to_nat min /\
         Forall (fun c => Utf8.ContainsRune charset c = true) chars)
       (E := eq Generator.ErrRandom) (X := Generator.capacity < min)
       (n := (Z.to_nat min + 0)%nat);
      [ | intros st Hst; exact Hst | intros e He; exact He | lia | lia].
    eapply ran_bind; [apply generateCharsFromSet_ran; assumption|].
    intros chars [Hl Hall] _. apply ran_ret. exists chars.
    split; [|split; [exact Hl|]].
    + rewrite Hl, Z2Nat.id by exact Hmin. rewrite wrap64_id by lia. reflexivity.
    + eapply Forall_impl; [exact Hall|]. intros c Hc. apply ContainsRune_In. exact Hc.
  - apply ran_ret. exists []. rewrite app_nil_r. cbn [length].
    split; [f_equal; lia|]. split; [reflexivity | constructor].
Qed.

(** The block that fills the password up to its length. *)
Lemma fill_ran (rules : Policy.PasswordRules) (password : list Z)
    (remainingLength : Z) rd :
  Policy.RequireUppercase rules || Policy.RequireLowercase rules
  || Policy.RequireDigits rules || Policy.RequireSpecial rules = true ->
  0 <= remainingLength -> remainingLength <= Policy.Length rules ->
  ran (fun pw => exists chars,
         pw = password ++ chars /\
         length chars = Z.to_nat remainingLength /\
         Forall (fun c => inRequired rules c = true) chars)
      (eq Generator.ErrRandom) (Generator.capacity < Policy.Length rules)
      (Z.to_nat remainingLength) rd
      ((if 0 <? remainingLength then
          let allChars := EmptyString in
          let allChars :=
            if Policy.RequireUppercase rules
            then (allChars ++ Policy.uppercaseLetters)%string else allChars in
          let allChars :=
            if Policy.RequireLowercase rules
            then (allChars ++ Policy.lowercaseLetters)%string else allChars in
          let allChars :=
            if Policy.RequireDigits rules
            then (allChars ++ Policy.digits)%string else allChars in
          let allChars :=
            if Policy.RequireSpecial rules
            then (allChars ++ Policy.specialChars)%string else allChars in
          if String.eqb allChars EmptyString then Generator.fail Generator.ErrNoCharset
          else
            Generator.bind (Generator.generateCharsFromSet allChars remainingLength)
              (fun chars => Generator.ret (password ++ chars))
        else Generator.ret password) rd).
Proof.
  intros Hsome Hrem Hbound.
  destruct (Z.ltb_spec 0 remainingLength) as [Hpos|Hzero].
  2:{ replace remainingLength with 0 by lia. apply ran_ret. exists [].
      rewrite app_nil_r. split; [reflexivity|]. split; [reflexivity | constructor]. }
  cbv zeta.
  match goal with
  | |- context [String.eqb ?s EmptyString] => set (allChars := s)
  end.
  assert (Hne : String.eqb allChars EmptyString = false).
  { unfold allChars.
    destruct (Policy.RequireUppercase rules), (Policy.RequireLowercase rules),
      (Policy.RequireDigits rules), (Policy.RequireSpecial rules);
      try discriminate Hsome; vm_compute; reflexivity. }
  assert (Hrunes : (2 <=? length (Utf8.runes allChars))%nat = true).
  { unfold allChars.
    destruct (Policy.RequireUppercase rules), (Policy.RequireLowercase rules),
      (Policy.RequireDigits rules), (Policy.RequireSpecial rules);
      try discriminate Hsome; vm_compute; reflexivity. }
  apply Nat.leb_le in Hrunes.
  assert (Hmem : forallb (inRequired rules) (Utf8.runes allChars) = true).
  { unfold allChars, inRequired.
    destruct (Policy.RequireUppercase rules), (Policy.RequireLowercase rules),
      (Policy.RequireDigits rules), (Policy.RequireSpecial rules);
      try discriminate Hsome; vm_compute; reflexivity. }
  rewrite Hne. clearbody allChars.
  eapply ran_weaken with (E := eq Generator.ErrRandom)
                         (X := Generator.capacity < remainingLength)
                         (n := (Z.to_nat remainingLength + 0)%nat);
    [ | intros pw Hpw; exact Hpw | intros e He; exact He | lia | lia].
  eapply ran_bind; [apply generateCharsFromSet_ran; [exact Hrunes | lia]|].
  intros chars [Hl Hall] _. apply ran_ret. exists chars.
  split; [reflexivity|]. split; [exact Hl|].
  eapply Forall_impl; [exact Hall|]. intros c Hc.
  rewrite forallb_forall in Hmem. apply Hmem. exact Hc.
Qed.

Lemma need_range require min :
  0 <= min -> 0 <= Z.of_nat (need require min) <= min.
Proof. intros Hmin. unfold need. destruct (require && (0 <? min)); lia. Qed.

Lemma need_true min : 0 <= min -> Z.of_nat (need true min) = min.
Proof.
  intros Hmin. unfold need. cbn [andb].
  destruct (Z.ltb_spec 0 min); lia.
Qed.

Lemma need_false min : need false min = 0%nat.
Proof. reflexivity. Qed.

Lemma countIn_app charset rs1 rs2 :
  countIn charset (rs1 ++ rs2) = countIn charset rs1 + countIn charset rs2.
Proof.
  unfold countIn. rewrite List.filter_app, length_app. lia.
Qed.

Lemma countIn_all charset rs :
  Forall (fun c => Utf8.ContainsRune charset c = true) rs ->
  countIn charset rs = Z.of_nat (length rs).
Proof.
  induction 1 as [|r rs Hr _ IH]; [reflexivity|].
  rewrite countIn_cons, Hr, IH. cbn [length]. lia.
Qed.

Lemma countIn_Permutation charset rs rs' :
  Permutation rs rs' -> countIn charset rs = countIn charset rs'.
Proof.
  induction 1 as [|x l l' _ IH|x y l|l l' l'' _ IH1 _ IH2].
  - reflexivity.
  - rewrite !countIn_cons, IH. reflexivity.
  - rewrite !countIn_cons. lia.
  - rewrite IH1. exact IH2.
Qed.

Lemma class_inRequired rules (require : bool) charset chars n :
  (require = true ->
     forall c, Utf8.ContainsRune charset c = true -> inRequired rules c = true) ->
  length chars = need require n ->
  Forall (fun c => Utf8.ContainsRune charset c = true) chars ->
  Forall (fun c => inRequired rules c = true) chars.
Proof.
  intros Hreq Hlen Hall. destruct require.
  - eapply Forall_impl; [exact Hall|]. apply Hreq. reflexivity.
  - rewrite need_false in Hlen. destruct chars; [constructor | discriminate].
Qed.

Lemma GeneratePassword_ran (rules : Policy.PasswordRules) rd :
  sane rules ->
  4 <= Policy.Length rules ->
  Policy.MinUppercase rules + Policy.MinLowercase rules
  + Policy.MinDigits rules + Policy.MinSpecial rules <= Policy.Length rules ->
  Policy.RequireUppercase rules || Policy.RequireLowercase rules
  || Policy.RequireDigits rules || Policy.RequireSpecial rules = true ->
  ran (generated rules) genErr (Generator.capacity < Policy.Length rules)
      (Z.to_nat (2 * Policy.Length rules - 1)) rd
      (Generator.GeneratePassword rules rd).
Proof.
  intros (HL & Hu & Hl & Hd & Hs & Hsum) H4 Hmin Hsome.
  unfold Generator.GeneratePassword.
  destruct (Z.ltb_spec (Policy.Length rules) 4) as [Hlt|_]; [lia|].
  rewrite (wrap64_id (Policy.MinUppercase rules + Policy.MinLowercase rules)) by lia.
  rewrite (wrap64_id (Policy.MinUppercase rules + Policy.MinLowercase rules
                      + Policy.MinDigits rules)) by lia.
  rewrite (wrap64_id (Policy.MinUppercase rules + Policy.MinLowercase rules
                      + Policy.MinDigits rules + Policy.MinSpecial rules)) by lia.
  destruct (Z.ltb_spec (Policy.Length rules)
              (Policy.MinUppercase rules + Policy.MinLowercase rules
               + Policy.MinDigits rules + Policy.MinSpecial rules)) as [Hlt|_]; [lia|].
  pose proof (need_range (Policy.RequireUppercase rules) _ Hu) as N1.
  pose proof (need_range (Policy.RequireLowercase rules) _ Hl) as N2.
  pose proof (need_range (Policy.RequireDigits rules) _ Hd) as N3.
  pose proof (need_range (Policy.RequireSpecial rules) _ Hs) as N4.
  set (n1 := need (Policy.RequireUppercase rules) (Policy.MinUppercase rules)) in *.
  set (n2 := need (Policy.RequireLowercase rules) (Policy.MinLowercase rules)) in *.
  set (n3 := need (Policy.RequireDigits rules) (Policy.MinDigits rules)) in *.
  set (n4 := need (Policy.RequireSpecial rules) (Policy.MinSpecial rules)) in *.
  set (nf := Z.to_nat (Policy.Length rules - Z.of_nat n1 - Z.of_nat n2
                       - Z.of_nat n3 - Z.of_nat n4)).
  set (ns := (Z.to_nat (Policy.Length rules) - 1)%nat).
  assert (HE : forall e, Generator.ErrRandom = e -> genErr e)
    by (intros e <-; left; reflexivity).
  assert (HS : forall e, Generator.ErrShuffle = e -> genErr e)
    by (intros e <-; right; reflexivity).
  eapply ran_weaken with (E := genErr)
      (X := Generator.capacity < Policy.Length rules)
      (n := (n1 + (n2 + (n3 + (n4 + (nf + (ns + 0))))))%nat);
    [ | intros pw Hpw; exact Hpw | intros e He; exact He | intros HX; exact HX
      | unfold nf, ns; lia ].
  cbv zeta.
  (* uppercase *)
  eapply ran_bind.
  { eapply ran_weaken;
      [ apply (block_ran (Policy.Length rules)
                 (Policy.RequireUppercase rules) (Policy.MinUppercase rules)
                 Policy.uppercaseLetters [] (Policy.Length rules) rd);
        [apply Nat.leb_le; vm_compute; reflexivity | lia | lia | lia | lia]
      | intros st Hst; exact Hst | exact HE | intros HX; exact HX | reflexivity ]. }
  intros st (c1 & -> & L1 & C1) _. cbv beta iota.
  (* lowercase *)
  eapply ran_bind.
  { eapply ran_weaken;
      [ apply (block_ran (Policy.Length rules)
                 (Policy.RequireLowercase rules) (Policy.MinLowercase rules)
                 Policy.lowercaseLetters);
        [apply Nat.leb_le; vm_compute; reflexivity | lia | lia
        | rewrite L1; fold n1; lia | lia]
      | intros st Hst; exact Hst | exact HE | intros HX; exact HX | reflexivity ]. }
  intros st (c2 & -> & L2 & C2) _. cbv beta iota.
  (* digits *)
  eapply ran_bind.
  { eapply ran_weaken;
      [ apply (block_ran (Policy.Length rules)
                 (Policy.RequireDigits rules) (Policy.MinDigits rules)
                 Policy.digits);
        [apply Nat.leb_le; vm_compute; reflexivity | lia | lia
        | rewrite L1, L2; fold n1 n2; lia | lia]
      | intros st Hst; exact Hst | exact HE | intros HX; exact HX | reflexivity ]. }
  intros st (c3 & -> & L3 & C3) _. cbv beta iota.
  (* special *)
  eapply ran_bind.
  { eapply ran_weaken;
      [ apply (block_ran (Policy.Length rules)
                 (Policy.RequireSpecial rules) (Policy.MinSpecial rules)
                 Policy.specialChars);
        [apply Nat.leb_le; vm_compute; reflexivity | lia | lia
        | rewrite L1, L2, L3; fold n1 n2 n3; lia | lia]
      | intros st Hst; exact Hst | exact HE | intros HX; exact HX | reflexivity ]. }
  intros st (c4 & -> & L4 & C4) _. cbv beta iota.
  (* the rest *)
  eapply ran_bind.
  { eapply ran_weaken;
      [ apply (fill_ran rules);
        [ exact Hsome | rewrite L1, L2, L3, L4; fold n1 n2 n3 n4; lia
        | rewrite L1, L2, L3, L4; fold n1 n2 n3 n4; lia ]
      | intros pw Hpw; exact Hpw | exact HE | intros HX; exact HX
      | rewrite L1, L2, L3, L4; reflexivity ]. }
  intros password (c5 & Hpw & L5 & C5) _.
  assert (Hlen : length password = Z.to_nat (Policy.Length rules)).
  { rewrite Hpw, !length_app, L1, L2, L3, L4, L5. cbn [length].
    fold n1 n2 n3 n4. lia. }
  (* shuffle *)
  eapply ran_bind.
  { eapply ran_weaken;
      [ apply (shuffleLoop_ran (length password - 1)); lia
      | intros rs Hrs; exact Hrs | exact HS | intros []
      | rewrite Hlen; reflexivity ]. }
  intros rs Hperm _. apply ran_ret. exists rs.
  split; [reflexivity|].
  split; [rewrite <- (Permutation_length Hperm), Hlen; lia|].
  assert (R1 : Forall (fun c => inRequired rules c = true) c1).
  { eapply class_inRequired; [|exact L1|exact C1].
    intros Hr c Hc. unfold inRequired. rewrite Hr, Hc. reflexivity. }
  assert (R2 : Forall (fun c => inRequired rules c = true) c2).
  { eapply class_inRequired; [|exact L2|exact C2].
    intros Hr c Hc. unfold inRequired. rewrite Hr, Hc.
    rewrite !orb_true_r. reflexivity. }
  assert (R3 : Forall (fun c => inRequired rules c = true) c3).
  { eapply class_inRequired; [|exact L3|exact C3].
    intros Hr c Hc. unfold inRequired. rewrite Hr, Hc.
    rewrite !orb_true_r. reflexivity. }
  assert (R4 : Forall (fun c => inRequired rules c = true) c4).
  { eapply class_inRequired; [|exact L4|exact C4].
    intros Hr c Hc. unfold inRequired. rewrite Hr, Hc.
    rewrite !orb_true_r. reflexivity. }
  split.
  { rewrite <- Hperm, Hpw. rewrite !Forall_app. repeat split; try assumption. constructor. }
  pose proof (countIn_range Policy.uppercaseLetters) as G1.
  pose proof (countIn_range Policy.lowercaseLetters) as G2.
  pose proof (countIn_range Policy.digits) as G3.
  pose proof (countIn_range Policy.specialChars) as G4.
  rewrite <- !(countIn_Permutation _ _ _ Hperm), Hpw, !countIn_app.
  split; [|split; [|split]]; intros Hreq.
  - rewrite (countIn_all _ c1 C1), L1. unfold n1. rewrite Hreq, need_true by exact Hu.
    pose proof (G1 c2); pose proof (G1 c3); pose proof (G1 c4); pose proof (G1 c5).
    pose proof (G1 []). lia.
  - rewrite (countIn_all _ c2 C2), L2. unfold n2. rewrite Hreq, need_true by exact Hl.
    pose proof (G2 c1); pose proof (G2 c3); pose proof (G2 c4); pose proof (G2 c5).
    pose proof (G2 []). lia.
  - rewrite (countIn_all _ c3 C3), L3. unfold n3. rewrite Hreq, need_true by exact Hd.
    pose proof (G3 c1); pose proof (G3 c2); pose proof (G3 c4); pose proof (G3 c5).
    pose proof (G3 []). lia.
  - rewrite (countIn_all _ c4 C4), L4. unfold n4. rewrite Hreq, need_true by exact Hs.
    pose proof (G4 c1); pose proof (G4 c2); pose proof (G4 c3); pose proof (G4 c5).
    pose proof (G4 []). lia.
Qed.

(** What [ran] says, case by case. *)
Lemma ran_elim {A} (P : A -> Prop) E (X : Prop) n rd
    (r : Generator.Outcome A * Generator.Reader) :
  ran P E X n rd r ->
  (forall a rd', r = (Generator.Ok a, rd') ->
     P a /\ rd' = Generator.advance rd n /\ Generator.readable rd n) /\
  (~ X -> Generator.readable rd n ->
     exists a, r = (Generator.Ok a, Generator.advance rd n) /\ P a) /\
  (forall e rd', r = (Generator.Err e, rd') -> E e /\ ~ Generator.readable rd n) /\
  (~ X -> ~ Generator.readable rd n ->
     exists e rd', r = (Generator.Err e, rd') /\ E e) /\
  (~ X -> fst r <> Generator.Panic).
Proof.
  intros Hr. destruct r as [[a|e|] rd1]; cbn [ran] in Hr.
  - destruct Hr as (HP & -> & Hread). split; [|split; [|split; [|split]]].
    + intros a' rd' Heq. inversion Heq; subst. repeat split; assumption.
    + intros _ _. exists a. split; [reflexivity | exact HP].
    + intros e rd' Heq. discriminate Heq.
    + intros _ Hn. destruct (Hn Hread).
    + intros _. discriminate.
  - destruct Hr as [He Hn]. split; [|split; [|split; [|split]]].
    + intros a rd' Heq. discriminate Heq.
    + intros _ Hread. destruct (Hn Hread).
    + intros e' rd' Heq. inversion Heq; subst. split; assumption.
    + intros _ _. exists e, rd1. split; [reflexivity | exact He].
    + intros _. discriminate.
  - split; [|split; [|split; [|split]]].
    + intros a rd' Heq. discriminate Heq.
    + intros HX. destruct (HX Hr).
    + intros e rd' Heq. discriminate Heq.
    + intros HX. destruct (HX Hr).
    + intros HX. destruct (HX Hr).
Qed.

Lemma validate_ok (password : string) (rules : Policy.PasswordRules) :
  (Z.of_nat (String.length password) <? Policy.Length rules) = false ->
  Policy.RequireUppercase rules
  && (Policy.uppercaseCount (Policy.classCounts password)
      <? Policy.MinUppercase rules) = false ->
  Policy.RequireLowercase rules
  && (Policy.lowercaseCount (Policy.classCounts password)
      <? Policy.MinLowercase rules) = false ->
  Policy.RequireDigits rules
  && (Policy.digitCount (Policy.classCounts password)
      <? Policy.MinDigits rules) = false ->
  Policy.RequireSpecial rules
  && (Policy.specialCount (Policy.classCounts password)
      <? Policy.MinSpecial rules) = false ->
  Policy.ValidatePassword password rules = (true, []).
Proof.
  intros H1 H2 H3 H4 H5. unfold Policy.ValidatePassword.
  rewrite H1, H2, H3, H4, H5. reflexivity.
Qed.

Lemma required_ascii rules c : inRequired rules c = true -> 0 <= c < 128.
Proof.
  unfold inRequired. rewrite !orb_true_iff, !andb_true_iff.
  intros [[[[_ Hc]|[_ Hc]]|[_ Hc]]|[_ Hc]].
  - apply uppercase_range in Hc. lia.
  - apply lowercase_range in Hc. lia.
  - apply digits_range in Hc. lia.
  - apply special_range in Hc. lia.
Qed.

(** A generated password passes the rules it was generated for, and every
    rule set that asks for no more. *)
Lemma generated_valid (rules rules' : Policy.PasswordRules) (password : string) :
  Policy.Length rules < 2 ^ 63 ->
  generated rules password ->
  Policy.Length rules' <= Policy.Length rules ->
  (Policy.RequireUppercase rules' = true ->
     Policy.RequireUppercase rules = true /\
     Policy.MinUppercase rules' <= Policy.MinUppercase rules) ->
  (Policy.RequireLowercase rules' = true ->
     Policy.RequireLowercase rules = true /\
     Policy.MinLowercase rules' <= Policy.MinLowercase rules) ->
  (Policy.RequireDigits rules' = true ->
     Policy.RequireDigits rules = true /\
     Policy.MinDigits rules' <= Policy.MinDigits rules) ->
  (Policy.RequireSpecial rules' = true ->
     Policy.RequireSpecial rules = true /\
     Policy.MinSpecial rules' <= Policy.MinSpecial rules) ->
  Policy.ValidatePassword password rules' = (true, []) /\
  Z.of_nat (String.length password) = Policy.Length rules /\
  Forall (fun c => inRequired rules c = true) (Utf8.runes password).
Proof.
  intros HL (rs & -> & Hlen & Hreq & Cu & Cl & Cd & Cs) WL Wu Wl Wd Ws.
  assert (Hascii : Forall (fun r => 0 <= r < 128) rs).
  { eapply Forall_impl; [exact Hreq|]. apply required_ascii. }
  destruct (runes_string_of_ascii rs Hascii) as [Hrunes Hbytes].
  split; [|split; [rewrite Hbytes; exact Hlen | rewrite Hrunes; exact Hreq]].
  destruct (fold_count_step rs (Policy.mkCounts 0 0 0 0)) as (Eu & El & Ed & Es);
    try (cbn [Policy.uppercaseCount Policy.lowercaseCount Policy.digitCount
              Policy.specialCount]; lia).
  cbn [Policy.uppercaseCount Policy.lowercaseCount Policy.digitCount
       Policy.specialCount] in Eu, El, Ed, Es.
  apply validate_ok; unfold Policy.classCounts; rewrite ?Hrunes.
  - rewrite Hbytes. apply Z.ltb_ge. lia.
  - rewrite Eu. destruct (Policy.RequireUppercase rules'); [|reflexivity].
    apply Z.ltb_ge. destruct (Wu eq_refl) as [Hr Hm]. specialize (Cu Hr). lia.
  - rewrite El. destruct (Policy.RequireLowercase rules'); [|reflexivity].
    apply Z.ltb_ge. destruct (Wl eq_refl) as [Hr Hm]. specialize (Cl Hr). lia.
  - rewrite Ed. destruct (Policy.RequireDigits rules'); [|reflexivity].
    apply Z.ltb_ge. destruct (Wd eq_refl) as [Hr Hm]. specialize (Cd Hr). lia.
  - rewrite Es. destruct (Policy.RequireSpecial rules'); [|reflexivity].
    apply Z.ltb_ge. destruct (Ws eq_refl) as [Hr Hm]. specialize (Cs Hr). lia.
Qed.

(** The refusals of [GeneratePassword], none of which touches the reader. *)
Lemma GeneratePassword_refusals (rules : Policy.PasswordRules) rd :
  let minRequired :=
    GoInt.wrap64
      (GoInt.wrap64
         (GoInt.wrap64 (Policy.MinUppercase rules + Policy.MinLowercase rules)
          + Policy.MinDigits rules)
       + Policy.MinSpecial rules) in
  (Policy.Length rules < 4 ->
     Generator.GeneratePassword rules rd = (Generator.Err Generator.ErrLength, rd)) /\
  (4 <= Policy.Length rules -> Policy.Length rules < minRequired ->
     Generator.GeneratePassword rules rd
     = (Generator.Err (Generator.ErrMinRequired minRequired (Policy.Length rules)),
        rd)) /\
  (4 <= Policy.Length rules -> minRequired <= Policy.Length rules ->
     Policy.RequireUppercase rules || Policy.RequireLowercase rules
     || Policy.RequireDigits rules || Policy.RequireSpecial rules = false ->
     Generator.GeneratePassword rules rd
     = (Generator.Err Generator.ErrNoCharset, rd)).
Proof.
  intros minRequired. unfold Generator.GeneratePassword. fold minRequired.
  split; [|split].
  - intros Hlt. destruct (Z.ltb_spec (Policy.Length rules) 4); [reflexivity | lia].
  - intros H4 Hlt.
    destruct (Z.ltb_spec (Policy.Length rules) 4); [lia|].
    destruct (Z.ltb_spec (Policy.Length rules) minRequired); [reflexivity | lia].
  - intros H4 Hle Hnone.
    destruct (Z.ltb_spec (Policy.Length rules) 4); [lia|].
    destruct (Z.ltb_spec (Policy.Length rules) minRequired); [lia|].
    apply orb_false_iff in Hnone. destruct Hnone as [Hnone Hs].
    apply orb_false_iff in Hnone. destruct Hnone as [Hnone Hd].
    apply orb_false_iff in Hnone. destruct Hnone as [Hu Hl].
    rewrite Hu, Hl, Hd, Hs. cbn [andb]. cbv zeta.
    rewrite bind_unfold. cbn [Generator.ret]. cbv beta iota.
    rewrite bind_unfold. cbn [Generator.ret]. cbv beta iota.
    rewrite bind_unfold. cbn [Generator.ret]. cbv beta iota.
    rewrite bind_unfold. cbn [Generator.ret]. cbv beta iota.
    rewrite bind_unfold.
    destruct (Z.ltb_spec 0 (Policy.Length rules)); [|lia].
    reflexivity.
Qed.

(** [generateCharsFromSet].  [make] comes first and does not return for a
    negative count or one beyond what it serves.  After it, an empty
    character set makes [rand.Int] panic at the first character; a set of
    one rune is copied [count] times without a random number being read,
    so that nothing can fail; a larger set gives [count] of its runes, one
    draw each, or the error of the first draw that fails. *)
Theorem generateCharsFromSet_chars (charset : string) (count : Z) rd :
  (count < 0 \/ Generator.capacity < count ->
     Generator.generateCharsFromSet charset count rd = (Generator.Panic, rd)) /\
  (0 < count <= Generator.capacity -> Utf8.runes charset = [] ->
     Generator.generateCharsFromSet charset count rd = (Generator.Panic, rd)) /\
  (forall c, 0 <= count <= Generator.capacity -> Utf8.runes charset = [c] ->
     Generator.generateCharsFromSet charset count rd
     = (Generator.Ok (repeat c (Z.to_nat count)), rd)) /\
  (0 <= count <= Generator.capacity -> (2 <= length (Utf8.runes charset))%nat ->
     (forall chars rd',
        Generator.generateCharsFromSet charset count rd = (Generator.Ok chars, rd') ->
        Z.of_nat (length chars) = count /\
        Forall (fun c => Utf8.ContainsRune charset c = true) chars /\
        rd' = Generator.advance rd (Z.to_nat count)) /\
     (Generator.readable rd (Z.to_nat count) ->
        exists chars,
          Generator.generateCharsFromSet charset count rd
          = (Generator.Ok chars, Generator.advance rd (Z.to_nat count))) /\
     (~ Generator.readable rd (Z.to_nat count) ->
        exists rd',
          Generator.generateCharsFromSet charset count rd
          = (Generator.Err Generator.ErrRandom, rd'))).
Proof.
  split; [|split; [|split]].
  - intros Hbad. unfold Generator.generateCharsFromSet.
    destruct (Z.ltb_spec count 0) as [_|Hpos]; [reflexivity|].
    destruct (Z.ltb_spec Generator.capacity count) as [_|Hfit]; [reflexivity|].
    lia.
  - intros Hcount Hnil. unfold Generator.generateCharsFromSet.
    destruct (Z.ltb_spec count 0); [lia|].
    destruct (Z.ltb_spec Generator.capacity count); [lia|]. cbn [orb].
    rewrite Hnil.
    destruct (Z.to_nat count) as [|m] eqn:Hm; [lia|]. reflexivity.
  - intros c Hcount Hone. unfold Generator.generateCharsFromSet.
    destruct (Z.ltb_spec count 0); [lia|].
    destruct (Z.ltb_spec Generator.capacity count); [lia|]. cbn [orb].
    rewrite Hone. apply charsLoop_single.
  - intros Hcount Hcs.
    destruct (ran_elim _ _ _ _ _ _
                (generateCharsFromSet_ran charset count rd Hcs (proj1 Hcount)))
      as (Hok & Hread & _ & Herr & _).
    split; [|split].
    + intros chars rd' Heq. destruct (Hok chars rd' Heq) as ((Hl & Hall) & Hrd & _).
      split; [lia|]. split; [|exact Hrd].
      eapply Forall_impl; [exact Hall|]. intros c Hc. apply ContainsRune_In. exact Hc.
    + intros Hr. destruct (Hread ltac:(lia) Hr) as (chars & Heq & _).
      exists chars. exact Heq.
    + intros Hn. destruct (Herr ltac:(lia) Hn) as (e & rd' & Heq & <-).
      exists rd'. exact Heq.
Qed.

(** [shuffleRunes] returns a permutation of its argument after one draw
    for each index but the first; it fails with the reader and never
    indexes out of range. *)
Theorem shuffleRunes_permutation (runes : list Z) rd :
  (forall runes' rd',
     Generator.shuffleRunes runes rd = (Generator.Ok runes', rd') ->
     Permutation runes runes' /\
     rd' = Generator.advance rd (length runes - 1)) /\
  (Generator.readable rd (length runes - 1) ->
     exists runes',
       Generator.shuffleRunes runes rd
       = (Generator.Ok runes', Generator.advance rd (length runes - 1))) /\
  (~ Generator.readable rd (length runes - 1) ->
     exists rd',
       Generator.shuffleRunes runes rd = (Generator.Err Generator.ErrShuffle, rd')) /\
  fst (Generator.shuffleRunes runes rd) <> Generator.Panic.
Proof.
  unfold Generator.shuffleRunes.
  destruct (ran_elim _ _ _ _ _ _
              (shuffleLoop_ran (length runes - 1) runes rd ltac:(lia)))
    as (Hok & Hread & _ & Herr & Hpanic).
  split; [|split; [|split]].
  - intros runes' rd' Heq. destruct (Hok runes' rd' Heq) as (Hperm & Hrd & _).
    split; assumption.
  - intros Hr. destruct (Hread (fun x => x) Hr) as (runes' & Heq & _).
    exists runes'. exact Heq.
  - intros Hn. destruct (Herr (fun x => x) Hn) as (e & rd' & Heq & <-).
    exists rd'. exact Heq.
  - exact (Hpanic (fun x => x)).
Qed.

(** The refusals of [GeneratePassword], in the order of its checks: a
    length below 4, minimums that exceed the length, no character class
    chosen.  None of them reads a random number. *)
Theorem GeneratePassword_errors (rules : Policy.PasswordRules) rd :
  let minRequired :=
    GoInt.wrap64
      (GoInt.wrap64
         (GoInt.wrap64 (Policy.MinUppercase rules + Policy.MinLowercase rules)
          + Policy.MinDigits rules)
       + Policy.MinSpecial rules) in
  (Policy.Length rules < 4 ->
     Generator.GeneratePassword rules rd = (Generator.Err Generator.ErrLength, rd)) /\
  (4 <= Policy.Length rules -> Policy.Length rules < minRequired ->
     Generator.GeneratePassword rules rd
     = (Generator.Err (Generator.ErrMinRequired minRequired (Policy.Length rules)),
        rd)) /\
  (4 <= Policy.Length rules -> minRequired <= Policy.Length rules ->
     Policy.RequireUppercase rules || Policy.RequireLowercase rules
     || Policy.RequireDigits rules || Policy.RequireSpecial rules = false ->
     Generator.GeneratePassword rules rd
     = (Generator.Err Generator.ErrNoCharset, rd)).
Proof. apply GeneratePassword_refusals. Qed.

Lemma sane_minRequired rules :
  sane rules ->
  GoInt.wrap64
    (GoInt.wrap64
       (GoInt.wrap64 (Policy.MinUppercase rules + Policy.MinLowercase rules)
        + Policy.MinDigits rules)
     + Policy.MinSpecial rules)
  = Policy.MinUppercase rules + Policy.MinLowercase rules
    + Policy.MinDigits rules + Policy.MinSpecial rules.
Proof.
  intros (HL & Hu & Hl & Hd & Hs & Hsum).
  rewrite (wrap64_id (Policy.MinUppercase rules + Policy.MinLowercase rules)) by lia.
  rewrite (wrap64_id (Policy.MinUppercase rules + Policy.MinLowercase rules
                      + Policy.MinDigits rules)) by lia.
  apply wrap64_id. lia.
Qed.

(** Whatever [GeneratePassword] returns without an error is a string of
    ASCII characters of the chosen classes. *)
Lemma GeneratePassword_generated (rules : Policy.PasswordRules) rd password rd' :
  sane rules ->
  Generator.GeneratePassword rules rd = (Generator.Ok password, rd') ->
  generated rules password /\
  rd' = Generator.advance rd (Z.to_nat (2 * Policy.Length rules - 1)).
Proof.
  intros Hsane Hrun.
  destruct (GeneratePassword_refusals rules rd) as (R1 & R2 & R3).
  rewrite (sane_minRequired rules Hsane) in R2, R3.
  destruct (Z.lt_ge_cases (Policy.Length rules) 4) as [Hlt|H4].
  { rewrite (R1 Hlt) in Hrun. discriminate Hrun. }
  destruct (Z.lt_ge_cases (Policy.Length rules)
              (Policy.MinUppercase rules + Policy.MinLowercase rules
               + Policy.MinDigits rules + Policy.MinSpecial rules)) as [Hlt|Hmin].
  { rewrite (R2 H4 Hlt) in Hrun. discriminate Hrun. }
  destruct (Policy.RequireUppercase rules || Policy.RequireLowercase rules
            || Policy.RequireDigits rules || Policy.RequireSpecial rules) eqn:Hsome.
  2:{ rewrite (R3 H4 Hmin eq_refl) in Hrun. discriminate Hrun. }
  destruct (ran_elim _ _ _ _ _ _ (GeneratePassword_ran rules rd Hsane H4 Hmin Hsome))
    as (Hok & _).
  destruct (Hok password rd' Hrun) as (Hgen & Hrd & _). split; assumption.
Qed.

(** Soundness of [GeneratePassword]: for rules with non-negative minimums
    whose sum does not overflow, a returned password passes
    [ValidatePassword] under the same rules, has exactly [Length] bytes,
    holds only characters of the required classes, and took
    [2 * Length - 1] draws. *)
Theorem GeneratePassword_valid (rules : Policy.PasswordRules) rd password rd' :
  sane rules ->
  Generator.GeneratePassword rules rd = (Generator.Ok password, rd') ->
  Policy.ValidatePassword password rules = (true, []) /\
  Z.of_nat (String.length password) = Policy.Length rules /\
  Forall (fun c => inRequired rules c = true) (Utf8.runes password) /\
  rd' = Generator.advance rd (Z.to_nat (2 * Policy.Length rules - 1)).
Proof.
  intros Hsane Hrun.
  destruct (GeneratePassword_generated rules rd password rd' Hsane Hrun) as [Hgen Hrd].
  destruct (generated_valid rules rules password) as (Hv & Hl & Hc);
    try exact Hgen; try (intros Hr; split; [exact Hr | lia]); try lia.
  - destruct Hsane as [HL _]. exact HL.
  - repeat split; assumption.
Qed.

(** For rules it can serve and a length that [make] serves,
    [GeneratePassword] fails only with the reader: it returns a password
    when the next [2 * Length - 1] draws succeed, the error of the failing
    draw otherwise, and it always returns. *)
Theorem GeneratePassword_total (rules : Policy.PasswordRules) rd :
  sane rules ->
  4 <= Policy.Length rules ->
  Policy.MinUppercase rules + Policy.MinLowercase rules
  + Policy.MinDigits rules + Policy.MinSpecial rules <= Policy.Length rules ->
  Policy.RequireUppercase rules || Policy.RequireLowercase rules
  || Policy.RequireDigits rules || Policy.RequireSpecial rules = true ->
  Policy.Length rules <= Generator.capacity ->
  (Generator.readable rd (Z.to_nat (2 * Policy.Length rules - 1)) ->
     exists password,
       Generator.GeneratePassword rules rd
       = (Generator.Ok password,
          Generator.advance rd (Z.to_nat (2 * Policy.Length rules - 1)))) /\
  (~ Generator.readable rd (Z.to_nat (2 * Policy.Length rules - 1)) ->
     exists e rd',
       Generator.GeneratePassword rules rd = (Generator.Err e, rd') /\
       (e = Generator.ErrRandom \/ e = Generator.ErrShuffle)) /\
  fst (Generator.GeneratePassword rules rd) <> Generator.Panic.
Proof.
  intros Hsane H4 Hmin Hsome Hfit.
  destruct (ran_elim _ _ _ _ _ _ (GeneratePassword_ran rules rd Hsane H4 Hmin Hsome))
    as (_ & Hread & _ & Herr & Hpanic).
  assert (HX : ~ Generator.capacity < Policy.Length rules) by lia.
  split; [|split; [exact (Herr HX) | exact (Hpanic HX)]].
  intros Hr. destruct (Hread HX Hr) as (password & Heq & _). exists password. exact Heq.
Qed.

Lemma secure_rules_sane (length : Z) :
  length < 2 ^ 63 ->
  sane (Policy.mkRules (if length <? 12 then 12 else length)
          true true true true 2 2 2 2).
Proof.
  intros Hl. unfold sane. cbn [Policy.Length Policy.MinUppercase Policy.MinLowercase
                               Policy.MinDigits Policy.MinSpecial].
  destruct (Z.ltb_spec length 12); lia.
Qed.

Lemma GenerateSecurePassword_generated (length : Z) rd password rd' :
  length < 2 ^ 63 ->
  Generator.GenerateSecurePassword length rd = (Generator.Ok password, rd') ->
  Policy.ValidatePassword password Policy.DefaultPasswordRules = (true, []) /\
  Z.of_nat (String.length password) = Z.max length 12.
Proof.
  intros Hl Hrun. unfold Generator.GenerateSecurePassword in Hrun.
  destruct (GeneratePassword_generated _ rd password rd' (secure_rules_sane length Hl)
              Hrun) as [Hgen _].
  destruct (generated_valid _ Policy.DefaultPasswordRules password
              (proj1 (secure_rules_sane length Hl)) Hgen) as (Hv & Hlen & _);
    try (intros _; split; [reflexivity | cbn; lia]).
  - cbn [Policy.Length Policy.DefaultPasswordRules].
    destruct (Z.ltb_spec length 12); lia.
  - split; [exact Hv|]. rewrite Hlen. cbn [Policy.Length].
    destruct (Z.ltb_spec length 12); lia.
Qed.

Lemma GenerateSecurePassword_ran (length : Z) rd :
  length < 2 ^ 63 ->
  ran (generated (Policy.mkRules (if length <? 12 then 12 else length)
                    true true true true 2 2 2 2))
      genErr (Generator.capacity < (if length <? 12 then 12 else length))
      (Z.to_nat (2 * (if length <? 12 then 12 else length) - 1)) rd
      (Generator.GenerateSecurePassword length rd).
Proof.
  intros Hl. unfold Generator.GenerateSecurePassword.
  apply (GeneratePassword_ran
           (Policy.mkRules (if length <? 12 then 12 else length)
              true true true true 2 2 2 2) rd (secure_rules_sane length Hl)).
  - cbn [Policy.Length]. destruct (Z.ltb_spec length 12); lia.
  - cbn [Policy.Length Policy.MinUppercase Policy.MinLowercase
         Policy.MinDigits Policy.MinSpecial].
    destruct (Z.ltb_spec length 12); lia.
  - reflexivity.
Qed.

(** [GenerateSecurePassword] returns passwords that [IsPasswordSecure]
    accepts, of the requested length and of 12 bytes at least; when [make]
    serves that length, it returns one whenever the reader delivers, and
    it always returns. *)
Theorem GenerateSecurePassword_secure (length : Z) rd :
  length < 2 ^ 63 ->
  (forall password rd',
     Generator.GenerateSecurePassword length rd = (Generator.Ok password, rd') ->
     IsPasswordSecure password = (true, []) /\
     Z.of_nat (String.length password) = Z.max length 12) /\
  (Z.max length 12 <= Generator.capacity ->
   Generator.readable rd (Z.to_nat (2 * Z.max length 12 - 1)) ->
     exists password,
       Generator.GenerateSecurePassword length rd
       = (Generator.Ok password,
          Generator.advance rd (Z.to_nat (2 * Z.max length 12 - 1)))) /\
  (Z.max length 12 <= Generator.capacity ->
   fst (Generator.GenerateSecurePassword length rd) <> Generator.Panic).
Proof.
  intros Hl.
  assert (Hmax : (if length <? 12 then 12 else length) = Z.max length 12)
    by (destruct (Z.ltb_spec length 12); lia).
  destruct (ran_elim _ _ _ _ _ _ (GenerateSecurePassword_ran length rd Hl))
    as (_ & Hread & _ & _ & Hpanic).
  rewrite Hmax in Hread, Hpanic.
  split; [|split].
  - intros password rd' Hrun. unfold IsPasswordSecure.
    exact (GenerateSecurePassword_generated length rd password rd' Hl Hrun).
  - intros Hfit Hr. destruct (Hread ltac:(lia) Hr) as (password & Heq & _).
    exists password. exact Heq.
  - intros Hfit. apply Hpanic. lia.
Qed.

End GeneratorFacts.

Section GeneratedPasswords.
Context `{Env} `{Generator.Runtime}.

(** A password from [GenerateSecurePassword] is never refused as weak:
    [RegisterUser] and [ChangePassword] go on to hash it, and with a free
    name and a hasher that succeeds the registration goes through. *)
Theorem GenerateSecurePassword_accepted (length : Z) rd password rd'
    now entropy username s :
  length < 2 ^ 63 ->
  Generator.GenerateSecurePassword length rd = (Generator.Ok password, rd') ->
  (forall errors,
     fst (Auth.RegisterUser now entropy username password s)
       <> Some (Auth.ErrWeakPassword errors)) /\
  (forall errors s',
     Auth.ChangePassword entropy username password s
       <> Some (Some (Auth.ErrWeakPassword errors), s')) /\
  (forall hashedPassword,
     TrimSpace username <> EmptyString ->
     Auth.GetUser s (TrimSpace username) = None ->
     HashPassword entropy password = Some hashedPassword ->
     exists l s',
       Auth.RegisterUser now entropy username password s = (None, s') /\
       Auth.GetUser s' (TrimSpace username) = Some l /\
       Auth.heap s' !! l
         = Some (Auth.mkUser (TrimSpace username) hashedPassword 0 false
                   now zeroTime zeroTime)).
Proof.
  intros Hl Hrun.
  destruct (GenerateSecurePassword_generated length rd password rd' Hl Hrun)
    as [Hsec _].
  fold (IsPasswordSecure password) in Hsec.
  split; [|split].
  - intros errors. unfold Auth.RegisterUser.
    destruct (String.eqb (TrimSpace username) ""); [discriminate|].
    destruct (Auth.UserExists s (TrimSpace username)); [discriminate|].
    rewrite Hsec. cbn [negb]. cbv iota.
    destruct (HashPassword entropy password); [|discriminate].
    cbv zeta. destruct (Auth.alloc _ s) as [l s1].
    destruct (Auth.SaveUser l s1); discriminate.
  - intros errors s'. unfold Auth.ChangePassword.
    destruct (Auth.GetUser s (TrimSpace username)); [|discriminate].
    rewrite Hsec. cbn [negb]. cbv iota.
    destruct (HashPassword entropy password); [|discriminate].
    destruct (Auth.heap s !! _); [|discriminate].
    destruct (Auth.SaveUser _ _); discriminate.
  - intros hashedPassword Hne Hfree Hhash.
    destruct (RegisterUser_success_step now entropy username password s hashedPassword
                Hne Hfree ltac:(rewrite Hsec; reflexivity) Hhash)
      as (l & s' & Hreg & _ & Hget & Hheap & _).
    exists l, s'. repeat split; assumption.
Qed.

End GeneratedPasswords.

(** *** The theorems at a machine with room for 2^30 runes *)

Lemma generateCharsFromSet_chars_witness :
  exists chars,
    @Generator.generateCharsFromSet DemoMachine.runtime Policy.digits 4 demo_reader
    = (Generator.Ok chars, Generator.advance demo_reader (Z.to_nat 4)).
Proof.
  refine (proj1 (proj2 (proj2 (proj2 (proj2
            (@generateCharsFromSet_chars DemoMachine.runtime Policy.digits 4
               demo_reader))) _ _)) _).
  - split; [lia|]. apply Z.leb_le. vm_compute. reflexivity.
  - apply Nat.leb_le. vm_compute. reflexivity.
  - intros k Hk. discriminate.
Defined.

Lemma GeneratePassword_errors_witness :
  @Generator.GeneratePassword DemoMachine.runtime
    (Policy.mkRules 8 true true true true 3 3 3 3) demo_reader
  = (Generator.Err (Generator.ErrMinRequired 12 8), demo_reader).
Proof.
  apply (proj1 (proj2 (@GeneratePassword_errors DemoMachine.runtime
                         (Policy.mkRules 8 true true true true 3 3 3 3) demo_reader))).
  - apply Z.leb_le. vm_compute. reflexivity.
  - apply Z.ltb_lt. vm_compute. reflexivity.
Defined.

Lemma GeneratePassword_valid_witness :
  Policy.ValidatePassword "9SNCrj08"
    (Policy.mkRules 8 true true true false 2 1 3 1) = (true, []) /\
  Z.of_nat (String.length "9SNCrj08") = 8.
Proof.
  destruct (@GeneratePassword_valid DemoMachine.runtime
              (Policy.mkRules 8 true true true false 2 1 3 1)
              demo_reader "9SNCrj08"
              (Generator.advance demo_reader 15)) as (Hv & Hl & _).
  - unfold sane. cbn. lia.
  - vm_compute. reflexivity.
  - split; assumption.
Defined.

Lemma GeneratePassword_total_witness :
  exists e rd',
    @Generator.GeneratePassword DemoMachine.runtime Policy.DefaultPasswordRules
       demo_broken_reader
    = (Generator.Err e, rd') /\
    (e = Generator.ErrRandom \/ e = Generator.ErrShuffle).
Proof.
  refine (proj1 (proj2 (@GeneratePassword_total DemoMachine.runtime
                          Policy.DefaultPasswordRules demo_broken_reader
                          _ _ _ eq_refl _)) _).
  - unfold sane. cbn. lia.
  - cbn. lia.
  - cbn. lia.
  - apply Z.leb_le. vm_compute. reflexivity.
  - intros Hr. apply (Hr 5%nat); [cbn; lia | reflexivity].
Defined.

Lemma GenerateSecurePassword_secure_witness :
  IsPasswordSecure "?Dr9E>N?FCg8B[CA" = (true, []) /\
  Z.of_nat (String.length "?Dr9E>N?FCg8B[CA") = Z.max 16 12.
Proof.
  apply (proj1 (@GenerateSecurePassword_secure DemoMachine.runtime 16 demo_reader
                  ltac:(lia))
           "?Dr9E>N?FCg8B[CA" (Generator.advance demo_reader 31)).
  vm_compute. reflexivity.
Defined.

Lemma GenerateSecurePassword_accepted_witness :
  exists l s',
    @Auth.RegisterUser DemoEnv.env demo_now 7 "bob" "?Dr9E>N?FCg8B[CA"
       demo_registered = (None, s') /\
    Auth.GetUser s' (@TrimSpace DemoEnv.env "bob") = Some l /\
    Auth.heap s' !! l
      = Some (Auth.mkUser (@TrimSpace DemoEnv.env "bob")
                "$2a$12$7$?Dr9E>N?FCg8B[CA" 0 false demo_now zeroTime zeroTime).
Proof.
  apply (proj2 (proj2 (@GenerateSecurePassword_accepted DemoEnv.env
                         DemoMachine.runtime 16 demo_reader
                         "?Dr9E>N?FCg8B[CA" (Generator.advance demo_reader 31)
                         demo_now 7 "bob" demo_registered ltac:(lia)
                         ltac:(vm_compute; reflexivity)))).
  - vm_compute. discriminate.
  - vm_compute. reflexivity.
  - vm_compute. reflexivity.
Defined.

(** ** More on the two-factor demo: secrets and codes *)










(** ** The menu actions of the two-factor demo *)

Section TwoFAMenu.
Context `{Env}.

Lemma authenticateUser_firstFactor s nameLine pwLine rest l user :
  firstFactor s nameLine pwLine l user ->
  TwoFA.authenticateUser s (nameLine :: pwLine :: rest) = Some (Some l, rest).
Proof.
  intros (Hname & Hheap & Hpw).
  unfold TwoFA.authenticateUser, TwoFA.readPasswordSimple. cbn [TwoFA.Scan].
  unfold TwoFA.authenticateFirstFactor. rewrite Hname, Hheap, Hpw. reflexivity.
Qed.

(** The helper refuses an unknown name and a wrong password alike. *)
Lemma authenticateUser_refused s nameLine pwLine rest :
  (TwoFA.users (TwoFA.store (TwoFA.auth s)) !! TrimSpace nameLine = None \/
   exists l user,
     TwoFA.users (TwoFA.store (TwoFA.auth s)) !! TrimSpace nameLine = Some l /\
     TwoFA.heap s !! l = Some user /\
     CompareHashAndPassword (TwoFA.PasswordHash user) (TrimSpace pwLine) = false) ->
  TwoFA.authenticateUser s (nameLine :: pwLine :: rest) = Some (None, rest).
Proof.
  intros Hcase.
  unfold TwoFA.authenticateUser, TwoFA.readPasswordSimple. cbn [TwoFA.Scan].
  unfold TwoFA.authenticateFirstFactor.
  destruct Hcase as [Hnone|(l & user & Hname & Hheap & Hpw)].
  - rewrite Hnone. reflexivity.
  - rewrite Hname, Hheap, Hpw. reflexivity.
Qed.

Lemma generateTOTPCode_length secret t :
  String.length (TOTP.generateTOTPCode secret t) = 6%nat.
Proof.
  rewrite generateTOTPCode_counter. apply derive_from_counter_shape.
Qed.

Lemma verifyTOTPCode_current now secret :
  0 <= nano now < Second ->
  TOTP.verifyTOTPCode now secret (TOTP.generateTOTPCode secret now) = true.
Proof.
  intros Hn. rewrite verifyTOTPCode_unfold, (Add_zero now Hn).
  generalize (TOTP.generateTOTPCode secret (Add now (-30 * Second))) as a.
  generalize (TOTP.generateTOTPCode secret (Add now (30 * Second))) as b.
  generalize (TOTP.generateTOTPCode secret now) as c. intros c b a.
  rewrite String.eqb_refl. apply orb_true_r.
Qed.

(** A successful registration in the demo: the password is the trimmed
    second line, of six bytes at least; the new user has the second factor
    off, no secret and no backup codes. *)
Theorem registerUser2FA_registers now entropy s nameLine pwLine rest hashedPassword :
  TrimSpace nameLine <> EmptyString ->
  TwoFA.users (TwoFA.store (TwoFA.auth s)) !! TrimSpace nameLine = None ->
  6 <= Z.of_nat (String.length (TrimSpace pwLine)) ->
  GenerateFromPassword entropy (TrimSpace pwLine) TwoFA.DefaultCost
    = Some hashedPassword ->
  exists l s',
    TwoFA.registerUser2FA now entropy s (nameLine :: pwLine :: rest)
      = (TwoFA.RegOk, s', rest) /\
    TwoFA.heap s !! l = None /\
    TwoFA.users (TwoFA.store (TwoFA.auth s')) !! TrimSpace nameLine = Some l /\
    TwoFA.heap s' !! l
      = Some (TwoFA.mkUser2FA (TrimSpace nameLine) hashedPassword EmptyString []
                false now zeroTime) /\
    (forall k, k <> TrimSpace nameLine ->
       TwoFA.users (TwoFA.store (TwoFA.auth s')) !! k
       = TwoFA.users (TwoFA.store (TwoFA.auth s)) !! k) /\
    (forall l0 u0, TwoFA.heap s !! l0 = Some u0 -> TwoFA.heap s' !! l0 = Some u0) /\
    TwoFA.backupCodes (TwoFA.auth s') = TwoFA.backupCodes (TwoFA.auth s).
Proof.
  intros Hne Hfree Hlen Hhash.
  unfold TwoFA.registerUser2FA, TwoFA.readPasswordSimple. cbn [TwoFA.Scan].
  destruct (String.eqb_spec (TrimSpace nameLine) "") as [Heq|_]; [destruct (Hne Heq)|].
  rewrite Hfree.
  destruct (Z.ltb_spec (Z.of_nat (String.length (TrimSpace pwLine))) 6) as [Hlt|_];
    [lia|].
  rewrite Hhash. cbv zeta.
  assert (Hfresh : TwoFA.heap s !! fresh (dom (TwoFA.heap s)) = None).
  { apply not_elem_of_dom. apply is_fresh. }
  eexists _, _. split; [reflexivity|]. split; [exact Hfresh|].
  cbn [TwoFA.heap TwoFA.auth TwoFA.store TwoFA.users TwoFA.backupCodes].
  split; [apply lookup_insert_eq|]. split; [apply lookup_insert_eq|].
  split.
  { intros k Hk. apply lookup_insert_ne. intros Heq. apply Hk. symmetry. exact Heq. }
  split; [|reflexivity].
  intros l0 u0 Hl0. rewrite lookup_insert_ne; [exact Hl0|].
  intros Heq. rewrite Heq in Hfresh. congruence.
Qed.

(** The refusals of the registration, in the order of the checks; a
    missing password line counts as an empty password.  Whatever is
    refused leaves the store as it was. *)
Theorem registerUser2FA_refusals now entropy s sc :
  (fst (fst (TwoFA.registerUser2FA now entropy s sc)) <> TwoFA.RegOk ->
     snd (fst (TwoFA.registerUser2FA now entropy s sc)) = s) /\
  (sc = [] -> TwoFA.registerUser2FA now entropy s sc = (TwoFA.RegNoInput, s, [])) /\
  (forall nameLine rest, sc = nameLine :: rest ->
     TrimSpace nameLine = EmptyString ->
     TwoFA.registerUser2FA now entropy s sc = (TwoFA.RegEmptyName, s, rest)) /\
  (forall nameLine rest l, sc = nameLine :: rest ->
     TrimSpace nameLine <> EmptyString ->
     TwoFA.users (TwoFA.store (TwoFA.auth s)) !! TrimSpace nameLine = Some l ->
     TwoFA.registerUser2FA now entropy s sc = (TwoFA.RegExists, s, rest)) /\
  (forall nameLine, sc = [nameLine] ->
     TrimSpace nameLine <> EmptyString ->
     TwoFA.users (TwoFA.store (TwoFA.auth s)) !! TrimSpace nameLine = None ->
     TwoFA.registerUser2FA now entropy s sc = (TwoFA.RegShortPassword, s, [])) /\
  (forall nameLine pwLine rest, sc = nameLine :: pwLine :: rest ->
     TrimSpace nameLine <> EmptyString ->
     TwoFA.users (TwoFA.store (TwoFA.auth s)) !! TrimSpace nameLine = None ->
     Z.of_nat (String.length (TrimSpace pwLine)) < 6 ->
     TwoFA.registerUser2FA now entropy s sc = (TwoFA.RegShortPassword, s, rest)).
Proof.
  split; [|split; [|split; [|split; [|split]]]].
  - unfold TwoFA.registerUser2FA.
    destruct (TwoFA.Scan sc) as [[line sc1]|]; [|reflexivity].
    destruct (String.eqb (TrimSpace line) ""); [reflexivity|].
    destruct (TwoFA.users (TwoFA.store (TwoFA.auth s)) !! TrimSpace line);
      [reflexivity|].
    destruct (TwoFA.readPasswordSimple sc1) as [password sc2].
    destruct (Z.of_nat (String.length password) <? 6); [reflexivity|].
    destruct (GenerateFromPassword entropy password TwoFA.DefaultCost);
      [|reflexivity].
    cbn [fst snd]. intros Hno. exfalso. apply Hno. reflexivity.
  - intros ->. reflexivity.
  - intros nameLine rest -> Hempty. unfold TwoFA.registerUser2FA. cbn [TwoFA.Scan].
    rewrite Hempty. reflexivity.
  - intros nameLine rest l -> Hne Hex. unfold TwoFA.registerUser2FA. cbn [TwoFA.Scan].
    destruct (String.eqb_spec (TrimSpace nameLine) "") as [Heq|_]; [destruct (Hne Heq)|].
    rewrite Hex. reflexivity.
  - intros nameLine -> Hne Hfree.
    unfold TwoFA.registerUser2FA, TwoFA.readPasswordSimple. cbn [TwoFA.Scan].
    destruct (String.eqb_spec (TrimSpace nameLine) "") as [Heq|_]; [destruct (Hne Heq)|].
    rewrite Hfree. reflexivity.
  - intros nameLine pwLine rest -> Hne Hfree Hshort.
    unfold TwoFA.registerUser2FA, TwoFA.readPasswordSimple. cbn [TwoFA.Scan].
    destruct (String.eqb_spec (TrimSpace nameLine) "") as [Heq|_]; [destruct (Hne Heq)|].
    rewrite Hfree.
    destruct (Z.ltb_spec (Z.of_nat (String.length (TrimSpace pwLine))) 6); [|lia].
    reflexivity.
Qed.

(** The login without a second factor: the right password is enough and
    stamps [LastLogin]; an unknown name and a wrong password are refused
    with their messages and change nothing. *)
Theorem loginUser2FA_first_factor nowVerify nowLogin s nameLine pwLine rest :
  (forall l user,
     firstFactor s nameLine pwLine l user ->
     TwoFA.Is2FAEnabled user = false ->
     TwoFA.loginUser2FA nowVerify nowLogin s (nameLine :: pwLine :: rest)
     = Some (TwoFA.LoginWelcome,
             TwoFA.write l (TwoFA.setLastLogin nowLogin user) s, rest)) /\
  (TwoFA.users (TwoFA.store (TwoFA.auth s)) !! TrimSpace nameLine = None ->
     TwoFA.loginUser2FA nowVerify nowLogin s (nameLine :: pwLine :: rest)
     = Some (TwoFA.LoginRejected "Пользователь не найден", s, rest)) /\
  (forall l user,
     TwoFA.users (TwoFA.store (TwoFA.auth s)) !! TrimSpace nameLine = Some l ->
     TwoFA.heap s !! l = Some user ->
     CompareHashAndPassword (TwoFA.PasswordHash user) (TrimSpace pwLine) = false ->
     TwoFA.loginUser2FA nowVerify nowLogin s (nameLine :: pwLine :: rest)
     = Some (TwoFA.LoginRejected "Неверный пароль", s, rest)).
Proof.
  unfold TwoFA.loginUser2FA, TwoFA.readPasswordSimple. cbn [TwoFA.Scan].
  unfold TwoFA.authenticateFirstFactor.
  split; [|split].
  - intros l user (Hname & Hheap & Hpw) Hoff.
    rewrite Hname, Hheap, Hpw. cbn [negb TwoFA.Success TwoFA.User TwoFA.RequiresTOTP].
    rewrite Hheap, Hoff. reflexivity.
  - intros Hnone. rewrite Hnone. reflexivity.
  - intros l user Hname Hheap Hpw. rewrite Hname, Hheap, Hpw. reflexivity.
Qed.

(** The login with the second factor on.  The code of the current
    interval is accepted and leaves the backup codes alone, also when one
    of them is the same string.  Without the third line nobody is let in. *)
Theorem loginUser2FA_totp nowVerify nowLogin s nameLine pwLine codeLine rest l user :
  firstFactor s nameLine pwLine l user ->
  TwoFA.Is2FAEnabled user = true ->
  (0 <= nano nowVerify < Second ->
   TrimSpace codeLine = TOTP.generateTOTPCode (TwoFA.TotpSecret user) nowVerify ->
   TwoFA.loginUser2FA nowVerify nowLogin s (nameLine :: pwLine :: codeLine :: rest)
   = Some (TwoFA.LoginWelcome,
           TwoFA.write l (TwoFA.setLastLogin nowLogin user) s, rest)) /\
  TwoFA.loginUser2FA nowVerify nowLogin s [nameLine; pwLine]
  = Some (TwoFA.LoginNoInput, s, []).
Proof.
  intros (Hname & Hheap & Hpw) Hon.
  unfold TwoFA.loginUser2FA, TwoFA.readPasswordSimple. cbn [TwoFA.Scan].
  unfold TwoFA.authenticateFirstFactor.
  rewrite Hname, Hheap, Hpw. cbn [negb TwoFA.Success TwoFA.User TwoFA.RequiresTOTP].
  rewrite Hheap, Hon. cbn [negb]. split; [|reflexivity].
  intros Hn Hcode. unfold TwoFA.verifySecondFactor.
  rewrite Hcode, (verifyTOTPCode_current nowVerify _ Hn).
  rewrite generateTOTPCode_length. reflexivity.
Qed.

End TwoFAMenu.

Section TwoFASecondFactor.
Context `{Env}.

Lemma write_same (s : TwoFA.State) l user :
  TwoFA.heap s !! l = Some user -> TwoFA.write l user s = s.
Proof.
  intros Hl. unfold TwoFA.write. rewrite insert_id by exact Hl.
  destruct s. reflexivity.
Qed.

Lemma firstFactor_write s nameLine pwLine l user user' :
  firstFactor s nameLine pwLine l user ->
  TwoFA.PasswordHash user' = TwoFA.PasswordHash user ->
  firstFactor (TwoFA.write l user' s) nameLine pwLine l user'.
Proof.
  intros (Hname & Hheap & Hpw) Hhash. unfold firstFactor.
  cbn [TwoFA.write TwoFA.auth TwoFA.heap].
  split; [exact Hname|]. split; [apply lookup_insert_eq|].
  rewrite Hhash. exact Hpw.
Qed.

(** A code of another length than six never reaches the TOTP check. *)
Lemma verifySecondFactor_not_six now user code :
  String.length code <> 6%nat ->
  TwoFA.verifySecondFactor now user code
  = match TwoFA.findCode code (TwoFA.BackupCodes user) 0 with
    | Some i =>
        (true,
         TwoFA.setBackupCodes
           (firstn i (TwoFA.BackupCodes user) ++ skipn (S i) (TwoFA.BackupCodes user))
           user)
    | None => (false, user)
    end.
Proof.
  intros Hlen. unfold TwoFA.verifySecondFactor.
  destruct (Nat.eqb_spec (String.length code) 6) as [Heq|_]; [destruct (Hlen Heq)|].
  reflexivity.
Qed.

Lemma count_occ_one_split (codes pre post : list string) code :
  count_occ string_dec codes code = 1%nat ->
  codes = pre ++ code :: post ->
  ~ In code (pre ++ post).
Proof.
  intros Hone ->. rewrite count_occ_app in Hone. cbn [count_occ] in Hone.
  destruct (string_dec code code) as [_|Hne]; [|destruct (Hne eq_refl)].
  intros Hin. apply in_app_or in Hin. destruct Hin as [Hin|Hin];
    apply (count_occ_In string_dec) in Hin; lia.
Qed.

(** A backup code opens the door once.  With the second factor on, a
    submission that is stored once among the backup codes and is not six
    characters long logs the user in, is struck from the list and stamps
    [LastLogin]; the same three lines typed again are refused, and nothing
    changes any more. *)
Theorem loginUser2FA_backup_code_once
    nowVerify nowLogin nowVerify' nowLogin' s nameLine pwLine codeLine rest l user :
  firstFactor s nameLine pwLine l user ->
  TwoFA.Is2FAEnabled user = true ->
  String.length (TrimSpace codeLine) <> 6%nat ->
  count_occ string_dec (TwoFA.BackupCodes user) (TrimSpace codeLine) = 1%nat ->
  exists pre post s1,
    TwoFA.BackupCodes user = pre ++ TrimSpace codeLine :: post /\
    TwoFA.loginUser2FA nowVerify nowLogin s (nameLine :: pwLine :: codeLine :: rest)
      = Some (TwoFA.LoginWelcome, s1, rest) /\
    TwoFA.heap s1 !! l
      = Some (TwoFA.setLastLogin nowLogin
                (TwoFA.setBackupCodes (pre ++ post) user)) /\
    TwoFA.loginUser2FA nowVerify' nowLogin' s1
        (nameLine :: pwLine :: codeLine :: rest)
      = Some (TwoFA.LoginBadCode, s1, rest).
Proof.
  intros Hff Hon Hlen Hone.
  assert (Hin : In (TrimSpace codeLine) (TwoFA.BackupCodes user)).
  { apply (count_occ_In string_dec). lia. }
  destruct (findCode_first (TrimSpace codeLine) (TwoFA.BackupCodes user) 0 Hin)
    as (pre & post & Hcodes & Hpre & Hfind).
  pose proof (count_occ_one_split _ pre post _ Hone Hcodes) as Hgone.
  set (user1 := TwoFA.setLastLogin nowLogin
                  (TwoFA.setBackupCodes (pre ++ post) user)).
  exists pre, post, (TwoFA.write l user1 s).
  split; [exact Hcodes|].
  assert (Hfirst :
    TwoFA.loginUser2FA nowVerify nowLogin s (nameLine :: pwLine :: codeLine :: rest)
    = Some (TwoFA.LoginWelcome, TwoFA.write l user1 s, rest)).
  { destruct Hff as (Hname & Hheap & Hpw).
    unfold TwoFA.loginUser2FA, TwoFA.readPasswordSimple. cbn [TwoFA.Scan].
    unfold TwoFA.authenticateFirstFactor. rewrite Hname, Hheap, Hpw.
    cbn [negb TwoFA.Success TwoFA.User TwoFA.RequiresTOTP].
    rewrite Hheap, Hon. cbn [negb].
    rewrite (verifySecondFactor_not_six nowVerify user _ Hlen), Hfind.
    cbn [Nat.add]. rewrite Hcodes at 1 2. rewrite remove_at_split. reflexivity. }
  split; [exact Hfirst|].
  split; [cbn [TwoFA.write TwoFA.heap]; apply lookup_insert_eq|].
  assert (Hff1 : firstFactor (TwoFA.write l user1 s) nameLine pwLine l user1).
  { apply (firstFactor_write s nameLine pwLine l user user1 Hff). reflexivity. }
  destruct Hff1 as (Hname1 & Hheap1 & Hpw1).
  unfold TwoFA.loginUser2FA, TwoFA.readPasswordSimple. cbn [TwoFA.Scan].
  unfold TwoFA.authenticateFirstFactor. rewrite Hname1, Hheap1, Hpw1.
  cbn [negb TwoFA.Success TwoFA.User TwoFA.RequiresTOTP].
  rewrite Hheap1.
  change (TwoFA.Is2FAEnabled user1) with (TwoFA.Is2FAEnabled user). rewrite Hon.
  cbn [negb].
  rewrite (verifySecondFactor_not_six nowVerify' user1 _ Hlen).
  change (TwoFA.BackupCodes user1) with (pre ++ post).
  rewrite (proj2 (findCode_none (TrimSpace codeLine) (pre ++ post) 0) Hgone).
  rewrite (write_same _ l user1 Hheap1). reflexivity.
Qed.

(** No menu action does anything for a name the store does not know or a
    password that does not match: the store is left as it was and no
    random number is drawn. *)
Theorem menu_actions_need_password now s nameLine pwLine rest r :
  (TwoFA.users (TwoFA.store (TwoFA.auth s)) !! TrimSpace nameLine = None \/
   exists l user,
     TwoFA.users (TwoFA.store (TwoFA.auth s)) !! TrimSpace nameLine = Some l /\
     TwoFA.heap s !! l = Some user /\
     CompareHashAndPassword (TwoFA.PasswordHash user) (TrimSpace pwLine) = false) ->
  TwoFA.enable2FA now s (nameLine :: pwLine :: rest) r = Some (s, rest, r) /\
  TwoFA.disable2FA now s (nameLine :: pwLine :: rest) = Some (s, rest) /\
  TwoFA.generateBackupCodes s (nameLine :: pwLine :: rest) r = Some (s, rest, r).
Proof.
  intros Hcase.
  pose proof (authenticateUser_refused s nameLine pwLine rest Hcase) as Hauth.
  unfold TwoFA.enable2FA, TwoFA.disable2FA, TwoFA.generateBackupCodes.
  rewrite Hauth. repeat split.
Qed.


End TwoFASecondFactor.

Section TwoFASwitch.
Context `{Env}.

Lemma verifySecondFactor_fields now user code :
  let user' := snd (TwoFA.verifySecondFactor now user code) in
  TwoFA.Username user' = TwoFA.Username user /\
  TwoFA.PasswordHash user' = TwoFA.PasswordHash user /\
  TwoFA.TotpSecret user' = TwoFA.TotpSecret user /\
  TwoFA.Is2FAEnabled user' = TwoFA.Is2FAEnabled user /\
  TwoFA.CreatedAt user' = TwoFA.CreatedAt user /\
  TwoFA.LastLogin user' = TwoFA.LastLogin user /\
  (fst (TwoFA.verifySecondFactor now user code) = false -> user' = user).
Proof.
  unfold TwoFA.verifySecondFactor.
  destruct (Nat.eqb (String.length code) 6
            && TOTP.verifyTOTPCode now (TwoFA.TotpSecret user) code);
    [cbn [fst snd]; repeat split; intros Hf; discriminate Hf|].
  destruct (TwoFA.findCode code (TwoFA.BackupCodes user) 0);
    cbn [fst snd]; repeat split; intros Hf; discriminate Hf.
Qed.

Lemma verifySecondFactor_stored now user code :
  In code (TwoFA.BackupCodes user) ->
  fst (TwoFA.verifySecondFactor now user code) = true.
Proof.
  intros Hin. unfold TwoFA.verifySecondFactor.
  destruct (Nat.eqb (String.length code) 6
            && TOTP.verifyTOTPCode now (TwoFA.TotpSecret user) code);
    [reflexivity|].
  destruct (findCode_first code (TwoFA.BackupCodes user) 0 Hin)
    as (pre & post & _ & _ & Hfind).
  rewrite Hfind. reflexivity.
Qed.

Lemma verifySecondFactor_current now user :
  0 <= nano now < Second ->
  TwoFA.verifySecondFactor now user
    (TOTP.generateTOTPCode (TwoFA.TotpSecret user) now) = (true, user).
Proof.
  intros Hn. unfold TwoFA.verifySecondFactor.
  rewrite (verifyTOTPCode_current now _ Hn), generateTOTPCode_length. reflexivity.
Qed.

(** [disable2FA] for a user who logs in with the second factor on.  A
    submission that [verifySecondFactor] accepts, the code of the current
    interval or any stored backup code among them, switches the second
    factor off and clears the secret and the backup codes; a submission it
    refuses, and an input that ends before the code, change nothing. *)
Theorem disable2FA_effect now s nameLine pwLine codeLine rest l user :
  firstFactor s nameLine pwLine l user ->
  TwoFA.Is2FAEnabled user = true ->
  let reset :=
    TwoFA.mkUser2FA (TwoFA.Username user) (TwoFA.PasswordHash user) EmptyString []
                    false (TwoFA.CreatedAt user) (TwoFA.LastLogin user) in
  (fst (TwoFA.verifySecondFactor now user (TrimSpace codeLine)) = true ->
     TwoFA.disable2FA now s (nameLine :: pwLine :: codeLine :: rest)
     = Some (TwoFA.write l reset s, rest)) /\
  (0 <= nano now < Second ->
   TrimSpace codeLine = TOTP.generateTOTPCode (TwoFA.TotpSecret user) now ->
     TwoFA.disable2FA now s (nameLine :: pwLine :: codeLine :: rest)
     = Some (TwoFA.write l reset s, rest)) /\
  (In (TrimSpace codeLine) (TwoFA.BackupCodes user) ->
     TwoFA.disable2FA now s (nameLine :: pwLine :: codeLine :: rest)
     = Some (TwoFA.write l reset s, rest)) /\
  (fst (TwoFA.verifySecondFactor now user (TrimSpace codeLine)) = false ->
     TwoFA.disable2FA now s (nameLine :: pwLine :: codeLine :: rest)
     = Some (s, rest)) /\
  TwoFA.disable2FA now s [nameLine; pwLine] = Some (s, []).
Proof.
  intros Hff Hon reset.
  pose proof (authenticateUser_firstFactor s nameLine pwLine (codeLine :: rest) l user
                Hff) as Hauth.
  pose proof (authenticateUser_firstFactor s nameLine pwLine [] l user Hff) as Hauth0.
  destruct Hff as (Hname & Hheap & Hpw).
  assert (Hyes :
    fst (TwoFA.verifySecondFactor now user (TrimSpace codeLine)) = true ->
    TwoFA.disable2FA now s (nameLine :: pwLine :: codeLine :: rest)
    = Some (TwoFA.write l reset s, rest)).
  { intros Hok. unfold TwoFA.disable2FA. rewrite Hauth, Hheap, Hon.
    cbn [negb TwoFA.Scan]. cbv iota.
    destruct (verifySecondFactor_fields now user (TrimSpace codeLine))
      as (Fn & Fh & _ & _ & Fc & Fl & _).
    destruct (TwoFA.verifySecondFactor now user (TrimSpace codeLine)) as [ok user'].
    cbn [fst snd] in *. subst ok. cbv zeta.
    unfold TwoFA.setBackupCodes, TwoFA.setTotpSecret, TwoFA.setIs2FAEnabled, reset.
    cbn [TwoFA.Username TwoFA.PasswordHash TwoFA.TotpSecret TwoFA.BackupCodes
         TwoFA.Is2FAEnabled TwoFA.CreatedAt TwoFA.LastLogin].
    rewrite Fn, Fh, Fc, Fl. reflexivity. }
  split; [exact Hyes|]. split; [|split; [|split]].
  - intros Hn Hcode. apply Hyes. rewrite Hcode, (verifySecondFactor_current now user Hn).
    reflexivity.
  - intros Hin. apply Hyes. apply verifySecondFactor_stored. exact Hin.
  - intros Hno. unfold TwoFA.disable2FA. rewrite Hauth, Hheap, Hon.
    cbn [negb TwoFA.Scan]. cbv iota.
    destruct (verifySecondFactor_fields now user (TrimSpace codeLine))
      as (_ & _ & _ & _ & _ & _ & Fsame).
    destruct (TwoFA.verifySecondFactor now user (TrimSpace codeLine)) as [ok user'].
    cbn [fst snd] in *. subst ok. rewrite (Fsame eq_refl).
    rewrite (write_same s l user Hheap). reflexivity.
  - unfold TwoFA.disable2FA. rewrite Hauth0, Hheap, Hon. reflexivity.
Qed.


End TwoFASwitch.

(** ** The menu actions on the sample stores *)

Lemma registerUser2FA_registers_witness :
  exists l s',
    @TwoFA.registerUser2FA DemoEnv.env demo_now 3 TwoFA.NewTwoFactorAuth
      [" bob "; "hunter22"]%string = (TwoFA.RegOk, s', []) /\
    TwoFA.heap s' !! l
      = Some (TwoFA.mkUser2FA "bob" "$2a$10$3$hunter22" EmptyString [] false
                demo_now zeroTime).
Proof.
  destruct (@registerUser2FA_registers DemoEnv.env demo_now 3 TwoFA.NewTwoFactorAuth
              " bob " "hunter22" [] "$2a$10$3$hunter22")
    as (l & s' & Hrun & _ & _ & Hheap & _).
  - vm_compute. discriminate.
  - reflexivity.
  - vm_compute. discriminate.
  - vm_compute. reflexivity.
  - exists l, s'. split; [exact Hrun | exact Hheap].
Defined.

Lemma registerUser2FA_refusals_witness :
  @TwoFA.registerUser2FA DemoEnv.env demo_now 3 demo_state2fa
     [" alice "; "whatever"]%string
   = (TwoFA.RegExists, demo_state2fa, ["whatever"]%string) /\
  @TwoFA.registerUser2FA DemoEnv.env demo_now 3 demo_state2fa
     ["bob"; " abcde "]%string
   = (TwoFA.RegShortPassword, demo_state2fa, []).
Proof.
  split.
  - destruct (@registerUser2FA_refusals DemoEnv.env demo_now 3 demo_state2fa
                [" alice "; "whatever"]%string) as (_ & _ & _ & Hexists & _).
    apply (Hexists " alice "%string ["whatever"]%string 1%positive eq_refl).
    + vm_compute. discriminate.
    + vm_compute. reflexivity.
  - destruct (@registerUser2FA_refusals DemoEnv.env demo_now 3 demo_state2fa
                ["bob"; " abcde "]%string) as (_ & _ & _ & _ & _ & Hshort).
    apply (Hshort "bob"%string " abcde "%string [] eq_refl).
    + vm_compute. discriminate.
    + vm_compute. reflexivity.
    + vm_compute. reflexivity.
Defined.

Lemma loginUser2FA_first_factor_witness :
  (exists s',
     @TwoFA.loginUser2FA DemoEnv.env demo_now (mkTime 1710919300 0) demo_state2fa
        ["alice"; " Secret-Pass#2024"; "next"]%string
     = Some (TwoFA.LoginWelcome, s', ["next"]%string) /\
     TwoFA.heap s' !! 1%positive
     = Some (TwoFA.mkUser2FA "alice" "$2a$12$7$Secret-Pass#2024" EmptyString []
               false demo_now (mkTime 1710919300 0))) /\
  @TwoFA.loginUser2FA DemoEnv.env demo_now (mkTime 1710919300 0) demo_state2fa
     ["alice"; "guess"; "next"]%string
  = Some (TwoFA.LoginRejected "Неверный пароль", demo_state2fa, ["next"]%string) /\
  @TwoFA.loginUser2FA DemoEnv.env demo_now (mkTime 1710919300 0) demo_state2fa
     ["bob"; "guess"; "next"]%string
  = Some (TwoFA.LoginRejected "Пользователь не найден", demo_state2fa,
          ["next"]%string).
Proof.
  split; [|split].
  - eexists. split.
    + apply (proj1 (@loginUser2FA_first_factor DemoEnv.env demo_now
                      (mkTime 1710919300 0) demo_state2fa
                      "alice" " Secret-Pass#2024" ["next"]%string)
               1%positive
               (TwoFA.mkUser2FA "alice" "$2a$12$7$Secret-Pass#2024" EmptyString []
                  false demo_now zeroTime)).
      * split; [|split]; vm_compute; reflexivity.
      * reflexivity.
    + vm_compute. reflexivity.
  - apply (proj2 (proj2 (@loginUser2FA_first_factor DemoEnv.env demo_now
                           (mkTime 1710919300 0) demo_state2fa
                           "alice" "guess" ["next"]%string))
             1%positive
             (TwoFA.mkUser2FA "alice" "$2a$12$7$Secret-Pass#2024" EmptyString []
                false demo_now zeroTime));
      vm_compute; reflexivity.
  - apply (proj1 (proj2 (@loginUser2FA_first_factor DemoEnv.env demo_now
                           (mkTime 1710919300 0) demo_state2fa
                           "bob" "guess" ["next"]%string))).
    vm_compute. reflexivity.
Defined.

Lemma loginUser2FA_totp_witness :
  let user :=
    TwoFA.mkUser2FA "alice" "$2a$10$7$Secret-Pass#2024" demo_secret demo_codes
                    true demo_now zeroTime in
  @TwoFA.loginUser2FA DemoEnv.env demo_now (mkTime 1710919261 0) demo_state2fa_on
     ["alice"; "Secret-Pass#2024"; " 368709 "]%string
  = Some (TwoFA.LoginWelcome,
          TwoFA.write 1%positive (TwoFA.setLastLogin (mkTime 1710919261 0) user)
            demo_state2fa_on, []) /\
  @TwoFA.loginUser2FA DemoEnv.env demo_now (mkTime 1710919261 0) demo_state2fa_on
     ["alice"; "Secret-Pass#2024"]%string
  = Some (TwoFA.LoginNoInput, demo_state2fa_on, []).
Proof.
  intros user.
  assert (Hff : @firstFactor DemoEnv.env demo_state2fa_on "alice" "Secret-Pass#2024"
                  1%positive user).
  { split; [|split]; vm_compute; reflexivity. }
  destruct (@loginUser2FA_totp DemoEnv.env demo_now (mkTime 1710919261 0)
              demo_state2fa_on "alice" "Secret-Pass#2024" " 368709 " []
              1%positive user Hff eq_refl) as [Hcode Hend].
  split; [|exact Hend].
  apply Hcode.
  - split; [apply Z.leb_le | apply Z.ltb_lt]; vm_compute; reflexivity.
  - vm_compute. reflexivity.
Defined.

Lemma loginUser2FA_backup_code_once_witness :
  exists s1,
    @TwoFA.loginUser2FA DemoEnv.env demo_now (mkTime 1710919261 0) demo_state2fa_on
       ["alice"; "Secret-Pass#2024"; "TUVWXYZ0"]%string
    = Some (TwoFA.LoginWelcome, s1, []) /\
    @TwoFA.loginUser2FA DemoEnv.env (mkTime 1710919270 0) (mkTime 1710919271 0) s1
       ["alice"; "Secret-Pass#2024"; "TUVWXYZ0"]%string
    = Some (TwoFA.LoginBadCode, s1, []).
Proof.
  destruct (@loginUser2FA_backup_code_once DemoEnv.env
              demo_now (mkTime 1710919261 0) (mkTime 1710919270 0)
              (mkTime 1710919271 0) demo_state2fa_on
              "alice" "Secret-Pass#2024" "TUVWXYZ0" [] 1%positive
              (TwoFA.mkUser2FA "alice" "$2a$10$7$Secret-Pass#2024" demo_secret
                 demo_codes true demo_now zeroTime))
    as (pre & post & s1 & _ & Hfirst & _ & Hagain).
  - split; [|split]; vm_compute; reflexivity.
  - reflexivity.
  - vm_compute. discriminate.
  - vm_compute. reflexivity.
  - exists s1. split; [exact Hfirst | exact Hagain].
Defined.

Lemma menu_actions_need_password_witness :
  @TwoFA.enable2FA DemoEnv.env demo_now demo_state2fa_on
     ["alice"; "guess"]%string demo_tape
  = Some (demo_state2fa_on, [], demo_tape) /\
  @TwoFA.disable2FA DemoEnv.env demo_now demo_state2fa_on ["alice"; "guess"]%string
  = Some (demo_state2fa_on, []) /\
  @TwoFA.generateBackupCodes DemoEnv.env demo_state2fa_on
     ["alice"; "guess"]%string demo_tape
  = Some (demo_state2fa_on, [], demo_tape).
Proof.
  apply (@menu_actions_need_password DemoEnv.env demo_now demo_state2fa_on
           "alice" "guess" [] demo_tape).
  right. exists 1%positive.
  exists (TwoFA.mkUser2FA "alice" "$2a$10$7$Secret-Pass#2024" demo_secret
            demo_codes true demo_now zeroTime).
  split; [|split]; vm_compute; reflexivity.
Defined.


Lemma disable2FA_effect_witness :
  let reset :=
    TwoFA.mkUser2FA "alice" "$2a$10$7$Secret-Pass#2024" EmptyString [] false
                    demo_now zeroTime in
  @TwoFA.disable2FA DemoEnv.env demo_now demo_state2fa_on
     ["alice"; "Secret-Pass#2024"; "12345678"]%string
  = Some (TwoFA.write 1%positive reset demo_state2fa_on, []) /\
  @TwoFA.disable2FA DemoEnv.env demo_now demo_state2fa_on
     ["alice"; "Secret-Pass#2024"; "368709"]%string
  = Some (TwoFA.write 1%positive reset demo_state2fa_on, []) /\
  @TwoFA.disable2FA DemoEnv.env demo_now demo_state2fa_on
     ["alice"; "Secret-Pass#2024"; "000000"]%string
  = Some (demo_state2fa_on, []).
Proof.
  intros reset.
  set (user := TwoFA.mkUser2FA "alice" "$2a$10$7$Secret-Pass#2024" demo_secret
                 demo_codes true demo_now zeroTime).
  assert (Hff : @firstFactor DemoEnv.env demo_state2fa_on "alice" "Secret-Pass#2024"
                  1%positive user).
  { split; [|split]; vm_compute; reflexivity. }
  split; [|split].
  - destruct (@disable2FA_effect DemoEnv.env demo_now demo_state2fa_on
                "alice" "Secret-Pass#2024" "12345678" [] 1%positive user Hff eq_refl)
      as (_ & _ & Hstored & _).
    apply Hstored. vm_compute. right. right. left. reflexivity.
  - destruct (@disable2FA_effect DemoEnv.env demo_now demo_state2fa_on
                "alice" "Secret-Pass#2024" "368709" [] 1%positive user Hff eq_refl)
      as (_ & Hcurrent & _).
    apply Hcurrent.
    + split; [apply Z.leb_le | apply Z.ltb_lt]; vm_compute; reflexivity.
    + vm_compute. reflexivity.
  - destruct (@disable2FA_effect DemoEnv.env demo_now demo_state2fa_on
                "alice" "Secret-Pass#2024" "000000" [] 1%positive user Hff eq_refl)
      as (_ & _ & _ & Hrefused & _).
    apply Hrefused. vm_compute. reflexivity.
Defined.

